(** * TFmini Plus driver: a shallow embedding of [TFmini_plus.cpp]

    The driver talks to a single-beam lidar over an Arduino [Stream] (UART) or
    over [Wire] (I2C).  Bytes are integers in [0, 256); C's implicit
    conversions are written out ([uint8], [to_size_t]); arrays are lists and
    an access outside an array is undefined behaviour, modelled by [None].
    Member functions run in a small state-and-error monad over [World], which
    holds the object's fields, the two transports and the log of transport
    calls. *)

From Stdlib Require Import ZArith List Bool Lia.
Import ListNotations.
Local Open Scope Z_scope.

(** ** Machine integers *)

(** Conversion to [uint8_t]. *)
Definition uint8 (z : Z) : Z := z mod 256.

(** Conversion to [uint16_t]. *)
Definition uint16 (z : Z) : Z := z mod 65536.

(** [size_t] is the 16-bit [unsigned int] of the AVR boards the library is
    written for; the conversion of an [int] to [size_t] wraps around. *)
Definition size_t_modulus : Z := 2 ^ 16.
Definition to_size_t (z : Z) : Z := z mod size_t_modulus.

(** The sum of a list of bytes, truncated to one byte. *)
Definition byte_sum (l : list Z) : Z := fold_left (fun acc b => uint8 (acc + b)) l 0.

(** ** Arrays *)

(** [data[i]]: [None] outside the array. *)
Definition load (data : list Z) (i : Z) : option Z :=
  if i <? 0 then None else nth_error data (Z.to_nat i).

Fixpoint upd (data : list Z) (n : nat) (v : Z) : list Z :=
  match data, n with
  | [], _ => []
  | _ :: rest, O => v :: rest
  | b :: rest, S n' => b :: upd rest n' v
  end.

(** [data[i] = v]: [None] outside the array. *)
Definition store (data : list Z) (i : Z) (v : Z) : option (list Z) :=
  if (0 <=? i) && (i <? Z.of_nat (length data))
  then Some (upd data (Z.to_nat i) v) else None.

(** ** Constants

    [TFmini_plus.h] as shipped declares the command codes and the
    communication modes; the frame markers, field offsets and packet lengths
    that [TFmini_plus.cpp] uses are not in it. *)

Module Const.

(** Modelled from the spec: frame-start marker of host-to-device commands
    (section 6, offset 0); the header's [FRAME_START] has the same value. *)
Definition TFMINI_PLUS_FRAME_START : Z := 0x5A.

(** Modelled from the spec: marker repeated at offsets 0 and 1 of a data
    packet (section 6). *)
Definition TFMINI_PLUS_RESPONSE_FRAME_HEADER : Z := 0x59.

(** Modelled from the spec: header, length, command and checksum, the size
    of a packet without arguments (section 4.3). *)
Definition TFMINI_PLUS_MINIMUM_PACKET_SIZE : Z := 4.

(** Modelled from the spec: offset of the length field (section 6). *)
Definition TFMINI_PLUS_PACKET_POS_LENGTH : Z := 1.

(** Modelled from the spec: offset of the command code (section 6). *)
Definition TFMINI_PLUS_PACKET_POS_COMMAND : Z := 2.

(** The command codes, as [TFmini_plus.h] declares them. *)
Definition TFMINI_PLUS_GET_DATA : Z := 0.
Definition TFMINI_PLUS_GET_VERSION : Z := 1.
Definition TFMINI_PLUS_SYSTEM_RESET : Z := 2.
Definition TFMINI_PLUS_SET_FRAME_RATE : Z := 3.
Definition TFMINI_PLUS_TRIGGER_DETECTION : Z := 4.
Definition TFMINI_PLUS_SET_OUTPUT_FORMAT : Z := 5.
Definition TFMINI_PLUS_SET_BAUD_RATE : Z := 6.
Definition TFMINI_PLUS_SWITCH_DATA_OUTPUT : Z := 7.
Definition TFMINI_PLUS_SET_COMMUNICATION_INTERFACE : Z := 0x0A.
Definition TFMINI_PLUS_SET_I2C_ADDRESS : Z := 0x0B.
Definition TFMINI_PLUS_SET_IO_MODE : Z := 0x3B.
Definition TFMINI_PLUS_RESTORE_FACTORY_SETTINGS : Z := 0x10.
Definition TFMINI_PLUS_SAVE_SETTINGS : Z := 0x11.

(** Modelled from the spec: the command this driver sends to switch the
    data output; the source names it [TFMINI_PLUS_ENABLE_DATA_OUTPUT] and
    the command table (section 6) has switch-data-output(7). *)
Definition TFMINI_PLUS_ENABLE_DATA_OUTPUT : Z := 7.

(** The packet lengths follow the size rule of the spec, section 4.3: total
    size = header(1) + length(1) + command(1) + argument bytes +
    checksum(1), with the number of argument bytes that each operation puts
    in its argument array. *)

(** Modelled from the spec: set-address packet, one argument byte. *)
Definition TFMINI_PLUS_PACK_LENGTH_SET_I2C_ADDRESS : Z := 5.

(** Modelled from the spec: set-frame-rate packet, two argument bytes (the
    six bytes of scenario A, section 8). *)
Definition TFMINI_PLUS_PACK_LENGTH_SET_FRAME_RATE : Z := 6.

(** Modelled from the spec: set-baud-rate packet, four argument bytes. *)
Definition TFMINI_PLUS_PACK_LENGTH_SET_BAUD_RATE : Z := 8.

(** Modelled from the spec: set-output-format packet, one argument byte. *)
Definition TFMINI_PLUS_PACK_LENGTH_SET_OUTPUT_FORMAT : Z := 5.

(** Modelled from the spec: get-data packet, one argument byte. *)
Definition TFMINI_PLUS_PACK_LENGTH_GET_DATA : Z := 5.

(** Modelled from the spec: set-io-mode packet, five argument bytes. *)
Definition TFMINI_PLUS_PACK_LENGTH_SET_IO_MODE : Z := 9.

(** Modelled from the spec: set-communication-interface packet, one
    argument byte. *)
Definition TFMINI_PLUS_PACK_LENGTH_SET_COMMUNICATION_INTERFACE : Z := 5.

(** Modelled from the spec: switch-data-output packet, one argument byte. *)
Definition TFMINI_PLUS_PACK_LENGTH_ENABLE_DATA_OUTPUT : Z := 5.

(** Modelled from the spec: version response, three payload bytes
    (section 3). *)
Definition TFMINI_PLUS_PACK_LENGTH_VERSION_RESPONSE : Z := 7.

(** Modelled from the spec: save-settings response, one status byte, read
    at offset 3. *)
Definition TFMINI_PLUS_PACK_LENGTH_SAVE_SETTINGS_RESPONSE : Z := 5.

(** Modelled from the spec: system-reset response, one status byte. *)
Definition TFMINI_PLUS_PACK_LENGTH_SYSTEM_RESET_RESPONSE : Z := 5.

(** Modelled from the spec: factory-reset response, one status byte. *)
Definition TFMINI_PLUS_PACK_LENGTH_RESTORE_FACTORY_SETTINGS_RESPONSE : Z := 5.

(** Modelled from the spec: a data packet has offsets 0 to 8 (section 6). *)
Definition TFMINI_PLUS_PACK_LENGTH_DATA_RESPONSE : Z := 9.

End Const.
Import Const.

(** ** Checksum unit *)

(** The loop of [calculate_checksum]: [data] is the array from index [i] on,
    [bound] the loop bound as a [size_t]. *)
Fixpoint checksum_loop (data : list Z) (i bound checksum : Z) : option Z :=
  if i <? bound then
    match data with
    | [] => None
    | b :: rest => checksum_loop rest (i + 1) bound (uint8 (checksum + b))
    end
  else Some checksum.

(** [calculate_checksum(data, size)]: the loop runs while [i < (size - 1)],
    an [int] compared with the [size_t] counter. *)
Definition calculate_checksum (data : list Z) (size : Z) : option Z :=
  checksum_loop data 0 (to_size_t (size - 1)) 0.

(** [compare_checksum(data, size)]; [size - 1] is converted back to the
    [uint8_t] parameter of [calculate_checksum]. *)
Definition compare_checksum (data : list Z) (size : Z) : option bool :=
  match calculate_checksum data (uint8 (size - 1)) with
  | None => None
  | Some checksum =>
      match load data (size - 1) with
      | None => None
      | Some sent => Some (checksum =? sent)
      end
  end.

(** ** The object, its transports and the log of transport calls *)

Inductive tfminiplus_communication_mode : Set :=
| TFMINI_PLUS_UART
| TFMINI_PLUS_I2C.

Definition communication_mode_value (m : tfminiplus_communication_mode) : Z :=
  match m with TFMINI_PLUS_UART => 0 | TFMINI_PLUS_I2C => 1 end.

Definition mode_eqb (a b : tfminiplus_communication_mode) : bool :=
  communication_mode_value a =? communication_mode_value b.

(** The [Stream] behind [_stream]: the bytes waiting in its receive buffer,
    oldest first, and how many bytes one [write] accepts.  No byte arrives
    while a call is running: a read that finds the buffer short times out. *)
Record Stream : Set := mkStream {
  rx : list Z;
  tx_room : Z
}.

(** The [Wire] object: how many bytes [write] buffers, the status that
    [endTransmission] returns (0 is success), what the device answers to the
    next [requestFrom], and the receive buffer [requestFrom] fills. *)
Record TwoWire : Set := mkTwoWire {
  wire_tx_room : Z;
  wire_end_status : Z;
  wire_answer : list Z;
  wire_rx : list Z
}.

Inductive Event : Set :=
| EvStreamWrite (bytes : list Z) (written : Z)
| EvStreamFlush
| EvStreamRead (c : Z)
| EvStreamReadBytes (wanted : Z) (got : list Z)
| EvWireBegin (address : Z)
| EvWireWrite (bytes : list Z) (written : Z)
| EvWireEnd (status : Z)
| EvWireRequest (address size : Z)
| EvDelay (ms : Z).

Record World : Set := mkWorld {
  _communications_mode : tfminiplus_communication_mode;
  _address : Z;
  _stream : Stream;
  Wire : TwoWire;
  trace : list Event
}.

Definition with_mode (m : tfminiplus_communication_mode) (w : World) : World :=
  mkWorld m (_address w) (_stream w) (Wire w) (trace w).
Definition with_address (a : Z) (w : World) : World :=
  mkWorld (_communications_mode w) a (_stream w) (Wire w) (trace w).
Definition with_stream (s : Stream) (w : World) : World :=
  mkWorld (_communications_mode w) (_address w) s (Wire w) (trace w).
Definition with_wire (t : TwoWire) (w : World) : World :=
  mkWorld (_communications_mode w) (_address w) (_stream w) t (trace w).
Definition log (e : Event) (w : World) : World :=
  mkWorld (_communications_mode w) (_address w) (_stream w) (Wire w) (trace w ++ [e]).

(** ** The monad: state passing over [World], [None] for undefined behaviour *)

Definition M (A : Type) : Type := World -> option (A * World).

Definition ret {A} (a : A) : M A := fun w => Some (a, w).
Definition bind {A B} (c : M A) (k : A -> M B) : M B :=
  fun w => match c w with
           | None => None
           | Some (a, w') => k a w'
           end.
Definition lift {A} (o : option A) : M A :=
  fun w => match o with None => None | Some a => Some (a, w) end.
Definition gets {A} (f : World -> A) : M A := fun w => Some (f w, w).
Definition modify (f : World -> World) : M unit := fun w => Some (tt, f w).

Declare Scope driver_scope.
Delimit Scope driver_scope with driver.
Notation "x <- c1 ;; c2" := (bind c1 (fun x => c2))
  (at level 100, c1 at next level, right associativity) : driver_scope.
Notation "' pat <- c1 ;; c2" := (bind c1 (fun x => match x with pat => c2 end))
  (at level 100, pat pattern, c1 at next level, right associativity) : driver_scope.
Notation "c1 ;;; c2" := (bind c1 (fun _ => c2))
  (at level 100, right associativity) : driver_scope.
Local Open Scope driver_scope.

(** ** Transport calls *)

(** Copy [bytes] into [buffer] from index [offset] on. *)
Definition write_at (buffer : list Z) (offset : Z) (bytes : list Z) : option (list Z) :=
  if (0 <=? offset) && (offset + Z.of_nat (length bytes) <=? Z.of_nat (length buffer))
  then Some (firstn (Z.to_nat offset) buffer ++ bytes
             ++ skipn (Z.to_nat offset + length bytes) buffer)
  else None.

(** [_stream->write(input, size)]: reads [size] bytes of [input]. *)
Definition stream_write (input : list Z) (size : Z) : M Z :=
  fun w =>
    if size <=? Z.of_nat (length input) then
      let written := Z.max 0 (Z.min size (tx_room (_stream w))) in
      Some (written, log (EvStreamWrite (firstn (Z.to_nat size) input) written) w)
    else None.

Definition stream_flush : M unit := modify (log EvStreamFlush).

Definition stream_available : M Z :=
  gets (fun w => Z.of_nat (length (rx (_stream w)))).

(** [_stream->read()]: the next byte, or -1 when there is none. *)
Definition stream_read : M Z :=
  fun w =>
    match rx (_stream w) with
    | [] => Some (-1, log (EvStreamRead (-1)) w)
    | c :: rest =>
        Some (c, log (EvStreamRead c) (with_stream (mkStream rest (tx_room (_stream w))) w))
    end.

(** [_stream->readBytes(&buffer[offset], length)]: takes what is there, up to
    [length] bytes, and returns how many it took. *)
Definition stream_readBytes (buffer : list Z) (offset length : Z) : M (Z * list Z) :=
  fun w =>
    let got := firstn (Z.to_nat length) (rx (_stream w)) in
    match write_at buffer offset got with
    | None => None
    | Some buffer' =>
        Some ((Z.of_nat (List.length got), buffer'),
              log (EvStreamReadBytes length got)
                (with_stream (mkStream (skipn (Z.to_nat length) (rx (_stream w)))
                                (tx_room (_stream w))) w))
    end.

Definition wire_beginTransmission (address : Z) : M unit :=
  modify (log (EvWireBegin address)).

Definition wire_write (input : list Z) (size : Z) : M Z :=
  fun w =>
    if size <=? Z.of_nat (length input) then
      let written := Z.max 0 (Z.min size (wire_tx_room (Wire w))) in
      Some (written, log (EvWireWrite (firstn (Z.to_nat size) input) written) w)
    else None.

Definition wire_endTransmission : M Z :=
  fun w => Some (wire_end_status (Wire w), log (EvWireEnd (wire_end_status (Wire w))) w).

(** [Wire.requestFrom(address, size)]: the device's answer, cut at [size]
    bytes, replaces the receive buffer. *)
Definition wire_requestFrom (address size : Z) : M unit :=
  fun w =>
    let t := Wire w in
    Some (tt, log (EvWireRequest address size)
                (with_wire (mkTwoWire (wire_tx_room t) (wire_end_status t)
                              (skipn (Z.to_nat size) (wire_answer t))
                              (firstn (Z.to_nat size) (wire_answer t))) w)).

Definition wire_available : M Z :=
  gets (fun w => Z.of_nat (length (wire_rx (Wire w)))).

Definition wire_read : M Z :=
  fun w =>
    let t := Wire w in
    match wire_rx t with
    | [] => Some (-1, w)
    | c :: rest =>
        Some (c, with_wire (mkTwoWire (wire_tx_room t) (wire_end_status t)
                              (wire_answer t) rest) w)
    end.

Definition delay (ms : Z) : M unit := modify (log (EvDelay ms)).

(** ** Sending *)

(** [send_uart]: [bytes_sent] receives the result of the comparison
    [write(...) == size], not the count. *)
Definition send_uart (input : list Z) (size : Z) : M bool :=
  written <- stream_write input size ;;
  let bytes_sent := uint8 (if written =? size then 1 else 0) in
  stream_flush ;;;
  ret (bytes_sent =? size).

(** [send_i2c]: [acknowledged] is the status of [endTransmission] converted
    to [bool]. *)
Definition send_i2c (input : list Z) (size : Z) : M bool :=
  address <- gets _address ;;
  wire_beginTransmission address ;;;
  written <- wire_write input size ;;
  let bytes_sent := uint8 written in
  status <- wire_endTransmission ;;
  let acknowledged := negb (status =? 0) in
  ret ((bytes_sent =? size) && acknowledged).

Definition send (input : list Z) (size : Z) : M bool :=
  let result := false in
  mode <- gets _communications_mode ;;
  result <- (if mode_eqb mode TFMINI_PLUS_UART then send_uart input size else ret result) ;;
  mode <- gets _communications_mode ;;
  result <- (if mode_eqb mode TFMINI_PLUS_I2C then send_i2c input size else ret result) ;;
  ret result.

(** The argument loop of [send_command]: [n] iterations are left, the next
    one copies [arguments[i]]. *)
Fixpoint copy_arguments (packet arguments : list Z) (i : Z) (n : nat) : option (list Z) :=
  match n with
  | O => Some packet
  | S n' =>
      match load arguments i with
      | None => None
      | Some a =>
          match store packet (TFMINI_PLUS_MINIMUM_PACKET_SIZE - 1 + i) a with
          | None => None
          | Some packet' => copy_arguments packet' arguments (i + 1) n'
          end
      end
  end.

(** The packet [send_command] builds in its local array, whose cells hold
    [packet] when the function is entered. *)
Definition command_packet_from (packet : list Z) (command : Z) (arguments : list Z)
  (size : Z) : option (list Z) :=
  match store packet 0 TFMINI_PLUS_FRAME_START with
  | None => None
  | Some packet =>
  match store packet 1 size with
  | None => None
  | Some packet =>
  match store packet 2 command with
  | None => None
  | Some packet =>
  match (if size >? TFMINI_PLUS_MINIMUM_PACKET_SIZE
         then copy_arguments packet arguments 0
                (Z.to_nat (size - TFMINI_PLUS_MINIMUM_PACKET_SIZE))
         else Some packet) with
  | None => None
  | Some packet =>
  match calculate_checksum packet (uint8 (size - 1)) with
  | None => None
  | Some checksum => store packet (size - 1) checksum
  end end end end end.

(** A local array of [size] bytes before anything is written to it.  The
    driver reads no cell of such an array before writing it
    ([command_packet_from_layout], [receive_i2c_verdict],
    [receive_uart_verdict]), so the initial bytes are immaterial. *)
Definition uninitialised (size : Z) : list Z := repeat 0 (Z.to_nat size).

Definition command_packet (command : Z) (arguments : list Z) (size : Z) : option (list Z) :=
  command_packet_from (uninitialised size) command arguments size.

(** [send_command(command, arguments, size)]. *)
Definition send_command (command : Z) (arguments : list Z) (size : Z) : M bool :=
  packet <- lift (command_packet command arguments size) ;;
  send packet size.

(** [send_command(command)], for commands without arguments: the argument
    pointer is null. *)
Definition send_command0 (command : Z) : M bool :=
  send_command command [] TFMINI_PLUS_MINIMUM_PACKET_SIZE.

(** ** Receiving *)

Definition receive_uart (output : list Z) (size : Z) : M (bool * list Z) :=
  '(count, output) <- stream_readBytes output 0 size ;;
  let bytes_read := uint8 count in
  ret (bytes_read =? size, output).

(** The loop of [receive_i2c]: [n] is [size - bytes_read], so the test
    [bytes_read < size] is the test that [n] is not zero. *)
Fixpoint receive_i2c_loop (n : nat) (output : list Z) (bytes_read : Z) : M (Z * list Z) :=
  match n with
  | O => ret (bytes_read, output)
  | S n' =>
      available <- wire_available ;;
      if available =? 0 then ret (bytes_read, output)
      else
        c <- wire_read ;;
        output <- lift (store output bytes_read (uint8 c)) ;;
        receive_i2c_loop n' output (bytes_read + 1)
  end.

Definition receive_i2c (output : list Z) (size : Z) : M (bool * list Z) :=
  address <- gets _address ;;
  wire_requestFrom address size ;;;
  '(bytes_read, output) <- receive_i2c_loop (Z.to_nat size) output 0 ;;
  ret (bytes_read =? size, output).

(** [receive(output, size)]: the array is returned with the verdict. *)
Definition receive (output : list Z) (size : Z) : M (bool * list Z) :=
  let result := false in
  mode <- gets _communications_mode ;;
  '(result, output) <- (if mode_eqb mode TFMINI_PLUS_UART then receive_uart output size
                        else ret (result, output)) ;;
  mode <- gets _communications_mode ;;
  '(result, output) <- (if mode_eqb mode TFMINI_PLUS_I2C then receive_i2c output size
                        else ret (result, output)) ;;
  if result : bool then
    len <- lift (load output TFMINI_PLUS_PACKET_POS_LENGTH) ;;
    let result := size =? len in
    matches <- lift (compare_checksum output size) ;;
    ret (result && matches, output)
  else ret (result, output).

(** The header search of [uart_receive_data].  Every iteration that passes
    the loop test takes at least one byte, so [fuel] above the number of
    waiting bytes is never used up (see [find_packet_start_fuel]). *)
Fixpoint find_packet_start (fuel : nat) (output : list Z) (packet_start_found : bool)
  : M (bool * list Z) :=
  match fuel with
  | O => ret (packet_start_found, output)
  | S fuel' =>
      available <- stream_available ;;
      if negb (available =? 0) && negb packet_start_found then
        c1 <- stream_read ;;
        if c1 =? TFMINI_PLUS_RESPONSE_FRAME_HEADER then
          c2 <- stream_read ;;
          if c2 =? TFMINI_PLUS_RESPONSE_FRAME_HEADER then
            output <- lift (store output 0 TFMINI_PLUS_RESPONSE_FRAME_HEADER) ;;
            output <- lift (store output 1 TFMINI_PLUS_RESPONSE_FRAME_HEADER) ;;
            find_packet_start fuel' output true
          else find_packet_start fuel' output packet_start_found
        else find_packet_start fuel' output packet_start_found
      else ret (packet_start_found, output)
  end.

(** [uart_receive_data(output, size)]. *)
Definition uart_receive_data (output : list Z) (size : Z) : M (bool * list Z) :=
  available <- stream_available ;;
  '(_, output) <- find_packet_start (S (Z.to_nat available)) output false ;;
  '(count, output) <- stream_readBytes output 2 (to_size_t (size - 2)) ;;
  let bytes_read := uint8 (count + 2) in
  ret (bytes_read =? size, output).

(** ** Operations *)

Definition do_i2c_wait : M unit :=
  mode <- gets _communications_mode ;;
  if mode_eqb mode TFMINI_PLUS_I2C then delay 100 else ret tt.

(** [begin(address)]; the function has no [return] statement. *)
Definition begin (address : Z) : M unit :=
  modify (with_mode TFMINI_PLUS_I2C) ;;;
  modify (with_address (uint8 (Z.land address 0x7F))).

(** [begin(stream)]. *)
Definition begin_stream (stream : Stream) : M unit :=
  modify (with_mode TFMINI_PLUS_UART) ;;;
  modify (with_stream stream).

Definition set_i2c_address (address : Z) : M bool :=
  let result := false in
  send_command TFMINI_PLUS_SET_I2C_ADDRESS [address] TFMINI_PLUS_PACK_LENGTH_SET_I2C_ADDRESS ;;;
  do_i2c_wait ;;;
  let response := uninitialised TFMINI_PLUS_PACK_LENGTH_SET_I2C_ADDRESS in
  '(received, response) <- receive response TFMINI_PLUS_PACK_LENGTH_SET_I2C_ADDRESS ;;
  if received : bool then
    echoed <- lift (load response 3) ;;
    if echoed =? address then
      modify (with_address address) ;;;
      ret true
    else ret result
  else ret result.

Record tfminiplus_version_t : Set := mkVersion {
  revision : Z;
  minor : Z;
  major : Z
}.

(** [get_version()]: [None] stands for the local struct returned as it was
    declared, with no field assigned. *)
Definition get_version : M (option tfminiplus_version_t) :=
  send_command0 TFMINI_PLUS_GET_VERSION ;;;
  do_i2c_wait ;;;
  let response := uninitialised TFMINI_PLUS_PACK_LENGTH_VERSION_RESPONSE in
  '(received, response) <- receive response TFMINI_PLUS_PACK_LENGTH_VERSION_RESPONSE ;;
  if received : bool then
    code <- lift (load response TFMINI_PLUS_PACKET_POS_COMMAND) ;;
    if code =? TFMINI_PLUS_GET_VERSION then
      r <- lift (load response 3) ;;
      mi <- lift (load response 4) ;;
      ma <- lift (load response 5) ;;
      ret (Some (mkVersion r mi ma))
    else ret None
  else ret None.

Inductive tfminiplus_framerate_t : Set :=
| TFMINI_PLUS_FRAMERATE_0HZ
| TFMINI_PLUS_FRAMERATE_1HZ
| TFMINI_PLUS_FRAMERATE_2HZ
| TFMINI_PLUS_FRAMERATE_5HZ
| TFMINI_PLUS_FRAMERATE_10HZ
| TFMINI_PLUS_FRAMERATE_20HZ
| TFMINI_PLUS_FRAMERATE_25HZ
| TFMINI_PLUS_FRAMERATE_50HZ
| TFMINI_PLUS_FRAMERATE_100HZ
| TFMINI_PLUS_FRAMERATE_200HZ
| TFMINI_PLUS_FRAMERATE_250HZ
| TFMINI_PLUS_FRAMERATE_500HZ
| TFMINI_PLUS_FRAMERATE_1000HZ.

Definition framerate_value (f : tfminiplus_framerate_t) : Z :=
  match f with
  | TFMINI_PLUS_FRAMERATE_0HZ => 0
  | TFMINI_PLUS_FRAMERATE_1HZ => 1
  | TFMINI_PLUS_FRAMERATE_2HZ => 2
  | TFMINI_PLUS_FRAMERATE_5HZ => 5
  | TFMINI_PLUS_FRAMERATE_10HZ => 10
  | TFMINI_PLUS_FRAMERATE_20HZ => 20
  | TFMINI_PLUS_FRAMERATE_25HZ => 25
  | TFMINI_PLUS_FRAMERATE_50HZ => 50
  | TFMINI_PLUS_FRAMERATE_100HZ => 100
  | TFMINI_PLUS_FRAMERATE_200HZ => 200
  | TFMINI_PLUS_FRAMERATE_250HZ => 250
  | TFMINI_PLUS_FRAMERATE_500HZ => 500
  | TFMINI_PLUS_FRAMERATE_1000HZ => 1000
  end.

Definition set_framerate (framerate : tfminiplus_framerate_t) : M bool :=
  let result := false in
  let argument0 := uint8 (Z.lor (framerate_value framerate) 0xFF) in
  let argument1 := uint8 (Z.shiftr (framerate_value framerate) 8) in
  send_command TFMINI_PLUS_SET_FRAME_RATE [argument0; argument1]
    TFMINI_PLUS_PACK_LENGTH_SET_FRAME_RATE ;;;
  do_i2c_wait ;;;
  let response := uninitialised TFMINI_PLUS_PACK_LENGTH_SET_FRAME_RATE in
  '(received, response) <- receive response TFMINI_PLUS_PACK_LENGTH_SET_FRAME_RATE ;;
  if received : bool then
    r3 <- lift (load response 3) ;;
    r4 <- lift (load response 4) ;;
    if (argument0 =? r3) && (argument1 =? r4) then ret true else ret result
  else ret result.

Inductive tfminiplus_baudrate_t : Set :=
| TFMINI_PLUS_BAUDRATE_9600
| TFMINI_PLUS_BAUDRATE_19200
| TFMINI_PLUS_BAUDRATE_38400
| TFMINI_PLUS_BAUDRATE_57600
| TFMINI_PLUS_BAUDRATE_115200.

Definition baudrate_value (b : tfminiplus_baudrate_t) : Z :=
  match b with
  | TFMINI_PLUS_BAUDRATE_9600 => 9600
  | TFMINI_PLUS_BAUDRATE_19200 => 19200
  | TFMINI_PLUS_BAUDRATE_38400 => 38400
  | TFMINI_PLUS_BAUDRATE_57600 => 57600
  | TFMINI_PLUS_BAUDRATE_115200 => 115200
  end.

(** [set_baudrate]; the local [echoed_baudrate] is computed and never used. *)
Definition set_baudrate (baudrate : tfminiplus_baudrate_t) : M bool :=
  let result := false in
  let argument0 := uint8 (Z.lor (baudrate_value baudrate) 0xFF) in
  let argument1 := uint8 (Z.shiftr (baudrate_value baudrate) 8) in
  let argument2 := uint8 (Z.shiftr (baudrate_value baudrate) 16) in
  let argument3 := uint8 (Z.shiftr (baudrate_value baudrate) 24) in
  send_command TFMINI_PLUS_SET_BAUD_RATE [argument0; argument1; argument2; argument3]
    TFMINI_PLUS_PACK_LENGTH_SET_BAUD_RATE ;;;
  do_i2c_wait ;;;
  let response := uninitialised TFMINI_PLUS_PACK_LENGTH_SET_BAUD_RATE in
  '(received, response) <- receive response TFMINI_PLUS_PACK_LENGTH_SET_BAUD_RATE ;;
  if received : bool then
    r3 <- lift (load response 3) ;;
    r4 <- lift (load response 4) ;;
    r5 <- lift (load response 5) ;;
    r6 <- lift (load response 6) ;;
    if (argument0 =? r3) && (argument1 =? r4) && (argument2 =? r5) && (argument3 =? r6)
    then ret true else ret result
  else ret result.

Inductive tfminiplus_output_format_t : Set :=
| TFMINI_PLUS_OUTPUT_CM
| TFMINI_PLUS_OUTPUT_PIXHAWK
| TFMINI_PLUS_OUTPUT_MM.

Definition output_format_value (f : tfminiplus_output_format_t) : Z :=
  match f with
  | TFMINI_PLUS_OUTPUT_CM => 1
  | TFMINI_PLUS_OUTPUT_PIXHAWK => 2
  | TFMINI_PLUS_OUTPUT_MM => 6
  end.

(** The low byte of an object handed over as [(uint8_t* )&object]. *)
Definition first_byte (z : Z) : Z := uint8 z.

Definition set_output_format (format : tfminiplus_output_format_t) : M bool :=
  let result := false in
  send_command TFMINI_PLUS_SET_OUTPUT_FORMAT [first_byte (output_format_value format)]
    TFMINI_PLUS_PACK_LENGTH_SET_OUTPUT_FORMAT ;;;
  do_i2c_wait ;;;
  let response := uninitialised TFMINI_PLUS_PACK_LENGTH_SET_OUTPUT_FORMAT in
  '(received, response) <- receive response TFMINI_PLUS_PACK_LENGTH_SET_OUTPUT_FORMAT ;;
  if received : bool then
    r3 <- lift (load response 3) ;;
    if output_format_value format =? r3 then ret true else ret result
  else ret result.

Record tfminiplus_data_t : Set := mkData {
  distance : Z;
  strength : Z;
  temperature : Z
}.

Definition read_data_response (data : tfminiplus_data_t) : M (bool * tfminiplus_data_t) :=
  let response := uninitialised TFMINI_PLUS_PACK_LENGTH_DATA_RESPONSE in
  mode <- gets _communications_mode ;;
  '(result, response) <- (if mode_eqb mode TFMINI_PLUS_UART
                          then uart_receive_data response TFMINI_PLUS_PACK_LENGTH_DATA_RESPONSE
                          else receive response TFMINI_PLUS_PACK_LENGTH_DATA_RESPONSE) ;;
  if result : bool then
    r2 <- lift (load response 2) ;;
    r3 <- lift (load response 3) ;;
    r4 <- lift (load response 4) ;;
    r5 <- lift (load response 5) ;;
    r6 <- lift (load response 6) ;;
    r7 <- lift (load response 7) ;;
    ret (result, mkData (uint16 (r2 + Z.shiftl r3 8))
                        (uint16 (r4 + Z.shiftl r5 8))
                        (uint16 (r6 + Z.shiftl r7 8)))
  else ret (result, data).

Definition read_manual_reading (data : tfminiplus_data_t) : M (bool * tfminiplus_data_t) :=
  send_command0 TFMINI_PLUS_TRIGGER_DETECTION ;;;
  do_i2c_wait ;;;
  read_data_response data.

Definition read_data (data : tfminiplus_data_t) (in_mm_format : bool)
  : M (bool * tfminiplus_data_t) :=
  mode <- gets _communications_mode ;;
  (if mode_eqb mode TFMINI_PLUS_I2C
   then send_command TFMINI_PLUS_GET_DATA [if in_mm_format then 1 else 0]
          TFMINI_PLUS_PACK_LENGTH_GET_DATA
   else ret false) ;;;
  read_data_response data.

Inductive tfminiplus_mode_t : Set := STANDARD.

Definition io_mode_value (m : tfminiplus_mode_t) : Z :=
  match m with STANDARD => 0 end.

(** [set_io_mode]; the function has no [return] statement. *)
Definition set_io_mode (mode : tfminiplus_mode_t) (critical_distance hysteresis : Z) : M unit :=
  send_command TFMINI_PLUS_SET_IO_MODE
    [uint8 (io_mode_value mode);
     uint8 critical_distance; uint8 (Z.shiftr critical_distance 8);
     uint8 hysteresis; uint8 (Z.shiftr hysteresis 8)]
    TFMINI_PLUS_PACK_LENGTH_SET_IO_MODE ;;;
  ret tt.

Definition save_settings : M bool :=
  let result := false in
  send_command0 TFMINI_PLUS_SAVE_SETTINGS ;;;
  do_i2c_wait ;;;
  let response := uninitialised TFMINI_PLUS_PACK_LENGTH_SAVE_SETTINGS_RESPONSE in
  '(received, response) <- receive response TFMINI_PLUS_PACK_LENGTH_SAVE_SETTINGS_RESPONSE ;;
  if received : bool then
    r3 <- lift (load response 3) ;;
    if r3 =? 0 then ret true else ret result
  else ret result.

(** [set_communication_interface]; the function has no [return] statement. *)
Definition set_communication_interface (mode : tfminiplus_communication_mode) : M unit :=
  send_command TFMINI_PLUS_SET_COMMUNICATION_INTERFACE
    [first_byte (communication_mode_value mode)]
    TFMINI_PLUS_PACK_LENGTH_SET_COMMUNICATION_INTERFACE ;;;
  saved <- save_settings ;;
  if saved : bool then modify (with_mode mode) else ret tt.

Definition enable_output (output_enabled : bool) : M bool :=
  let result := false in
  send_command TFMINI_PLUS_ENABLE_DATA_OUTPUT [if output_enabled then 1 else 0]
    TFMINI_PLUS_PACK_LENGTH_ENABLE_DATA_OUTPUT ;;;
  do_i2c_wait ;;;
  let response := uninitialised TFMINI_PLUS_PACK_LENGTH_ENABLE_DATA_OUTPUT in
  '(received, response) <- receive response TFMINI_PLUS_PACK_LENGTH_ENABLE_DATA_OUTPUT ;;
  if received : bool then
    r3 <- lift (load response 3) ;;
    if (if output_enabled then 1 else 0) =? r3 then ret true else ret result
  else ret result.

Definition reset_system : M bool :=
  let result := false in
  send_command0 TFMINI_PLUS_SYSTEM_RESET ;;;
  do_i2c_wait ;;;
  let response := uninitialised TFMINI_PLUS_PACK_LENGTH_SYSTEM_RESET_RESPONSE in
  '(received, response) <- receive response TFMINI_PLUS_PACK_LENGTH_SYSTEM_RESET_RESPONSE ;;
  if received : bool then
    r3 <- lift (load response 3) ;;
    if r3 =? 0 then ret true else ret result
  else ret result.

Definition factory_reset : M bool :=
  let result := false in
  send_command0 TFMINI_PLUS_RESTORE_FACTORY_SETTINGS ;;;
  do_i2c_wait ;;;
  let response := uninitialised TFMINI_PLUS_PACK_LENGTH_RESTORE_FACTORY_SETTINGS_RESPONSE in
  '(received, response) <-
    receive response TFMINI_PLUS_PACK_LENGTH_RESTORE_FACTORY_SETTINGS_RESPONSE ;;
  if received : bool then
    r3 <- lift (load response 3) ;;
    if r3 =? 0 then ret true else ret result
  else ret result.

(** The operations of the facade that exchange packets with the device. *)
Inductive Operation : Set :=
| OpSetI2cAddress (address : Z)
| OpGetVersion
| OpSetFramerate (framerate : tfminiplus_framerate_t)
| OpSetBaudrate (baudrate : tfminiplus_baudrate_t)
| OpSetOutputFormat (format : tfminiplus_output_format_t)
| OpReadManualReading (data : tfminiplus_data_t)
| OpReadData (data : tfminiplus_data_t) (in_mm_format : bool)
| OpSetIoMode (mode : tfminiplus_mode_t) (critical_distance hysteresis : Z)
| OpSetCommunicationInterface (mode : tfminiplus_communication_mode)
| OpEnableOutput (output_enabled : bool)
| OpSaveSettings
| OpResetSystem
| OpFactoryReset.

Definition is_read_data (op : Operation) : bool :=
  match op with OpReadData _ _ => true | _ => false end.

(** Run an operation for its effect on the world. *)
Definition run (op : Operation) : M unit :=
  match op with
  | OpSetI2cAddress address => set_i2c_address address ;;; ret tt
  | OpGetVersion => get_version ;;; ret tt
  | OpSetFramerate framerate => set_framerate framerate ;;; ret tt
  | OpSetBaudrate baudrate => set_baudrate baudrate ;;; ret tt
  | OpSetOutputFormat format => set_output_format format ;;; ret tt
  | OpReadManualReading data => read_manual_reading data ;;; ret tt
  | OpReadData data in_mm_format => read_data data in_mm_format ;;; ret tt
  | OpSetIoMode mode critical_distance hysteresis =>
      set_io_mode mode critical_distance hysteresis
  | OpSetCommunicationInterface mode => set_communication_interface mode
  | OpEnableOutput output_enabled => enable_output output_enabled ;;; ret tt
  | OpSaveSettings => save_settings ;;; ret tt
  | OpResetSystem => reset_system ;;; ret tt
  | OpFactoryReset => factory_reset ;;; ret tt
  end.

(** ** Properties of traces *)

Inductive Kind : Set :=
| KSend
| KDelay (ms : Z)
| KRead
| KOther.

(** What a transport call is to the exchange: it hands bytes to the device,
    waits, or asks the transport for bytes of the device. *)
Definition kind (e : Event) : Kind :=
  match e with
  | EvStreamWrite _ _ => KSend
  | EvStreamFlush => KOther
  | EvStreamRead _ => KRead
  | EvStreamReadBytes _ _ => KRead
  | EvWireBegin _ => KOther
  | EvWireWrite _ _ => KSend
  | EvWireEnd _ => KSend
  | EvWireRequest _ _ => KRead
  | EvDelay ms => KDelay ms
  end.

(** The settle delay of [do_i2c_wait], in milliseconds. *)
Definition settle_delay : Z := 100.

(** No read follows a send without a settle delay in between; [pending]
    tells that a send has not been followed by the delay yet. *)
Fixpoint settled_from (pending : bool) (ks : list Kind) : bool :=
  match ks with
  | [] => true
  | KSend :: rest => settled_from true rest
  | KDelay ms :: rest => settled_from (pending && (ms <? settle_delay)) rest
  | KRead :: rest => negb pending && settled_from pending rest
  | KOther :: rest => settled_from pending rest
  end.

Definition settled (evs : list Event) : bool := settled_from false (map kind evs).

Definition is_delay (k : Kind) : bool :=
  match k with KDelay _ => true | _ => false end.

Definition no_delay (evs : list Event) : bool :=
  forallb (fun k => negb (is_delay k)) (map kind evs).

(** The transport calls made between [w] and [w']. *)
Definition new_events (w w' : World) : list Event :=
  skipn (length (trace w)) (trace w').

(** ** Resynchronisation *)

(** Every marker byte among the garbage is followed by a garbage byte that
    is not the marker: the garbage, with the packet's first byte after it,
    has no two markers in a row. *)
Fixpoint no_false_start (garbage : list Z) : bool :=
  match garbage with
  | [] => true
  | b :: rest =>
      (negb (b =? TFMINI_PLUS_RESPONSE_FRAME_HEADER)
       || match rest with
          | [] => false
          | c :: _ => negb (c =? TFMINI_PLUS_RESPONSE_FRAME_HEADER)
          end)
      && no_false_start rest
  end.

(** [uart_receive_data], asked for [size] bytes on a stream that holds
    [garbage], then [packet], then [rest], reads the garbage and the two
    markers byte by byte, the rest of the packet at once, returns [packet]
    and leaves [rest] in the stream. *)
Definition resynchronizes (garbage packet rest : list Z) (size : Z) : Prop :=
  forall (w : World) (output : list Z),
    Z.of_nat (length output) = size ->
    rx (_stream w) = garbage ++ packet ++ rest ->
    exists w',
      uart_receive_data output size w = Some ((true, packet), w')
      /\ rx (_stream w') = rest
      /\ new_events w w'
         = map EvStreamRead (garbage ++ firstn 2 packet)
           ++ [EvStreamReadBytes (size - 2) (skipn 2 packet)].

(** ** Reasoning about runs *)

(** [c] run in [w] returns, with a result and a world that satisfy [Q]. *)
Definition runs {A} (c : M A) (w : World) (Q : A -> World -> Prop) : Prop :=
  exists r w', c w = Some (r, w') /\ Q r w'.

(** Between [w] and [w'] the mode and the address are kept, and the
    transport calls made are of the kinds [ks]. *)
Definition emits (w : World) (ks : list Kind) (w' : World) : Prop :=
  _communications_mode w' = _communications_mode w
  /\ _address w' = _address w
  /\ exists evs, trace w' = trace w ++ evs /\ map kind evs = ks.

(** The kinds of the transport calls of [send] in mode [m]. *)
Definition send_kinds (m : tfminiplus_communication_mode) : list Kind :=
  match m with
  | TFMINI_PLUS_UART => [KSend; KOther]
  | TFMINI_PLUS_I2C => [KOther; KSend; KSend]
  end.

(** The kinds of the transport calls of [do_i2c_wait] in mode [m]. *)
Definition wait_kinds (m : tfminiplus_communication_mode) : list Kind :=
  match m with
  | TFMINI_PLUS_UART => []
  | TFMINI_PLUS_I2C => [KDelay settle_delay]
  end.

(** ** What [receive] accepts *)

(** The verdict of [receive] on a filled array: the length byte is the
    expected size and the last byte is what [compare_checksum] computes. *)
Definition accepts (response : list Z) (size : Z) : bool :=
  (size =? nth 1 response 0)
  && (byte_sum (firstn (Z.to_nat (size - 2)) response)
      =? nth (Z.to_nat (size - 1)) response 0).

(** The world after [Wire.requestFrom(address, size)] and the loop that
    empties the receive buffer. *)
Definition after_request (size : Z) (w : World) : World :=
  log (EvWireRequest (_address w) size)
    (with_wire (mkTwoWire (wire_tx_room (Wire w)) (wire_end_status (Wire w))
                  (skipn (Z.to_nat size) (wire_answer (Wire w))) []) w).

(** The world after [_stream->readBytes(buffer, length)]. *)
Definition after_readBytes (length : Z) (w : World) : World :=
  log (EvStreamReadBytes length (firstn (Z.to_nat length) (rx (_stream w))))
    (with_stream (mkStream (skipn (Z.to_nat length) (rx (_stream w)))
                    (tx_room (_stream w))) w).

(** The transport calls made between [w] and [w'] are of the kinds [ks]. *)
Definition logs (w : World) (ks : list Kind) (w' : World) : Prop :=
  exists evs, trace w' = trace w ++ evs /\ map kind evs = ks.

(** The kinds of the transport calls of an exchange in mode [m]: the
    command, the wait of [do_i2c_wait], [n] reads. *)
Definition exchange_kinds (m : tfminiplus_communication_mode) (n : nat) : list Kind :=
  send_kinds m ++ wait_kinds m ++ repeat KRead n.

(** The kinds of the transport calls of each operation. *)
Definition op_kinds (op : Operation) (m : tfminiplus_communication_mode) (n : nat)
  : list Kind :=
  match op with
  | OpReadData _ _ =>
      match m with
      | TFMINI_PLUS_I2C => send_kinds m ++ repeat KRead n
      | TFMINI_PLUS_UART => repeat KRead n
      end
  | OpReadManualReading _ => exchange_kinds m n
  | OpSetIoMode _ _ _ => send_kinds m
  | OpSetCommunicationInterface _ => send_kinds m ++ exchange_kinds m 1
  | _ => exchange_kinds m 1
  end.

(** The world after the header search has read [bytes] one by one and left
    [tail] in the stream. *)
Definition after_reads (bytes tail : list Z) (w : World) : World :=
  mkWorld (_communications_mode w) (_address w)
    (mkStream tail (tx_room (_stream w))) (Wire w)
    (trace w ++ map EvStreamRead bytes).

(** ** Example worlds *)

(** A sensor on the bus at the default address, which answers the next
    request with [answer]. *)
Definition bus_world (answer : list Z) : World :=
  mkWorld TFMINI_PLUS_I2C 0x10 (mkStream [] 64) (mkTwoWire 32 0 answer []) [].

(** A sensor on a stream whose receive buffer holds [waiting]. *)
Definition stream_world (waiting : list Z) : World :=
  mkWorld TFMINI_PLUS_UART 0x10 (mkStream waiting 64) (mkTwoWire 32 0 [] []) [].

(** ** Exchanges, in terms of what the transports hold *)

(** The bytes of the packet that [send_command] builds, by position: the
    marker, the size, the command code, the arguments, and the byte that
    [calculate_checksum(packet, size - 1)] returns. *)
Definition command_bytes (command : Z) (arguments : list Z) (size : Z) : list Z :=
  let body := [TFMINI_PLUS_FRAME_START; size; command]
              ++ firstn (Z.to_nat (size - 4)) arguments in
  body ++ [byte_sum (firstn (Z.to_nat (size - 2)) body)].

(** The world after [send(input, size)]. *)
Definition after_send (input : list Z) (size : Z) (w : World) : World :=
  match _communications_mode w with
  | TFMINI_PLUS_UART =>
      log EvStreamFlush
        (log (EvStreamWrite (firstn (Z.to_nat size) input)
                (Z.max 0 (Z.min size (tx_room (_stream w))))) w)
  | TFMINI_PLUS_I2C =>
      log (EvWireEnd (wire_end_status (Wire w)))
        (log (EvWireWrite (firstn (Z.to_nat size) input)
                (Z.max 0 (Z.min size (wire_tx_room (Wire w)))))
           (log (EvWireBegin (_address w)) w))
  end.

(** What [send(input, size)] returns. *)
Definition send_reports (size : Z) (w : World) : bool :=
  match _communications_mode w with
  | TFMINI_PLUS_UART =>
      uint8 (if Z.max 0 (Z.min size (tx_room (_stream w))) =? size then 1 else 0) =? size
  | TFMINI_PLUS_I2C =>
      (uint8 (Z.max 0 (Z.min size (wire_tx_room (Wire w)))) =? size)
      && negb (wire_end_status (Wire w) =? 0)
  end.

(** The world after [do_i2c_wait()]. *)
Definition after_wait (w : World) : World :=
  match _communications_mode w with
  | TFMINI_PLUS_UART => w
  | TFMINI_PLUS_I2C => log (EvDelay settle_delay) w
  end.

(** The bytes that the transport in use holds for the driver. *)
Definition incoming (w : World) : list Z :=
  match _communications_mode w with
  | TFMINI_PLUS_UART => rx (_stream w)
  | TFMINI_PLUS_I2C => wire_answer (Wire w)
  end.

(** The bytes that [receive(output, size)] puts in its array: the first
    [size] incoming bytes, or all of them when there are fewer; [Wire.read]
    hands each one over as a [uint8_t]. *)
Definition delivered (size : Z) (w : World) : list Z :=
  match _communications_mode w with
  | TFMINI_PLUS_UART => firstn (Z.to_nat size) (rx (_stream w))
  | TFMINI_PLUS_I2C => map uint8 (firstn (Z.to_nat size) (wire_answer (Wire w)))
  end.

(** A fresh array of [size] bytes after [receive] has filled it. *)
Definition filled (size : Z) (w : World) : list Z :=
  delivered size w ++ skipn (length (delivered size w)) (uninitialised size).

(** What [receive] returns on a fresh array of [size] bytes: all [size]
    bytes came and the filled array is accepted. *)
Definition received (size : Z) (w : World) : bool :=
  (Z.of_nat (length (delivered size w)) =? size) && accepts (filled size w) size.

(** The world after [receive(output, size)]. *)
Definition after_receive (size : Z) (w : World) : World :=
  match _communications_mode w with
  | TFMINI_PLUS_UART => after_readBytes size w
  | TFMINI_PLUS_I2C => after_request size w
  end.

(** The world after a command of [size] bytes, the wait and the reception
    of [expected] bytes. *)
Definition after_exchange (packet : list Z) (size expected : Z) (w : World) : World :=
  after_receive expected (after_wait (after_send packet size w)).

(** The three fields of a reading are within [uint16_t]. *)
Definition sixteen_bit (data : tfminiplus_data_t) : Prop :=
  0 <= distance data < 65536
  /\ 0 <= strength data < 65536
  /\ 0 <= temperature data < 65536.

(** A call of [Wire] that names a device names the device at [address]. *)
Definition addressed_to (address : Z) (e : Event) : Prop :=
  match e with
  | EvWireBegin a => a = address
  | EvWireRequest a _ => a = address
  | _ => True
  end.

(** Between [w] and [w'] the mode and the address are kept, and the
    transport that the mode does not select is left as it was; in bus mode
    the calls made are to the device at the stored address. *)
Definition kept (w w' : World) : Prop :=
  _communications_mode w' = _communications_mode w
  /\ _address w' = _address w
  /\ match _communications_mode w with
     | TFMINI_PLUS_UART => Wire w' = Wire w
     | TFMINI_PLUS_I2C =>
         _stream w' = _stream w
         /\ exists evs, trace w' = trace w ++ evs
                        /\ Forall (addressed_to (_address w)) evs
     end.

(** [w'] is what operation [op] leaves when its exchanges led from [w] to a
    world that kept mode, address and the other transport: that world, or
    that world with the one field the operation assigns. *)
Definition left_by (op : Operation) (w w' : World) : Prop :=
  exists w1,
    kept w w1
    /\ (w' = w1
        \/ (exists address, op = OpSetI2cAddress address /\ w' = with_address address w1)
        \/ (exists mode, op = OpSetCommunicationInterface mode /\ w' = with_mode mode w1)).

(** * Theorems *)

(** ** Checksum *)

Lemma checksum_loop_sum (data : list Z) :
  forall i bound acc,
    i <= bound ->
    bound - i <= Z.of_nat (length data) ->
    checksum_loop data i bound acc
    = Some (fold_left (fun a b => uint8 (a + b)) (firstn (Z.to_nat (bound - i)) data) acc).
Proof.
  induction data as [|b rest IH]; intros i bound acc Hle Hlen; simpl in *.
  - assert (bound = i) by lia. subst.
    rewrite Z.ltb_irrefl, Z.sub_diag. reflexivity.
  - destruct (i <? bound) eqn:E.
    + apply Z.ltb_lt in E.
      rewrite IH by lia.
      replace (Z.to_nat (bound - i)) with (S (Z.to_nat (bound - (i + 1)))) by lia.
      reflexivity.
    + apply Z.ltb_ge in E. assert (bound = i) by lia. subst.
      rewrite Z.sub_diag. reflexivity.
Qed.

(** What [calculate_checksum] returns on an array that is long enough: the
    sum of the first [size - 1] bytes. *)
Lemma calculate_checksum_sum (data : list Z) (size : Z) :
  1 <= size <= 256 ->
  size - 1 <= Z.of_nat (length data) ->
  calculate_checksum data size = Some (byte_sum (firstn (Z.to_nat (size - 1)) data)).
Proof.
  intros Hs Hlen. unfold calculate_checksum, to_size_t, size_t_modulus.
  rewrite Z.mod_small by (change (2 ^ 16) with 65536; lia).
  rewrite checksum_loop_sum by lia.
  rewrite Z.sub_0_r. reflexivity.
Qed.

(** With a count of 0 the loop bound wraps around to [SIZE_MAX]: the loop
    leaves any array of fewer bytes. *)
Lemma calculate_checksum_zero_count (data : list Z) :
  Z.of_nat (length data) < size_t_modulus - 1 ->
  calculate_checksum data 0 = None.
Proof.
  unfold calculate_checksum, to_size_t, size_t_modulus.
  change ((0 - 1) mod 2 ^ 16) with 65535. change (2 ^ 16 - 1) with 65535.
  generalize 0 at 2 as acc. 
  assert (H : forall l i acc, 0 <= i -> i + Z.of_nat (length l) < 65535 ->
                              checksum_loop l i 65535 acc = None).
  { induction l as [|b rest IH]; intros i acc Hi Hlen; simpl in *.
    - destruct (i <? 65535) eqn:E; [reflexivity | apply Z.ltb_ge in E; lia].
    - destruct (i <? 65535) eqn:E; [apply IH; lia | apply Z.ltb_ge in E; lia]. }
  intros acc Hlen. apply H; lia.
Qed.

(** ** Arrays *)

Lemma length_upd (data : list Z) : forall n v, length (upd data n v) = length data.
Proof.
  induction data as [|b rest IH]; intros [|n] v; simpl; auto.
Qed.

Lemma upd_split (data : list Z) :
  forall n v, (n < length data)%nat ->
              upd data n v = firstn n data ++ v :: skipn (S n) data.
Proof.
  induction data as [|b rest IH]; intros [|n] v H; simpl in *; try lia.
  - reflexivity.
  - rewrite IH by lia. reflexivity.
Qed.

Lemma store_in_range (data : list Z) (i v : Z) :
  0 <= i < Z.of_nat (length data) ->
  store data i v = Some (upd data (Z.to_nat i) v).
Proof.
  intros H. unfold store.
  destruct (0 <=? i) eqn:E1; [|apply Z.leb_gt in E1; lia].
  destruct (i <? Z.of_nat (length data)) eqn:E2; [|apply Z.ltb_ge in E2; lia].
  reflexivity.
Qed.

Lemma load_in_range (data : list Z) (i : Z) :
  0 <= i < Z.of_nat (length data) ->
  load data i = Some (nth (Z.to_nat i) data 0).
Proof.
  intros H. unfold load.
  destruct (i <? 0) eqn:E; [apply Z.ltb_lt in E; lia|].
  apply nth_error_nth'. lia.
Qed.

Lemma write_at_in_range (buffer : list Z) (offset : Z) (bytes : list Z) :
  0 <= offset ->
  offset + Z.of_nat (length bytes) <= Z.of_nat (length buffer) ->
  exists buffer',
    write_at buffer offset bytes = Some buffer'
    /\ length buffer' = length buffer
    /\ buffer' = firstn (Z.to_nat offset) buffer ++ bytes
                 ++ skipn (Z.to_nat offset + length bytes) buffer.
Proof.
  intros H0 H. unfold write_at.
  destruct (0 <=? offset) eqn:E1; [|apply Z.leb_gt in E1; lia].
  destruct (offset + Z.of_nat (length bytes) <=? Z.of_nat (length buffer)) eqn:E2;
    [|apply Z.leb_gt in E2; lia].
  eexists; split; [reflexivity|]. split; [|reflexivity].
  rewrite !length_app, length_firstn, length_skipn. lia.
Qed.

Lemma compare_checksum_sum (data : list Z) (size : Z) :
  2 <= size <= 256 ->
  size <= Z.of_nat (length data) ->
  compare_checksum data size
  = Some (byte_sum (firstn (Z.to_nat (size - 2)) data) =? nth (Z.to_nat (size - 1)) data 0).
Proof.
  intros Hs Hlen. unfold compare_checksum, uint8.
  rewrite Z.mod_small by lia.
  rewrite calculate_checksum_sum by lia.
  rewrite load_in_range by lia.
  replace (size - 1 - 1) with (size - 2) by lia. reflexivity.
Qed.

(** ** Runs *)

Lemma runs_ret {A} (a : A) (w : World) (Q : A -> World -> Prop) :
  Q a w -> runs (ret a) w Q.
Proof. intros H. exists a, w. split; [reflexivity | exact H]. Qed.

Lemma runs_bind {A B} (c : M A) (k : A -> M B) (w : World) (Q : B -> World -> Prop) :
  runs c w (fun a w1 => runs (k a) w1 Q) -> runs (bind c k) w Q.
Proof.
  intros (a & w1 & Hc & (b & w2 & Hk & HQ)).
  exists b, w2. split; [|exact HQ]. unfold bind. rewrite Hc. exact Hk.
Qed.

Lemma runs_mono {A} (c : M A) (w : World) (P Q : A -> World -> Prop) :
  runs c w P -> (forall a w', P a w' -> Q a w') -> runs c w Q.
Proof.
  intros (a & w' & Hc & HP) H. exists a, w'. split; [exact Hc | apply H, HP].
Qed.

Lemma runs_lift {A} (o : option A) (a : A) (w : World) (Q : A -> World -> Prop) :
  o = Some a -> Q a w -> runs (lift o) w Q.
Proof. intros -> H. exists a, w. split; [reflexivity | exact H]. Qed.

Lemma runs_gets {A} (f : World -> A) (w : World) (Q : A -> World -> Prop) :
  Q (f w) w -> runs (gets f) w Q.
Proof. intros H. exists (f w), w. split; [reflexivity | exact H]. Qed.

Lemma runs_modify (f : World -> World) (w : World) (Q : unit -> World -> Prop) :
  Q tt (f w) -> runs (modify f) w Q.
Proof. intros H. exists tt, (f w). split; [reflexivity | exact H]. Qed.

Lemma emits_nothing (w : World) : emits w [] w.
Proof.
  repeat split. exists []. rewrite app_nil_r. split; reflexivity.
Qed.

Lemma emits_then (w w1 w2 : World) (k1 k2 : list Kind) :
  emits w k1 w1 -> emits w1 k2 w2 -> emits w (k1 ++ k2) w2.
Proof.
  intros (Hm1 & Ha1 & e1 & Ht1 & Hk1) (Hm2 & Ha2 & e2 & Ht2 & Hk2).
  repeat split; try congruence.
  exists (e1 ++ e2). rewrite Ht2, Ht1, app_assoc, map_app, Hk1, Hk2.
  split; reflexivity.
Qed.

Lemma emits_log (e : Event) (w : World) : emits w [kind e] (log e w).
Proof.
  repeat split. exists [e]. split; reflexivity.
Qed.

Lemma emits_with_stream (s : Stream) (w : World) : emits w [] (with_stream s w).
Proof.
  repeat split. exists []. simpl. rewrite app_nil_r. split; reflexivity.
Qed.

Lemma emits_with_wire (t : TwoWire) (w : World) : emits w [] (with_wire t w).
Proof.
  repeat split. exists []. simpl. rewrite app_nil_r. split; reflexivity.
Qed.

(** A step of a run: the first computation by a lemma about it, the rest
    under what the lemma says. *)
Ltac run_step lem :=
  eapply runs_bind; eapply runs_mono; [ eapply lem | cbv beta ].

(** ** Command packets *)

Lemma firstn_upd (data : list Z) :
  forall n v, (n < length data)%nat -> firstn (S n) (upd data n v) = firstn n data ++ [v].
Proof.
  induction data as [|b rest IH]; intros [|n] v H; simpl in *; try lia.
  - reflexivity.
  - f_equal. apply IH. lia.
Qed.

Lemma skipn_upd (data : list Z) :
  forall n m v, (n < m)%nat -> skipn m (upd data n v) = skipn m data.
Proof.
  induction data as [|b rest IH]; intros [|n] [|m] v H; simpl in *; try lia; auto.
  apply IH. lia.
Qed.

Lemma firstn_skipn_cons (args : list Z) :
  forall i n, (i < length args)%nat ->
    firstn (S n) (skipn i args) = nth i args 0 :: firstn n (skipn (S i) args).
Proof.
  induction args as [|a rest IH]; intros [|i] n H; simpl in *; try lia.
  - reflexivity.
  - apply IH. lia.
Qed.

(** The argument loop copies [n] bytes of [arguments] to the cells after the
    command code and touches no other cell. *)
Lemma copy_arguments_copies (n : nat) :
  forall (packet arguments : list Z) (i : nat),
    (i + n <= length arguments)%nat ->
    (3 + i + n <= length packet)%nat ->
    copy_arguments packet arguments (Z.of_nat i) n
    = Some (firstn (3 + i) packet ++ firstn n (skipn i arguments)
            ++ skipn (3 + i + n) packet).
Proof.
  induction n as [|n IH]; intros packet arguments i Ha Hp.
  - cbn [copy_arguments]. rewrite Nat.add_0_r, firstn_0. cbn [app].
    rewrite firstn_skipn. reflexivity.
  - cbn [copy_arguments].
    rewrite load_in_range by lia.
    change (TFMINI_PLUS_MINIMUM_PACKET_SIZE - 1 + Z.of_nat i) with (4 - 1 + Z.of_nat i).
    rewrite store_in_range by lia.
    replace (Z.of_nat i + 1) with (Z.of_nat (S i)) by lia.
    rewrite IH by (rewrite ?length_upd; lia).
    replace (Z.to_nat (4 - 1 + Z.of_nat i)) with (3 + i)%nat by lia.
    rewrite Nat2Z.id.
    replace (3 + S i)%nat with (S (3 + i)) by lia.
    rewrite firstn_upd by lia.
    rewrite skipn_upd by lia.
    rewrite (firstn_skipn_cons arguments i n) by lia.
    rewrite <- app_assoc. cbn [app].
    replace (S (3 + i) + n)%nat with (3 + i + S n)%nat by lia.
    reflexivity.
Qed.

(** The packet of [send_command], whatever the local array held before: the
    marker, the size, the command code, the arguments, and as last byte the
    sum of the bytes before the last argument byte (for a packet without
    arguments: before the command code). *)
Lemma command_packet_from_layout (packet : list Z) (command : Z) (arguments : list Z)
  (size : Z) :
  4 <= size <= 255 ->
  Z.of_nat (length packet) = size ->
  size - 4 <= Z.of_nat (length arguments) ->
  let body := [TFMINI_PLUS_FRAME_START; size; command]
              ++ firstn (Z.to_nat (size - 4)) arguments in
  command_packet_from packet command arguments size
  = Some (body ++ [byte_sum (firstn (Z.to_nat (size - 2)) body)]).
Proof.
  intros Hs Hlen Hargs body.
  destruct packet as [|p0 [|p1 [|p2 [|p3 rest]]]]; cbn [length] in Hlen; try lia.
  unfold command_packet_from.
  rewrite store_in_range by (cbn [length]; lia).
  change (Z.to_nat 0) with 0%nat. cbn [upd].
  rewrite store_in_range by (cbn [length]; lia).
  change (Z.to_nat 1) with 1%nat. cbn [upd].
  rewrite store_in_range by (cbn [length]; lia).
  change (Z.to_nat 2) with 2%nat. cbn [upd].
  assert (Hcopy :
    (if size >? TFMINI_PLUS_MINIMUM_PACKET_SIZE
     then copy_arguments (TFMINI_PLUS_FRAME_START :: size :: command :: p3 :: rest)
            arguments 0 (Z.to_nat (size - TFMINI_PLUS_MINIMUM_PACKET_SIZE))
     else Some (TFMINI_PLUS_FRAME_START :: size :: command :: p3 :: rest))
    = Some (body ++ skipn (Z.to_nat (size - 4)) (p3 :: rest))).
  { change TFMINI_PLUS_MINIMUM_PACKET_SIZE with 4.
    destruct (size >? 4) eqn:E.
    - change 0 with (Z.of_nat 0).
      rewrite copy_arguments_copies by (simpl length; lia).
      unfold body. rewrite <- app_assoc. reflexivity.
    - assert (Hz : Z.to_nat (size - 4) = 0%nat) by lia.
      unfold body. rewrite Hz. reflexivity. }
  rewrite Hcopy. clear Hcopy.
  assert (Hbody : Z.of_nat (length body) = size - 1).
  { unfold body. rewrite length_app, length_firstn. simpl length. lia. }
  assert (Htail : exists last, skipn (Z.to_nat (size - 4)) (p3 :: rest) = [last]).
  { assert (Hl : length (skipn (Z.to_nat (size - 4)) (p3 :: rest)) = 1%nat)
      by (rewrite length_skipn; simpl length; lia).
    destruct (skipn (Z.to_nat (size - 4)) (p3 :: rest)) as [|x [|y l]];
      simpl in Hl; try lia. exists x. reflexivity. }
  destruct Htail as [last ->]. clearbody body.
  unfold uint8. rewrite Z.mod_small by lia.
  rewrite calculate_checksum_sum by (rewrite ?length_app; simpl length; lia).
  replace (size - 1 - 1) with (size - 2) by lia.
  rewrite firstn_app.
  replace (Z.to_nat (size - 2) - length body)%nat with 0%nat by lia.
  rewrite firstn_0, app_nil_r.
  rewrite store_in_range by (rewrite length_app; simpl length; lia).
  rewrite upd_split by (rewrite length_app; simpl length; lia).
  replace (Z.to_nat (size - 1)) with (length body) by lia.
  rewrite firstn_app, firstn_all, Nat.sub_diag, firstn_0, app_nil_r.
  replace (S (length body)) with (length (body ++ [last]))
    by (rewrite length_app; simpl; lia).
  rewrite skipn_all. reflexivity.
Qed.

Lemma length_uninitialised (size : Z) :
  0 <= size -> Z.of_nat (length (uninitialised size)) = size.
Proof.
  intros H. unfold uninitialised. rewrite repeat_length. lia.
Qed.

Lemma command_packet_layout (command : Z) (arguments : list Z) (size : Z) :
  4 <= size <= 255 ->
  size - 4 <= Z.of_nat (length arguments) ->
  let body := [TFMINI_PLUS_FRAME_START; size; command]
              ++ firstn (Z.to_nat (size - 4)) arguments in
  command_packet command arguments size
  = Some (body ++ [byte_sum (firstn (Z.to_nat (size - 2)) body)]).
Proof.
  intros Hs Hargs. apply command_packet_from_layout; auto.
  apply length_uninitialised. lia.
Qed.

Lemma command_packet_total (command : Z) (arguments : list Z) (size : Z) :
  4 <= size <= 255 ->
  size - 4 <= Z.of_nat (length arguments) ->
  exists packet,
    command_packet command arguments size = Some packet
    /\ Z.of_nat (length packet) = size.
Proof.
  intros Hs Hargs. eexists. split.
  - apply command_packet_layout; assumption.
  - rewrite !length_app, length_firstn. simpl length. lia.
Qed.

(** ** Sending and receiving: every call returns, and what it logs *)

Ltac run_gets := eapply runs_bind; apply runs_gets; cbv beta.

Lemma emits_mode (w w' : World) (ks : list Kind) :
  emits w ks w' -> _communications_mode w' = _communications_mode w.
Proof. intros (H & _). exact H. Qed.

Lemma emits_address (w w' : World) (ks : list Kind) :
  emits w ks w' -> _address w' = _address w.
Proof. intros (_ & H & _). exact H. Qed.

Lemma stream_write_runs (input : list Z) (size : Z) (w : World) :
  size <= Z.of_nat (length input) ->
  runs (stream_write input size) w (fun _ w' => emits w [KSend] w').
Proof.
  intros H. unfold runs, stream_write.
  rewrite (proj2 (Z.leb_le _ _) H).
  eexists _, _. split; [reflexivity|]. apply (emits_log (EvStreamWrite _ _)).
Qed.

Lemma wire_write_runs (input : list Z) (size : Z) (w : World) :
  size <= Z.of_nat (length input) ->
  runs (wire_write input size) w (fun _ w' => emits w [KSend] w').
Proof.
  intros H. unfold runs, wire_write.
  rewrite (proj2 (Z.leb_le _ _) H).
  eexists _, _. split; [reflexivity|]. apply (emits_log (EvWireWrite _ _)).
Qed.

Lemma send_uart_runs (input : list Z) (size : Z) (w : World) :
  size <= Z.of_nat (length input) ->
  runs (send_uart input size) w (fun _ w' => emits w [KSend; KOther] w').
Proof.
  intros H. unfold send_uart.
  run_step stream_write_runs; [exact H|]. intros written w1 H1.
  eapply runs_bind. apply runs_modify. apply runs_ret.
  apply (emits_then _ _ _ [KSend] [KOther] H1). apply (emits_log EvStreamFlush).
Qed.

Lemma send_i2c_runs (input : list Z) (size : Z) (w : World) :
  size <= Z.of_nat (length input) ->
  runs (send_i2c input size) w (fun _ w' => emits w [KOther; KSend; KSend] w').
Proof.
  intros H. unfold send_i2c.
  run_gets.
  eapply runs_bind. apply runs_modify.
  run_step wire_write_runs; [exact H|]. intros written w1 H1.
  eapply runs_bind. exists (wire_end_status (Wire w1)), (log (EvWireEnd (wire_end_status (Wire w1))) w1).
  split; [reflexivity|]. apply runs_ret.
  apply (emits_then _ _ _ [KOther] [KSend; KSend] (emits_log (EvWireBegin (_address w)) w)).
  apply (emits_then _ _ _ [KSend] [KSend] H1). apply (emits_log (EvWireEnd _)).
Qed.

Lemma send_runs (input : list Z) (size : Z) (w : World) :
  size <= Z.of_nat (length input) ->
  runs (send input size) w (fun _ w' => emits w (send_kinds (_communications_mode w)) w').
Proof.
  intros H. unfold send. run_gets.
  destruct (_communications_mode w) eqn:Em; cbn [mode_eqb communication_mode_value Z.eqb].
  - run_step send_uart_runs; [exact H|]. intros r w1 H1.
    run_gets. rewrite (emits_mode _ _ _ H1), Em.
    cbn [mode_eqb communication_mode_value Z.eqb].
    eapply runs_bind. apply runs_ret. apply runs_ret. exact H1.
  - eapply runs_bind. apply runs_ret. run_gets. rewrite Em.
    cbn [mode_eqb communication_mode_value Z.eqb].
    run_step send_i2c_runs; [exact H|]. intros r w1 H1.
    apply runs_ret. exact H1.
Qed.

Lemma send_command_runs (command : Z) (arguments : list Z) (size : Z) (w : World) :
  4 <= size <= 255 ->
  size - 4 <= Z.of_nat (length arguments) ->
  runs (send_command command arguments size) w
    (fun _ w' => emits w (send_kinds (_communications_mode w)) w').
Proof.
  intros Hs Ha. unfold send_command.
  destruct (command_packet_total command arguments size Hs Ha) as (packet & Hp & Hl).
  eapply runs_bind. eapply runs_lift; [exact Hp|].
  apply send_runs. lia.
Qed.

Lemma send_command0_runs (command : Z) (w : World) :
  runs (send_command0 command) w
    (fun _ w' => emits w (send_kinds (_communications_mode w)) w').
Proof.
  apply send_command_runs; change TFMINI_PLUS_MINIMUM_PACKET_SIZE with 4;
    cbn [length]; lia.
Qed.

Lemma do_i2c_wait_runs (w : World) :
  runs do_i2c_wait w (fun _ w' => emits w (wait_kinds (_communications_mode w)) w').
Proof.
  unfold do_i2c_wait. run_gets.
  destruct (_communications_mode w); cbn [mode_eqb communication_mode_value Z.eqb wait_kinds].
  - apply runs_ret. apply emits_nothing.
  - apply runs_modify. apply (emits_log (EvDelay settle_delay)).
Qed.

(** The loop of [receive_i2c] moves the first [n] bytes that [requestFrom]
    left in the receive buffer, or all of them when there are fewer, to
    [output] from index [k] on. *)
Lemma receive_i2c_loop_fills (n : nat) :
  forall (output : list Z) (k : nat) (w : World),
    (k + n <= length output)%nat ->
    let got := firstn n (wire_rx (Wire w)) in
    receive_i2c_loop n output (Z.of_nat k) w
    = Some ((Z.of_nat (k + length got),
             firstn k output ++ map uint8 got ++ skipn (k + length got) output),
            with_wire (mkTwoWire (wire_tx_room (Wire w)) (wire_end_status (Wire w))
                         (wire_answer (Wire w)) (skipn n (wire_rx (Wire w)))) w).
Proof.
  induction n as [|n IH]; intros output k [m a s [room st ans buf] tr] Hk got.
  - subst got. cbn [receive_i2c_loop firstn length map app skipn Wire wire_rx].
    rewrite Nat.add_0_r, firstn_skipn. reflexivity.
  - destruct buf as [|c rest].
    + reflexivity || (subst got; cbn; rewrite Nat.add_0_r, firstn_skipn; reflexivity).
    + subst got. cbn [receive_i2c_loop].
      unfold bind at 1. cbn [wire_available gets Wire wire_rx length].
      replace (Z.of_nat (S (length rest)) =? 0) with false by (symmetry; apply Z.eqb_neq; lia).
      unfold bind at 1. cbn [wire_read Wire wire_rx wire_tx_room wire_end_status wire_answer].
      unfold bind at 1. unfold lift at 1.
      rewrite store_in_range by lia.
      replace (Z.of_nat k + 1) with (Z.of_nat (S k)) by lia.
      rewrite IH by (rewrite length_upd; lia).
      rewrite Nat2Z.id, firstn_upd, skipn_upd by lia.
      cbn [with_wire Wire wire_rx wire_tx_room wire_end_status wire_answer
           _communications_mode _address _stream trace firstn skipn length map].
      rewrite <- app_assoc. cbn [app].
      replace (S k + length (firstn n rest))%nat
        with (k + S (length (firstn n rest)))%nat by lia.
      reflexivity.
Qed.

(** Unfolding equations of [bind]. *)
Lemma bind_some {A B} (c : M A) (k : A -> M B) (w w' : World) (a : A) :
  c w = Some (a, w') -> bind c k w = k a w'.
Proof. intros H. unfold bind. rewrite H. reflexivity. Qed.

Lemma bind_gets {A B} (f : World -> A) (k : A -> M B) (w : World) :
  bind (gets f) k w = k (f w) w.
Proof. reflexivity. Qed.

Lemma bind_ret {A B} (a : A) (k : A -> M B) (w : World) :
  bind (ret a) k w = k a w.
Proof. reflexivity. Qed.

Lemma bind_modify {B} (f : World -> World) (k : unit -> M B) (w : World) :
  bind (modify f) k w = k tt (f w).
Proof. reflexivity. Qed.

Lemma bind_lift {A B} (o : option A) (a : A) (k : A -> M B) (w : World) :
  o = Some a -> bind (lift o) k w = k a w.
Proof. intros ->. reflexivity. Qed.

Lemma bind_bind {A B C} (c : M A) (k : A -> M B) (k' : B -> M C) (w : World) :
  bind (bind c k) k' w = bind c (fun a => bind (k a) k') w.
Proof.
  unfold bind. destruct (c w) as [[a w1]|]; reflexivity.
Qed.

Lemma receive_i2c_fills (output : list Z) (size : Z) (w : World) :
  0 <= size ->
  size <= Z.of_nat (length output) ->
  let got := firstn (Z.to_nat size) (wire_answer (Wire w)) in
  receive_i2c output size w
  = Some ((Z.of_nat (length got) =? size,
           map uint8 got ++ skipn (length got) output),
          after_request size w).
Proof.
  intros Hs Hl got. unfold receive_i2c.
  rewrite bind_gets.
  erewrite bind_some by reflexivity.
  change 0 with (Z.of_nat 0).
  erewrite bind_some by (apply receive_i2c_loop_fills; lia).
  destruct w as [m a s [room st ans buf] tr].
  cbn [Wire wire_rx wire_tx_room wire_end_status wire_answer with_wire log
       _communications_mode _address _stream trace ret Nat.add firstn app].
  cbn [Wire wire_answer] in got. fold got.
  assert (Hgot : (length got <= Z.to_nat size)%nat)
    by (subst got; rewrite length_firstn; lia).
  rewrite (@firstn_all2 _ (Z.to_nat size) got) by lia.
  rewrite (@skipn_all2 _ (Z.to_nat size) got) by lia.
  reflexivity.
Qed.

(** [receive] on the bus: the array receives the device's answer, cut at
    [size] bytes, and the verdict is that all [size] bytes came and that
    the filled array is accepted. *)
Lemma receive_i2c_verdict (output : list Z) (size : Z) (w : World) :
  _communications_mode w = TFMINI_PLUS_I2C ->
  2 <= size <= 255 ->
  Z.of_nat (length output) = size ->
  let got := firstn (Z.to_nat size) (wire_answer (Wire w)) in
  let output' := map uint8 got ++ skipn (length got) output in
  receive output size w
  = Some (((Z.of_nat (length got) =? size) && accepts output' size, output'),
          after_request size w).
Proof.
  intros Hm Hs Hl got output'.
  assert (Hgot : (length got <= Z.to_nat size)%nat)
    by (subst got; rewrite length_firstn; lia).
  assert (Hl' : Z.of_nat (length output') = size).
  { subst output'. rewrite length_app, length_map, length_skipn. lia. }
  unfold receive.
  rewrite bind_gets, Hm.
  change (mode_eqb TFMINI_PLUS_I2C TFMINI_PLUS_UART) with false. cbv iota.
  rewrite bind_ret, bind_gets, Hm.
  change (mode_eqb TFMINI_PLUS_I2C TFMINI_PLUS_I2C) with true. cbv iota.
  erewrite bind_some by (apply receive_i2c_fills; lia).
  fold got. fold output'.
  destruct (Z.of_nat (length got) =? size) eqn:Efull; cbn [andb].
  - erewrite bind_lift
      by (apply load_in_range; change TFMINI_PLUS_PACKET_POS_LENGTH with 1; lia).
    erewrite bind_lift by (apply compare_checksum_sum; lia).
    reflexivity.
  - reflexivity.
Qed.

Lemma emits_after_request (size : Z) (w : World) : emits w [KRead] (after_request size w).
Proof.
  repeat split. exists [EvWireRequest (_address w) size]. split; reflexivity.
Qed.

Lemma emits_after_readBytes (length : Z) (w : World) :
  emits w [KRead] (after_readBytes length w).
Proof.
  repeat split. eexists [_]. split; reflexivity.
Qed.

Lemma stream_readBytes_fills (buffer : list Z) (offset length : Z) (w : World) :
  0 <= offset ->
  0 <= length ->
  offset + length <= Z.of_nat (List.length buffer) ->
  let got := firstn (Z.to_nat length) (rx (_stream w)) in
  stream_readBytes buffer offset length w
  = Some ((Z.of_nat (List.length got),
           firstn (Z.to_nat offset) buffer ++ got
           ++ skipn (Z.to_nat offset + List.length got) buffer),
          after_readBytes length w).
Proof.
  intros Ho Hn Hl got.
  assert (Hgot : (List.length got <= Z.to_nat length)%nat)
    by (subst got; rewrite length_firstn; lia).
  unfold stream_readBytes. fold got.
  destruct (write_at_in_range buffer offset got) as (b' & Hw & _ & ->); [lia | lia |].
  rewrite Hw. reflexivity.
Qed.

(** [receive] on the stream: the array receives the bytes that are waiting,
    up to [size] of them. *)
Lemma receive_uart_verdict (output : list Z) (size : Z) (w : World) :
  _communications_mode w = TFMINI_PLUS_UART ->
  2 <= size <= 255 ->
  Z.of_nat (length output) = size ->
  let got := firstn (Z.to_nat size) (rx (_stream w)) in
  let output' := got ++ skipn (length got) output in
  receive output size w
  = Some (((Z.of_nat (length got) =? size) && accepts output' size, output'),
          after_readBytes size w).
Proof.
  intros Hm Hs Hl got output'.
  assert (Hgot : (length got <= Z.to_nat size)%nat)
    by (subst got; rewrite length_firstn; lia).
  assert (Hl' : Z.of_nat (length output') = size).
  { subst output'. rewrite length_app, length_skipn. lia. }
  unfold receive.
  rewrite bind_gets, Hm.
  change (mode_eqb TFMINI_PLUS_UART TFMINI_PLUS_UART) with true. cbv iota.
  unfold receive_uart. rewrite bind_bind.
  erewrite bind_some by (apply stream_readBytes_fills; lia).
  change (Z.to_nat 0) with 0%nat. cbn [firstn app Nat.add].
  fold got. fold output'.
  rewrite bind_ret, bind_gets.
  replace (_communications_mode (after_readBytes size w)) with TFMINI_PLUS_UART
    by (symmetry; exact Hm).
  change (mode_eqb TFMINI_PLUS_UART TFMINI_PLUS_I2C) with false. cbv iota.
  rewrite bind_ret.
  unfold uint8. rewrite Z.mod_small by lia.
  destruct (Z.of_nat (length got) =? size) eqn:Efull; cbn [andb].
  - erewrite bind_lift
      by (apply load_in_range; change TFMINI_PLUS_PACKET_POS_LENGTH with 1; lia).
    erewrite bind_lift by (apply compare_checksum_sum; lia).
    reflexivity.
  - reflexivity.
Qed.

(** [receive] returns in either mode, with the array at its size and one
    read logged. *)
Lemma receive_runs (output : list Z) (size : Z) (w : World) :
  2 <= size <= 255 ->
  Z.of_nat (length output) = size ->
  runs (receive output size) w
    (fun r w' => Z.of_nat (length (snd r)) = size /\ emits w [KRead] w').
Proof.
  intros Hs Hl. destruct (_communications_mode w) eqn:Hm.
  - eexists _, _. split; [apply receive_uart_verdict; assumption|].
    split; [|apply emits_after_readBytes].
    cbn [snd]. rewrite length_app, length_skipn.
    assert (length (firstn (Z.to_nat size) (rx (_stream w))) <= Z.to_nat size)%nat
      by (rewrite length_firstn; lia). lia.
  - eexists _, _. split; [apply receive_i2c_verdict; assumption|].
    split; [|apply emits_after_request].
    cbn [snd]. rewrite length_app, length_map, length_skipn.
    assert (length (firstn (Z.to_nat size) (wire_answer (Wire w))) <= Z.to_nat size)%nat
      by (rewrite length_firstn; lia). lia.
Qed.

(** ** Resynchronisation *)

Lemma stream_read_runs (w : World) :
  runs stream_read w (fun _ w' => emits w [KRead] w').
Proof.
  unfold runs, stream_read. destruct (rx (_stream w)) as [|c rest].
  - eexists _, _. split; [reflexivity|]. apply (emits_log (EvStreamRead _)).
  - eexists _, _. split; [reflexivity|].
    eapply (emits_then _ _ _ [] [KRead]); [apply emits_with_stream|].
    apply (emits_log (EvStreamRead _)).
Qed.

(** The header search returns whatever the stream holds; it only reads. *)
Lemma find_packet_start_runs (fuel : nat) :
  forall (output : list Z) (found : bool) (w : World),
    (2 <= length output)%nat ->
    runs (find_packet_start fuel output found) w
      (fun r w' => length (snd r) = length output
                   /\ exists n, emits w (repeat KRead n) w').
Proof.
  induction fuel as [|fuel IH]; intros output found w Hl.
  - apply runs_ret. split; [reflexivity|]. exists 0%nat. apply emits_nothing.
  - cbn [find_packet_start]. unfold stream_available. run_gets.
    destruct (negb (Z.of_nat (length (rx (_stream w))) =? 0) && negb found).
    + run_step stream_read_runs. intros c1 w1 H1.
      destruct (c1 =? TFMINI_PLUS_RESPONSE_FRAME_HEADER).
      * run_step stream_read_runs. intros c2 w2 H2.
        assert (H12 : emits w [KRead; KRead] w2)
          by exact (emits_then _ _ _ [KRead] [KRead] H1 H2).
        destruct (c2 =? TFMINI_PLUS_RESPONSE_FRAME_HEADER).
        -- eapply runs_bind. eapply runs_lift; [apply store_in_range; lia|].
           eapply runs_bind.
           eapply runs_lift; [apply store_in_range; rewrite length_upd; lia|].
           eapply runs_mono; [apply IH; rewrite !length_upd; lia|].
           intros r w3 (Hlen & n & Hn). split; [rewrite Hlen, !length_upd; reflexivity|].
           exists (2 + n)%nat.
           exact (emits_then _ _ _ [KRead; KRead] (repeat KRead n) H12 Hn).
        -- eapply runs_mono; [apply IH; exact Hl|].
           intros r w3 (Hlen & n & Hn). split; [exact Hlen|].
           exists (2 + n)%nat.
           exact (emits_then _ _ _ [KRead; KRead] (repeat KRead n) H12 Hn).
      * eapply runs_mono; [apply IH; exact Hl|].
        intros r w3 (Hlen & n & Hn). split; [exact Hlen|].
        exists (1 + n)%nat.
        exact (emits_then _ _ _ [KRead] (repeat KRead n) H1 Hn).
    + apply runs_ret. split; [reflexivity|]. exists 0%nat. apply emits_nothing.
Qed.

(** [uart_receive_data] returns whatever the stream holds; it only reads. *)
Lemma uart_receive_data_runs (output : list Z) (size : Z) (w : World) :
  2 <= size <= 255 ->
  Z.of_nat (length output) = size ->
  runs (uart_receive_data output size) w
    (fun r w' => Z.of_nat (length (snd r)) = size
                 /\ exists n, emits w (repeat KRead n) w').
Proof.
  intros Hs Hl. unfold uart_receive_data, stream_available. run_gets.
  run_step find_packet_start_runs; [lia|].
  intros [found output1] w1 (Hl1 & n & Hn). cbn [snd] in Hl1.
  unfold to_size_t, size_t_modulus.
  rewrite Z.mod_small by (change (2 ^ 16) with 65536; lia).
  eapply runs_bind. eexists _, _.
  split; [apply stream_readBytes_fills; lia|].
  apply runs_ret. cbn [snd]. split.
  - rewrite !length_app, length_firstn, length_skipn.
    assert (length (firstn (Z.to_nat (size - 2)) (rx (_stream w1)))
            <= Z.to_nat (size - 2))%nat by (rewrite length_firstn; lia).
    lia.
  - exists (n + 1)%nat. rewrite repeat_app.
    exact (emits_then _ _ _ _ [KRead] Hn (emits_after_readBytes _ w1)).
Qed.

(** ** Operations: every one returns, and what it logs *)

Lemma emits_logs (w w' : World) (ks : list Kind) : emits w ks w' -> logs w ks w'.
Proof. intros (_ & _ & H). exact H. Qed.

Lemma logs_same_trace (w w1 w2 : World) (ks : list Kind) :
  logs w ks w1 -> trace w2 = trace w1 -> logs w ks w2.
Proof.
  intros (evs & Ht & Hk) H. exists evs. rewrite H. split; assumption.
Qed.

Lemma logs_new_events (w w' : World) (ks : list Kind) :
  logs w ks w' -> map kind (new_events w w') = ks.
Proof.
  intros (evs & Ht & Hk). unfold new_events.
  rewrite Ht, skipn_app, skipn_all, Nat.sub_diag. simpl. exact Hk.
Qed.

(** What follows the reception in an operation: array reads inside the
    array, comparisons, and assignments to the object's fields. *)
Ltac run_rest :=
  repeat first
    [ apply runs_ret
    | apply runs_modify
    | eapply runs_bind; eapply runs_lift;
      [ apply load_in_range; cbn [snd] in *; lia | cbv beta ]
    | eapply runs_bind; apply runs_modify; cbv beta
    | match goal with
      | |- runs (if ?c then _ else _) _ _ => destruct c
      | |- runs (match ?r with (_, _) => _ end) _ _ => destruct r
      end ];
  try reflexivity.

(** An exchange: command, wait, reception, then a rest that logs nothing. *)
Lemma exchange_runs {A} (command : Z) (arguments : list Z) (size L : Z)
  (k : bool * list Z -> M A) (w : World) :
  4 <= size <= 255 ->
  size - 4 <= Z.of_nat (length arguments) ->
  2 <= L <= 255 ->
  (forall r w1, Z.of_nat (length (snd r)) = L ->
                runs (k r) w1 (fun _ w2 => trace w2 = trace w1)) ->
  runs (send_command command arguments size ;;; do_i2c_wait ;;;
        r <- receive (uninitialised L) L ;; k r) w
    (fun _ w' => logs w (exchange_kinds (_communications_mode w) 1) w').
Proof.
  intros Hs Ha HL Hk.
  run_step send_command_runs; [exact Hs | exact Ha |]. intros sent w1 H1.
  run_step do_i2c_wait_runs. intros [] w2 H2.
  rewrite (emits_mode _ _ _ H1) in H2.
  run_step receive_runs; [exact HL | apply length_uninitialised; lia |].
  intros r w3 (Hl & H3).
  eapply runs_mono; [apply Hk; exact Hl|].
  intros a w4 Ht. cbv beta in Ht.
  eapply logs_same_trace; [|exact Ht]. apply emits_logs.
  exact (emits_then _ _ _ _ _ H1 (emits_then _ _ _ _ [KRead] H2 H3)).
Qed.

Lemma set_framerate_runs (framerate : tfminiplus_framerate_t) (w : World) :
  runs (set_framerate framerate) w
    (fun _ w' => logs w (exchange_kinds (_communications_mode w) 1) w').
Proof.
  unfold set_framerate.
  apply exchange_runs;
    try (change TFMINI_PLUS_PACK_LENGTH_SET_FRAME_RATE with 6; cbn [length]; lia).
  intros r w1 Hl. change TFMINI_PLUS_PACK_LENGTH_SET_FRAME_RATE with 6 in Hl.
  run_rest.
Qed.

Ltac unfold_lengths :=
  unfold TFMINI_PLUS_PACK_LENGTH_SET_I2C_ADDRESS,
    TFMINI_PLUS_PACK_LENGTH_SET_BAUD_RATE,
    TFMINI_PLUS_PACK_LENGTH_SET_OUTPUT_FORMAT,
    TFMINI_PLUS_PACK_LENGTH_GET_DATA,
    TFMINI_PLUS_PACK_LENGTH_SET_IO_MODE,
    TFMINI_PLUS_PACK_LENGTH_SET_COMMUNICATION_INTERFACE,
    TFMINI_PLUS_PACK_LENGTH_ENABLE_DATA_OUTPUT,
    TFMINI_PLUS_PACK_LENGTH_VERSION_RESPONSE,
    TFMINI_PLUS_PACK_LENGTH_SAVE_SETTINGS_RESPONSE,
    TFMINI_PLUS_PACK_LENGTH_SYSTEM_RESET_RESPONSE,
    TFMINI_PLUS_PACK_LENGTH_RESTORE_FACTORY_SETTINGS_RESPONSE,
    TFMINI_PLUS_PACK_LENGTH_DATA_RESPONSE,
    TFMINI_PLUS_PACKET_POS_COMMAND,
    TFMINI_PLUS_MINIMUM_PACKET_SIZE in *.

(** An operation that is one exchange. *)
Ltac run_exchange :=
  unfold send_command0; unfold_lengths;
  apply exchange_runs; try (cbn [length]; lia);
  intros r w1 Hl; run_rest.

Lemma set_i2c_address_runs (address : Z) (w : World) :
  runs (set_i2c_address address) w
    (fun _ w' => logs w (exchange_kinds (_communications_mode w) 1) w').
Proof. unfold set_i2c_address. run_exchange. Qed.

Lemma get_version_runs (w : World) :
  runs get_version w
    (fun _ w' => logs w (exchange_kinds (_communications_mode w) 1) w').
Proof. unfold get_version. run_exchange. Qed.

Lemma set_baudrate_runs (baudrate : tfminiplus_baudrate_t) (w : World) :
  runs (set_baudrate baudrate) w
    (fun _ w' => logs w (exchange_kinds (_communications_mode w) 1) w').
Proof. unfold set_baudrate. run_exchange. Qed.

Lemma set_output_format_runs (format : tfminiplus_output_format_t) (w : World) :
  runs (set_output_format format) w
    (fun _ w' => logs w (exchange_kinds (_communications_mode w) 1) w').
Proof. unfold set_output_format. run_exchange. Qed.

Lemma enable_output_runs (output_enabled : bool) (w : World) :
  runs (enable_output output_enabled) w
    (fun _ w' => logs w (exchange_kinds (_communications_mode w) 1) w').
Proof. unfold enable_output. run_exchange. Qed.

Lemma save_settings_runs (w : World) :
  runs save_settings w
    (fun _ w' => logs w (exchange_kinds (_communications_mode w) 1) w').
Proof. unfold save_settings. run_exchange. Qed.

Lemma reset_system_runs (w : World) :
  runs reset_system w
    (fun _ w' => logs w (exchange_kinds (_communications_mode w) 1) w').
Proof. unfold reset_system. run_exchange. Qed.

Lemma factory_reset_runs (w : World) :
  runs factory_reset w
    (fun _ w' => logs w (exchange_kinds (_communications_mode w) 1) w').
Proof. unfold factory_reset. run_exchange. Qed.

(** The reception of a data packet: reads only, and a single one on the
    bus. *)
Lemma read_data_response_runs (data : tfminiplus_data_t) (w : World) :
  runs (read_data_response data) w
    (fun _ w' => exists n, emits w (repeat KRead n) w'
                           /\ (_communications_mode w = TFMINI_PLUS_I2C -> n = 1%nat)).
Proof.
  unfold read_data_response. unfold_lengths. run_gets.
  destruct (_communications_mode w) eqn:Hm;
    cbn [mode_eqb communication_mode_value Z.eqb].
  - run_step uart_receive_data_runs; [lia | apply length_uninitialised; lia |].
    intros r w1 (Hl & n & Hn).
    eapply runs_mono with (P := fun _ w2 => w2 = w1); [run_rest|].
    intros a w2 ->. exists n. split; [exact Hn | discriminate].
  - run_step receive_runs; [lia | apply length_uninitialised; lia |].
    intros r w1 (Hl & Hn).
    eapply runs_mono with (P := fun _ w2 => w2 = w1); [run_rest|].
    intros a w2 ->. exists 1%nat. split; [exact Hn | reflexivity].
Qed.

Lemma read_manual_reading_runs (data : tfminiplus_data_t) (w : World) :
  runs (read_manual_reading data) w
    (fun _ w' => exists n, logs w (exchange_kinds (_communications_mode w) n) w'
                           /\ (_communications_mode w = TFMINI_PLUS_I2C -> n = 1%nat)).
Proof.
  unfold read_manual_reading.
  run_step send_command0_runs. intros sent w1 H1.
  run_step do_i2c_wait_runs. intros [] w2 H2.
  rewrite (emits_mode _ _ _ H1) in H2.
  eapply runs_mono; [apply read_data_response_runs|].
  intros r w3 (n & H3 & Hn). exists n. split.
  - apply emits_logs.
    exact (emits_then _ _ _ _ _ H1 (emits_then _ _ _ _ _ H2 H3)).
  - intros Hm. apply Hn.
    rewrite (emits_mode _ _ _ H2), (emits_mode _ _ _ H1). exact Hm.
Qed.

(** [read_data] sends its command on the bus only, and never waits. *)
Lemma read_data_runs (data : tfminiplus_data_t) (in_mm_format : bool) (w : World) :
  runs (read_data data in_mm_format) w
    (fun _ w' =>
       exists n, logs w (op_kinds (OpReadData data in_mm_format)
                           (_communications_mode w) n) w'
                 /\ (_communications_mode w = TFMINI_PLUS_I2C -> n = 1%nat)).
Proof.
  unfold read_data. run_gets.
  destruct (_communications_mode w) eqn:Hm;
    cbn [mode_eqb communication_mode_value Z.eqb op_kinds].
  - eapply runs_bind. apply runs_ret.
    eapply runs_mono; [apply read_data_response_runs|].
    intros r w3 (n & H3 & Hn). exists n. split; [apply emits_logs; exact H3|].
    discriminate.
  - run_step send_command_runs; [unfold_lengths; lia | unfold_lengths; cbn [length]; lia |].
    intros sent w1 H1. rewrite Hm in H1.
    eapply runs_mono; [apply read_data_response_runs|].
    intros r w3 (n & H3 & Hn). exists n. split.
    + apply emits_logs. exact (emits_then _ _ _ _ _ H1 H3).
    + intros _. apply Hn. rewrite (emits_mode _ _ _ H1). exact Hm.
Qed.

Lemma set_io_mode_runs (mode : tfminiplus_mode_t) (critical_distance hysteresis : Z)
  (w : World) :
  runs (set_io_mode mode critical_distance hysteresis) w
    (fun _ w' => logs w (send_kinds (_communications_mode w)) w').
Proof.
  unfold set_io_mode.
  run_step send_command_runs; [unfold_lengths; lia | unfold_lengths; cbn [length]; lia |].
  intros sent w1 H1. apply runs_ret. apply emits_logs. exact H1.
Qed.

Lemma set_communication_interface_runs (mode : tfminiplus_communication_mode) (w : World) :
  runs (set_communication_interface mode) w
    (fun _ w' => logs w (send_kinds (_communications_mode w)
                         ++ exchange_kinds (_communications_mode w) 1) w').
Proof.
  unfold set_communication_interface.
  run_step send_command_runs; [unfold_lengths; lia | unfold_lengths; cbn [length]; lia |].
  intros sent w1 H1.
  run_step save_settings_runs. intros saved w2 (evs2 & Ht2 & Hk2).
  rewrite (emits_mode _ _ _ H1) in Hk2.
  destruct H1 as (_ & _ & evs1 & Ht1 & Hk1).
  assert (Hlogs : exists evs, trace w2 = trace w ++ evs
                              /\ map kind evs
                                 = send_kinds (_communications_mode w)
                                   ++ exchange_kinds (_communications_mode w) 1).
  { exists (evs1 ++ evs2). rewrite Ht2, Ht1, app_assoc, map_app, Hk1, Hk2.
    split; reflexivity. }
  destruct saved; [apply runs_modify | apply runs_ret]; exact Hlogs.
Qed.

(** Every operation returns, and logs the transport calls of [op_kinds]. *)
Lemma run_kinds (op : Operation) (w : World) :
  runs (run op) w
    (fun _ w' => exists n, logs w (op_kinds op (_communications_mode w) n) w'
                           /\ (_communications_mode w = TFMINI_PLUS_I2C -> n = 1%nat)).
Proof.
  assert (Hone : forall {A} (c : M A),
             runs c w (fun _ w' => logs w (exchange_kinds (_communications_mode w) 1) w') ->
             runs (c ;;; ret tt) w
               (fun _ w' => exists n : nat,
                    logs w (exchange_kinds (_communications_mode w) 1) w'
                    /\ (_communications_mode w = TFMINI_PLUS_I2C -> n = 1%nat))).
  { intros A c Hc. eapply runs_bind. eapply runs_mono; [exact Hc|].
    intros a w' H. apply runs_ret. exists 1%nat. split; [exact H | reflexivity]. }
  destruct op; cbn [run op_kinds].
  - apply Hone, set_i2c_address_runs.
  - apply Hone, get_version_runs.
  - apply Hone, set_framerate_runs.
  - apply Hone, set_baudrate_runs.
  - apply Hone, set_output_format_runs.
  - eapply runs_bind. eapply runs_mono; [apply read_manual_reading_runs|].
    intros a w' H. apply runs_ret. exact H.
  - eapply runs_bind. eapply runs_mono; [apply read_data_runs|].
    intros a w' H. apply runs_ret. exact H.
  - eapply runs_mono; [apply set_io_mode_runs|].
    intros a w' H. exists 1%nat. split; [exact H | reflexivity].
  - eapply runs_mono; [apply set_communication_interface_runs|].
    intros a w' H. exists 1%nat. split; [exact H | reflexivity].
  - apply Hone, enable_output_runs.
  - apply Hone, save_settings_runs.
  - apply Hone, reset_system_runs.
  - apply Hone, factory_reset_runs.
Qed.

Lemma no_false_start_tail (b : Z) (garbage : list Z) :
  no_false_start (b :: garbage) = true -> no_false_start garbage = true.
Proof.
  cbn [no_false_start]. intros H. apply andb_prop in H. apply H.
Qed.

Lemma loop_test_nonempty (k : nat) :
  negb (Z.of_nat (S k) =? 0) && negb false = true.
Proof.
  apply andb_true_intro. split; [|reflexivity].
  apply negb_true_iff, Z.eqb_neq. lia.
Qed.

(** Once the header is found the loop test fails. *)
Lemma find_packet_start_found (fuel : nat) (output : list Z) (w : World) :
  find_packet_start fuel output true w = Some ((true, output), w).
Proof.
  destruct fuel; [reflexivity|].
  cbn [find_packet_start]. unfold stream_available.
  rewrite bind_gets. cbn [negb]. rewrite andb_false_r. reflexivity.
Qed.

Lemma bind_ext {A B} (c : M A) (k1 k2 : A -> M B) (w : World) :
  (forall a w', c w = Some (a, w') -> k1 a w' = k2 a w') ->
  bind c k1 w = bind c k2 w.
Proof.
  intros H. unfold bind.
  destruct (c w) as [[a w']|]; [apply H; reflexivity | reflexivity].
Qed.

Lemma stream_read_shrinks (w w' : World) (c : Z) :
  stream_read w = Some (c, w') ->
  (length (rx (_stream w')) <= length (rx (_stream w)))%nat.
Proof.
  unfold stream_read. destruct (rx (_stream w)) as [|b rest] eqn:E;
    intros H; inversion H; subst; cbn [log with_stream _stream rx length].
  - rewrite E. cbn [length]. lia.
  - lia.
Qed.

(** After the header is found, the rest of the search does not depend on
    the fuel. *)
Lemma find_packet_start_found_after_stores (fuel : nat) (output : list Z) (w : World) :
  (output <- lift (store output 0 TFMINI_PLUS_RESPONSE_FRAME_HEADER) ;;
   output <- lift (store output 1 TFMINI_PLUS_RESPONSE_FRAME_HEADER) ;;
   find_packet_start fuel output true) w
  = (output <- lift (store output 0 TFMINI_PLUS_RESPONSE_FRAME_HEADER) ;;
     output <- lift (store output 1 TFMINI_PLUS_RESPONSE_FRAME_HEADER) ;;
     ret (true, output)) w.
Proof.
  unfold bind, lift.
  destruct (store output 0 TFMINI_PLUS_RESPONSE_FRAME_HEADER) as [o1|]; [|reflexivity].
  destruct (store o1 1 TFMINI_PLUS_RESPONSE_FRAME_HEADER) as [o2|]; [|reflexivity].
  apply find_packet_start_found.
Qed.

(** The fuel of the header search is never used up: with more fuel than
    waiting bytes, one more unit changes nothing. *)
Lemma find_packet_start_fuel (fuel : nat) :
  forall (output : list Z) (found : bool) (w : World),
    (length (rx (_stream w)) < fuel)%nat ->
    find_packet_start (S fuel) output found w = find_packet_start fuel output found w.
Proof.
  induction fuel as [|fuel IH]; intros output found w Hf; [lia|].
  destruct found; [rewrite !find_packet_start_found; reflexivity|].
  destruct w as [m a [waiting room] wire tr]. cbn [_stream rx] in Hf.
  destruct waiting as [|c rest]; [reflexivity|]. cbn [length] in Hf.
  set (w0 := mkWorld m a (mkStream (c :: rest) room) wire tr).
  set (w1 := log (EvStreamRead c) (with_stream (mkStream rest room) w0)).
  assert (Hr1 : stream_read w0 = Some (c, w1)) by reflexivity.
  assert (Hstep : forall n,
    find_packet_start (S n) output false w0
    = (if c =? TFMINI_PLUS_RESPONSE_FRAME_HEADER then
         c2 <- stream_read ;;
         if c2 =? TFMINI_PLUS_RESPONSE_FRAME_HEADER then
           output <- lift (store output 0 TFMINI_PLUS_RESPONSE_FRAME_HEADER) ;;
           output <- lift (store output 1 TFMINI_PLUS_RESPONSE_FRAME_HEADER) ;;
           find_packet_start n output true
         else find_packet_start n output false
       else find_packet_start n output false) w1).
  { intros n. cbn [find_packet_start]. unfold stream_available.
    rewrite bind_gets. subst w0. cbn [_stream rx length].
    rewrite loop_test_nonempty.
    erewrite bind_some by exact Hr1. reflexivity. }
  rewrite !Hstep. clear Hstep.
  assert (H1 : (length (rx (_stream w1)) < fuel)%nat) by (cbn; lia).
  destruct (c =? TFMINI_PLUS_RESPONSE_FRAME_HEADER); [|apply IH; exact H1].
  apply bind_ext. intros c2 w2 Hr2.
  destruct (c2 =? TFMINI_PLUS_RESPONSE_FRAME_HEADER).
  - rewrite !find_packet_start_found_after_stores. reflexivity.
  - apply IH. apply stream_read_shrinks in Hr2. lia.
Qed.

(** The iteration that meets the two markers. *)
Lemma find_packet_start_at_header (fuel : nat) (o0 o1 : Z) (output tail : list Z)
  (m : tfminiplus_communication_mode) (a room : Z) (wire : TwoWire) (tr : list Event) :
  find_packet_start (S fuel) (o0 :: o1 :: output) false
    (mkWorld m a
       (mkStream (TFMINI_PLUS_RESPONSE_FRAME_HEADER
                  :: TFMINI_PLUS_RESPONSE_FRAME_HEADER :: tail) room) wire tr)
  = Some ((true, TFMINI_PLUS_RESPONSE_FRAME_HEADER
                 :: TFMINI_PLUS_RESPONSE_FRAME_HEADER :: output),
          mkWorld m a (mkStream tail room) wire
            (tr ++ [EvStreamRead TFMINI_PLUS_RESPONSE_FRAME_HEADER;
                    EvStreamRead TFMINI_PLUS_RESPONSE_FRAME_HEADER])).
Proof.
  cbn [find_packet_start]. unfold stream_available.
  rewrite bind_gets. cbn [_stream rx length].
  rewrite loop_test_nonempty.
  erewrite bind_some by reflexivity. rewrite Z.eqb_refl.
  erewrite bind_some by reflexivity. rewrite Z.eqb_refl.
  erewrite bind_lift by (apply store_in_range; cbn [length]; lia).
  change (Z.to_nat 0) with 0%nat. cbn [upd].
  erewrite bind_lift by (apply store_in_range; cbn [length]; lia).
  change (Z.to_nat 1) with 1%nat. cbn [upd].
  rewrite find_packet_start_found.
  unfold log, with_stream.
  cbn [_communications_mode _address _stream Wire trace tx_room].
  rewrite <- app_assoc. reflexivity.
Qed.

(** On garbage without a false start, the header search reads the garbage
    and the two markers, one byte per [read], and reports the header. *)
Lemma find_packet_start_finds (n : nat) :
  forall (garbage : list Z),
    (length garbage <= n)%nat ->
    forall (fuel : nat) (output tail : list Z) (w : World),
      (length garbage < fuel)%nat ->
      no_false_start garbage = true ->
      rx (_stream w)
      = garbage ++ TFMINI_PLUS_RESPONSE_FRAME_HEADER
                   :: TFMINI_PLUS_RESPONSE_FRAME_HEADER :: tail ->
      (2 <= length output)%nat ->
      find_packet_start fuel output false w
      = Some ((true, TFMINI_PLUS_RESPONSE_FRAME_HEADER
                     :: TFMINI_PLUS_RESPONSE_FRAME_HEADER :: skipn 2 output),
              after_reads (garbage ++ [TFMINI_PLUS_RESPONSE_FRAME_HEADER;
                                       TFMINI_PLUS_RESPONSE_FRAME_HEADER]) tail w).
Proof.
  induction n as [|n IH]; intros garbage Hn fuel output tail w Hf Hg Hrx Hout;
    (destruct fuel as [|fuel]; [lia|]);
    destruct w as [m a [waiting room] wire tr]; cbn [_stream rx] in Hrx; subst waiting;
    destruct output as [|o0 [|o1 output]]; cbn [length] in Hout; try lia.
  - destruct garbage as [|b g]; [|cbn [length] in Hn; lia].
    apply find_packet_start_at_header.
  - destruct garbage as [|b g]; [apply find_packet_start_at_header|].
    cbn [app find_packet_start]. unfold stream_available.
    rewrite bind_gets. cbn [_stream rx length].
    rewrite loop_test_nonempty.
    erewrite bind_some by reflexivity.
    cbn [length] in Hn, Hf.
    destruct (b =? TFMINI_PLUS_RESPONSE_FRAME_HEADER) eqn:Eb.
    + destruct g as [|c g].
      { cbn [no_false_start] in Hg. rewrite Eb in Hg. discriminate. }
      cbn [app]. erewrite bind_some by reflexivity.
      assert (Ec : (c =? TFMINI_PLUS_RESPONSE_FRAME_HEADER) = false).
      { cbn [no_false_start] in Hg. rewrite Eb in Hg. cbn [negb orb] in Hg.
        apply andb_prop in Hg. destruct Hg as [Hc _].
        apply negb_true_iff in Hc. exact Hc. }
      rewrite Ec.
      cbn [length] in Hn, Hf.
      erewrite IH with (garbage := g) (tail := tail);
        [ | lia | lia
          | apply (no_false_start_tail c), (no_false_start_tail b); exact Hg
          | reflexivity | cbn [length]; lia ].
      unfold after_reads, log, with_stream.
      cbn [_communications_mode _address _stream Wire trace tx_room map app].
      rewrite <- !app_assoc. reflexivity.
    + erewrite IH with (garbage := g) (tail := tail);
        [ | lia | lia | apply (no_false_start_tail b); exact Hg
          | reflexivity | cbn [length]; lia ].
      unfold after_reads, log, with_stream.
      cbn [_communications_mode _address _stream Wire trace tx_room map app].
      rewrite <- !app_assoc. reflexivity.
Qed.

Lemma firstn_exact (body rest : list Z) (n : nat) :
  length body = n -> firstn n (body ++ rest) = body.
Proof.
  intros <-. rewrite firstn_app, firstn_all, Nat.sub_diag, firstn_0, app_nil_r.
  reflexivity.
Qed.

Lemma skipn_exact (body rest : list Z) (n : nat) :
  length body = n -> skipn n (body ++ rest) = rest.
Proof.
  intros <-. rewrite skipn_app, skipn_all, Nat.sub_diag. reflexivity.
Qed.

(** After garbage without a false start the packet is found where it is. *)
Lemma uart_receive_data_skips_garbage (garbage body rest : list Z) (size : Z) :
  2 <= size <= 255 ->
  Z.of_nat (length body) = size - 2 ->
  no_false_start garbage = true ->
  resynchronizes garbage
    (TFMINI_PLUS_RESPONSE_FRAME_HEADER :: TFMINI_PLUS_RESPONSE_FRAME_HEADER :: body)
    rest size.
Proof.
  intros Hs Hb Hg w output Hl Hrx.
  set (H59 := TFMINI_PLUS_RESPONSE_FRAME_HEADER) in *.
  assert (Hfind :
    find_packet_start (S (Z.to_nat (Z.of_nat (length (rx (_stream w)))))) output false w
    = Some ((true, H59 :: H59 :: skipn 2 output),
            after_reads (garbage ++ [H59; H59]) (body ++ rest) w)).
  { apply (find_packet_start_finds (length garbage)); try lia.
    - rewrite Nat2Z.id, Hrx, length_app. lia.
    - exact Hg.
    - rewrite Hrx. reflexivity. }
  unfold uart_receive_data, stream_available.
  rewrite bind_gets.
  erewrite bind_some by exact Hfind. cbv beta iota.
  unfold to_size_t, size_t_modulus.
  rewrite Z.mod_small by (change (2 ^ 16) with 65536; lia).
  erewrite bind_some
    by (apply stream_readBytes_fills; cbn [length]; try lia;
        rewrite length_skipn; lia).
  cbv beta iota. unfold ret.
  cbn [after_reads _stream rx].
  rewrite (firstn_exact body rest) by lia.
  assert (Hskip : skipn (Z.to_nat 2 + length body) (H59 :: H59 :: skipn 2 output) = []).
  { apply skipn_all2. cbn [length]. rewrite length_skipn. lia. }
  rewrite Hskip, app_nil_r. clear Hskip.
  change (firstn (Z.to_nat 2) (H59 :: H59 :: skipn 2 output)) with [H59; H59].
  cbn [app].
  replace (uint8 (Z.of_nat (length body) + 2) =? size) with true
    by (symmetry; unfold uint8; rewrite Z.mod_small by lia; apply Z.eqb_eq; lia).
  eexists. split; [reflexivity|]. split.
  - unfold after_readBytes, log, with_stream. cbn [_stream rx after_reads].
    apply skipn_exact. lia.
  - unfold new_events, after_readBytes, log, with_stream, after_reads.
    cbn [trace _stream rx firstn skipn].
    rewrite (firstn_exact body rest) by lia.
    rewrite <- app_assoc, skipn_app, skipn_all, Nat.sub_diag. reflexivity.
Qed.

(** C4, as amended.  For every stream that holds garbage in which every 0x59
    byte is followed by a garbage byte other than 0x59, then a data packet
    that begins with two 0x59 bytes, then any further bytes,
    [uart_receive_data] reads the garbage and the two markers one byte at a
    time, reads the rest of the packet, returns exactly that packet and
    leaves the further bytes in the stream. *)
Theorem uart_receive_data_resynchronizes (garbage body rest : list Z) (size : Z) :
  2 <= size <= 255 ->
  Z.of_nat (length body) = size - 2 ->
  no_false_start garbage = true ->
  resynchronizes garbage
    (TFMINI_PLUS_RESPONSE_FRAME_HEADER :: TFMINI_PLUS_RESPONSE_FRAME_HEADER :: body)
    rest size.
Proof.
  exact (uart_receive_data_skips_garbage garbage body rest size).
Qed.

(** A stray 0xFF, then a data packet with a correct checksum, then the
    first byte of the next packet. *)
Lemma uart_receive_data_resynchronizes_witness :
  resynchronizes [0xFF] [0x59; 0x59; 1; 0; 2; 0; 3; 0; 0xB8] [0x59] 9.
Proof.
  apply (uart_receive_data_resynchronizes [0xFF] [1; 0; 2; 0; 3; 0; 0xB8] [0x59] 9).
  - lia.
  - reflexivity.
  - reflexivity.
Defined.

(** C4, as stated, fails: after a single stray 0x59 the routine takes the
    stray byte and the packet's first marker for the header, returns the
    packet shifted by one byte and leaves its checksum byte in the stream. *)
Lemma uart_receive_data_false_start :
  ~ resynchronizes [0x59] [0x59; 0x59; 1; 0; 2; 0; 3; 0; 0xB8] [] 9.
Proof.
  intros H.
  destruct (H (stream_world [0x59; 0x59; 0x59; 1; 0; 2; 0; 3; 0; 0xB8])
              (uninitialised 9) eq_refl eq_refl) as (w' & Hrun & _).
  vm_compute in Hrun. discriminate Hrun.
Qed.

(** ** Checksum unit *)

(** C1, at a failing input.  On the array 1, 2, 3 with a count of 3 the
    checksum computation returns 3, the sum of the first two bytes, where
    the sum of the first three is 6; with a count of 0 the loop bound wraps
    around and the loop reads past the end of the array. *)
Theorem calculate_checksum_stops_one_byte_early :
  calculate_checksum [1; 2; 3] 3 = Some 3
  /\ byte_sum (firstn 3 [1; 2; 3]) = 6
  /\ calculate_checksum [1; 2; 3] 0 = None.
Proof.
  repeat split; reflexivity.
Qed.

(** ** Command packets *)

(** C2, at a failing input.  The get-version command is sent as
    5A 04 01 5E: the marker and the size are in place, but the last byte is
    the sum of the first two bytes only, where the sum of the three bytes
    before it is 5F. *)
Theorem send_command_checksum_skips_a_byte :
  command_packet TFMINI_PLUS_GET_VERSION [] 4 = Some [0x5A; 4; 1; 0x5E]
  /\ byte_sum [0x5A; 4; 1] = 0x5F
  /\ exists sent w',
      send_command0 TFMINI_PLUS_GET_VERSION (bus_world []) = Some (sent, w')
      /\ trace w' = [EvWireBegin 0x10; EvWireWrite [0x5A; 4; 1; 0x5E] 4; EvWireEnd 0].
Proof.
  split; [reflexivity|]. split; [reflexivity|].
  eexists _, _. split; reflexivity.
Qed.

(** ** Data packets on the stream *)

(** Whatever its last byte, a data packet at the head of the stream is
    decoded and reported as read. *)
Lemma read_data_response_uart_any_checksum (d2 d3 d4 d5 d6 d7 c : Z) (rest : list Z)
  (data : tfminiplus_data_t) :
  exists w',
    read_data_response data
      (stream_world (0x59 :: 0x59 :: d2 :: d3 :: d4 :: d5 :: d6 :: d7 :: c :: rest))
    = Some ((true, mkData (uint16 (d2 + Z.shiftl d3 8))
                          (uint16 (d4 + Z.shiftl d5 8))
                          (uint16 (d6 + Z.shiftl d7 8))), w')
    /\ rx (_stream w') = rest.
Proof.
  destruct (uart_receive_data_skips_garbage [] [d2; d3; d4; d5; d6; d7; c] rest 9)
    with (w := stream_world (0x59 :: 0x59 :: d2 :: d3 :: d4 :: d5 :: d6 :: d7 :: c :: rest))
         (output := uninitialised 9)
    as (w' & Hrun & Hrest & _); try reflexivity; try lia.
  exists w'. split; [|exact Hrest].
  unfold read_data_response. rewrite bind_gets.
  change (mode_eqb _ TFMINI_PLUS_UART) with true. cbv iota.
  change TFMINI_PLUS_PACK_LENGTH_DATA_RESPONSE with 9.
  erewrite bind_some by exact Hrun.
  reflexivity.
Qed.

(** C3, at a failing input.  A data packet whose last byte is FF where the
    sum of the eight bytes before it is B8 is read over the stream: the
    read reports success and returns the decoded fields. *)
Theorem read_data_uart_accepts_wrong_checksum :
  byte_sum [0x59; 0x59; 1; 0; 2; 0; 3; 0] = 0xB8
  /\ exists w',
      read_data (mkData 0 0 0) false
        (stream_world [0x59; 0x59; 1; 0; 2; 0; 3; 0; 0xFF])
      = Some ((true, mkData 1 2 3), w').
Proof.
  split; [reflexivity|]. eexists. reflexivity.
Qed.

(** ** Length enforcement on the bus *)

Lemma nth_map_uint8 (l : list Z) (n : nat) (b : Z) :
  nth_error l n = Some b -> nth n (map uint8 l) 0 = uint8 b.
Proof.
  intros H. change 0 with (uint8 0). rewrite map_nth.
  f_equal. apply nth_error_nth. exact H.
Qed.

(** In bus mode, when the device's answer has at offset 1 a byte other
    than the expected size, [receive] returns false, whatever the other
    bytes of the answer, its checksum byte included. *)
Lemma receive_false_on_length_byte (output : list Z) (size len : Z) (w : World) :
  _communications_mode w = TFMINI_PLUS_I2C ->
  2 <= size <= 255 ->
  Z.of_nat (length output) = size ->
  nth_error (wire_answer (Wire w)) 1 = Some len ->
  0 <= len < 256 ->
  len <> size ->
  exists output' w', receive output size w = Some ((false, output'), w').
Proof.
  intros Hm Hs Hl Hlen Hbyte Hne.
  rewrite (receive_i2c_verdict output size w Hm Hs Hl).
  eexists _, _. f_equal. f_equal. f_equal.
  set (got := firstn (Z.to_nat size) (wire_answer (Wire w))).
  destruct (Z.of_nat (length got) =? size) eqn:Efull; [|reflexivity].
  cbn [andb]. unfold accepts.
  assert (Hgot : nth_error got 1 = Some len).
  { subst got. rewrite nth_error_firstn.
    destruct (Nat.ltb_spec 1 (Z.to_nat size)); [exact Hlen | lia]. }
  assert (H1 : nth 1 (map uint8 got ++ skipn (length got) output) 0 = len).
  { apply Z.eqb_eq in Efull.
    rewrite app_nth1 by (rewrite length_map; lia).
    rewrite (nth_map_uint8 got 1 len Hgot).
    unfold uint8. apply Z.mod_small. lia. }
  rewrite H1.
  replace (size =? len) with false by (symmetry; apply Z.eqb_neq; lia).
  reflexivity.
Qed.

(** ** Sending over the stream *)

(** From two bytes on, [send_uart] reports failure however many bytes the
    stream wrote: it compares the packet size with the truth value of
    "everything was written". *)
Lemma send_uart_fails_from_two_bytes (input : list Z) (size : Z) (w : World) :
  2 <= size ->
  size <= Z.of_nat (length input) ->
  exists w', send_uart input size w = Some (false, w').
Proof.
  intros Hs Hl. unfold send_uart, stream_write, bind.
  rewrite (proj2 (Z.leb_le _ _) Hl).
  unfold stream_flush, modify, ret.
  assert (H1 : (uint8 1 =? size) = false) by (apply Z.eqb_neq; change (uint8 1) with 1; lia).
  assert (H0 : (uint8 0 =? size) = false) by (apply Z.eqb_neq; change (uint8 0) with 0; lia).
  destruct (Z.max 0 (Z.min size (tx_room (_stream w))) =? size);
    rewrite ?H1, ?H0; eexists; reflexivity.
Qed.

(** C6, at a failing input.  In UART mode the four bytes of a get-version
    command are handed to a stream that writes all four, and the send step
    reports failure. *)
Theorem send_uart_reports_failure_after_full_write :
  exists w',
    send [0x5A; 4; 1; 0x5E] 4 (stream_world []) = Some (false, w')
    /\ trace w' = [EvStreamWrite [0x5A; 4; 1; 0x5E] 4; EvStreamFlush].
Proof.
  eexists. split; reflexivity.
Qed.

(** ** Frame rate *)

(** The first argument byte of [set_framerate] is FF for every frame rate. *)
Lemma set_framerate_low_byte (framerate : tfminiplus_framerate_t) :
  uint8 (Z.lor (framerate_value framerate) 0xFF) = 0xFF.
Proof.
  destruct framerate; reflexivity.
Qed.

(** Whatever the length of the set-frame-rate packet, with [more] the bytes
    that follow the two-byte argument array when the length asks for more
    than two, the packet carries the length at offset 1 and FF at
    offset 3. *)
Lemma set_framerate_packet_offset_3 (framerate : tfminiplus_framerate_t) (size : Z)
  (more : list Z) :
  5 <= size <= 255 ->
  size - 6 <= Z.of_nat (length more) ->
  exists packet,
    command_packet TFMINI_PLUS_SET_FRAME_RATE
      ([uint8 (Z.lor (framerate_value framerate) 0xFF);
        uint8 (Z.shiftr (framerate_value framerate) 8)] ++ more) size
    = Some packet
    /\ nth 1 packet 0 = size
    /\ nth 3 packet 0 = 0xFF.
Proof.
  intros Hs Hm. eexists. split.
  - apply command_packet_layout; [lia | cbn [app length]; lia].
  - rewrite set_framerate_low_byte.
    destruct (Z.to_nat (size - 4)) as [|k] eqn:E; [lia|].
    cbn [app firstn nth]. split; reflexivity.
Qed.

(** C7, at a failing input.  [set_framerate] at 100 Hz in bus mode transmits
    5A 06 03 FF 00 62, with FF and not 64 at offset 3, and returns false
    when the device echoes a frame, right in length and checksum, whose
    bytes 3 and 4 are 64 00. *)
Theorem set_framerate_100_sends_FF :
  compare_checksum [0x5A; 6; 3; 0x64; 0; 0xC7] 6 = Some true
  /\ byte_sum [0x5A; 6; 3; 0x64; 0] = 0xC7
  /\ exists w',
      set_framerate TFMINI_PLUS_FRAMERATE_100HZ (bus_world [0x5A; 6; 3; 0x64; 0; 0xC7])
      = Some (false, w')
      /\ trace w' = [EvWireBegin 0x10; EvWireWrite [0x5A; 6; 3; 0xFF; 0; 0x62] 6;
                     EvWireEnd 0; EvDelay 100; EvWireRequest 0x10 6].
Proof.
  split; [reflexivity|]. split; [reflexivity|].
  eexists. split; [vm_compute; reflexivity | reflexivity].
Qed.

(** ** Device address *)

(** What [set_i2c_address] does, in terms of the reception it makes. *)
Lemma set_i2c_address_steps (address : Z) (w : World) :
  exists w1 received response w2,
    (send_command TFMINI_PLUS_SET_I2C_ADDRESS [address]
       TFMINI_PLUS_PACK_LENGTH_SET_I2C_ADDRESS ;;; do_i2c_wait) w = Some (tt, w1)
    /\ receive (uninitialised TFMINI_PLUS_PACK_LENGTH_SET_I2C_ADDRESS)
         TFMINI_PLUS_PACK_LENGTH_SET_I2C_ADDRESS w1 = Some ((received, response), w2)
    /\ _address w2 = _address w
    /\ set_i2c_address address w
       = Some (if received && (nth 3 response 0 =? address)
               then (true, with_address address w2)
               else (false, w2)).
Proof.
  destruct (send_command_runs TFMINI_PLUS_SET_I2C_ADDRESS [address]
              TFMINI_PLUS_PACK_LENGTH_SET_I2C_ADDRESS w)
    as (sent & w0 & Hsend & H0); [unfold_lengths; lia | unfold_lengths; cbn [length]; lia |].
  destruct (do_i2c_wait_runs w0) as ([] & w1 & Hwait & H1).
  destruct (receive_runs (uninitialised TFMINI_PLUS_PACK_LENGTH_SET_I2C_ADDRESS)
              TFMINI_PLUS_PACK_LENGTH_SET_I2C_ADDRESS w1)
    as ([received response] & w2 & Hrecv & Hl & H2);
    [unfold_lengths; lia | apply length_uninitialised; unfold_lengths; lia |].
  cbn [snd] in Hl.
  exists w1, received, response, w2.
  split; [erewrite bind_some by exact Hsend; exact Hwait|].
  split; [exact Hrecv|].
  split.
  { rewrite (emits_address _ _ _ H2), (emits_address _ _ _ H1).
    exact (emits_address _ _ _ H0). }
  unfold set_i2c_address.
  erewrite bind_some by exact Hsend.
  erewrite bind_some by exact Hwait.
  erewrite bind_some by exact Hrecv.
  destruct received; cbn [andb]; [|reflexivity].
  erewrite bind_lift by (apply load_in_range; unfold_lengths; lia).
  change (Z.to_nat 3) with 3%nat.
  destruct (nth 3 response 0 =? address); reflexivity.
Qed.

(** C9, at a failing input.  In bus mode [set_i2c_address(0x20)] is
    answered 5A 05 0B 20 8A: five bytes, 5 at offset 1, the requested
    address at offset 3 and, at offset 4, the low byte of the sum of the
    four bytes before it.  [set_i2c_address] returns false and the stored
    address stays 0x10, because [compare_checksum] sums the bytes at
    offsets 0 to 2 only.  Answered 5A 05 0B 20 6A, whose last byte is not
    that sum, it returns true and stores 0x20. *)
Theorem set_i2c_address_refuses_valid_acknowledgement :
  byte_sum [0x5A; 5; 0x0B; 0x20] = 0x8A
  /\ (exists w',
        set_i2c_address 0x20 (bus_world [0x5A; 5; 0x0B; 0x20; 0x8A]) = Some (false, w')
        /\ _address (bus_world [0x5A; 5; 0x0B; 0x20; 0x8A]) = 0x10
        /\ _address w' = 0x10)
  /\ byte_sum [0x5A; 5; 0x0B] = 0x6A
  /\ (exists w',
        set_i2c_address 0x20 (bus_world [0x5A; 5; 0x0B; 0x20; 0x6A]) = Some (true, w')
        /\ _address w' = 0x20).
Proof.
  split; [reflexivity|].
  split; [eexists; split; [vm_compute; reflexivity | split; reflexivity]|].
  split; [reflexivity|].
  eexists; split; [vm_compute; reflexivity | reflexivity].
Qed.

(** The device answers 5A 05 0B 20 6A, which [receive] accepts: a request
    for address 0x20 is stored, a request for address 0x21 is not. *)
Example set_i2c_address_echo_and_mismatch :
  exists w_ok w_no,
    set_i2c_address 0x20 (bus_world [0x5A; 5; 0x0B; 0x20; 0x6A]) = Some (true, w_ok)
    /\ _address w_ok = 0x20
    /\ set_i2c_address 0x21 (bus_world [0x5A; 5; 0x0B; 0x20; 0x6A]) = Some (false, w_no)
    /\ _address w_no = 0x10.
Proof.
  eexists _, _.
  split; [vm_compute; reflexivity|]. split; [reflexivity|].
  split; [vm_compute; reflexivity|]. reflexivity.
Qed.

Lemma land_7F_range (address : Z) : 0 <= Z.land address 0x7F < 0x80.
Proof.
  change 0x7F with (Z.ones 7). rewrite Z.land_ones by lia.
  apply Z.mod_pos_bound. reflexivity.
Qed.

(** C10.  [begin(address)] selects bus mode and stores [address & 0x7F],
    a value below 0x80; a later [set_i2c_address] that succeeds stores the
    address it was given as it is. *)
Theorem begin_masks_address_set_i2c_address_does_not
  (address new_address : Z) (w w2 : World) :
  let w1 := with_address (Z.land address 0x7F) (with_mode TFMINI_PLUS_I2C w) in
  begin address w = Some (tt, w1)
  /\ _communications_mode w1 = TFMINI_PLUS_I2C
  /\ _address w1 = Z.land address 0x7F
  /\ 0 <= _address w1 < 0x80
  /\ (set_i2c_address new_address w1 = Some (true, w2) -> _address w2 = new_address).
Proof.
  intros w1.
  pose proof (land_7F_range address) as Hr.
  split.
  { unfold begin. rewrite bind_modify. unfold modify, uint8.
    rewrite Z.mod_small by lia. reflexivity. }
  split; [reflexivity|]. split; [reflexivity|]. split; [exact Hr|].
  intros Hset.
  destruct (set_i2c_address_steps new_address w1)
    as (w1' & received & response & w2' & _ & _ & _ & Hsteps).
  rewrite Hsteps in Hset.
  destruct (received && (nth 3 response 0 =? new_address));
    inversion Hset; reflexivity.
Qed.

(** [begin(0x90)] stores 0x10; the device then acknowledges a change to
    0x90 and [set_i2c_address(0x90)] stores 0x90. *)
Lemma begin_masks_address_set_i2c_address_does_not_witness :
  let w1 := with_address 0x10 (with_mode TFMINI_PLUS_I2C
                                 (bus_world [0x5A; 5; 0x0B; 0x90; 0x6A])) in
  let w2 := with_address 0x90 (after_request 5 (log (EvDelay 100)
              (log (EvWireEnd 0) (log (EvWireWrite [0x5A; 5; 0x0B; 0x90; 0x6A] 5)
                 (log (EvWireBegin 0x10) w1))))) in
  begin 0x90 (bus_world [0x5A; 5; 0x0B; 0x90; 0x6A]) = Some (tt, w1)
  /\ set_i2c_address 0x90 w1 = Some (true, w2)
  /\ _address w2 = 0x90.
Proof.
  intros w1 w2.
  destruct (begin_masks_address_set_i2c_address_does_not 0x90 0x90
              (bus_world [0x5A; 5; 0x0B; 0x90; 0x6A]) w2)
    as (Hbegin & _ & _ & _ & Hset).
  split; [exact Hbegin|].
  assert (Hrun : set_i2c_address 0x90 w1 = Some (true, w2)) by (vm_compute; reflexivity).
  split; [exact Hrun | exact (Hset Hrun)].
Defined.

(** ** Settle delay *)

Lemma forallb_reads (f : Kind -> bool) (n : nat) :
  f KRead = true -> forallb f (repeat KRead n) = true.
Proof.
  intros H. induction n as [|n IH]; cbn [repeat forallb]; [reflexivity|].
  rewrite H, IH. reflexivity.
Qed.

(** No operation waits on the stream. *)
Lemma op_kinds_uart_no_delay (op : Operation) (n : nat) :
  forallb (fun k => negb (is_delay k)) (op_kinds op TFMINI_PLUS_UART n) = true.
Proof.
  destruct op;
    cbn [op_kinds exchange_kinds send_kinds wait_kinds app forallb is_delay negb andb];
    try reflexivity; apply forallb_reads; reflexivity.
Qed.

(** C8, as amended.  Every operation returns.  In bus mode every operation
    other than [read_data] waits the settle delay between the command it
    sends and the read of the response, and [read_data] issues the read
    right after its command, with no delay at all; in streaming mode no
    operation inserts a delay. *)
Theorem settle_delay_by_mode (op : Operation) (w : World) :
  exists w',
    run op w = Some (tt, w')
    /\ match _communications_mode w with
       | TFMINI_PLUS_UART => no_delay (new_events w w') = true
       | TFMINI_PLUS_I2C =>
           if is_read_data op
           then no_delay (new_events w w') = true
                /\ settled (new_events w w') = false
           else settled (new_events w w') = true
       end.
Proof.
  destruct (run_kinds op w) as ([] & w' & Hrun & n & Hlogs & Hn).
  exists w'. split; [exact Hrun|].
  apply logs_new_events in Hlogs.
  unfold no_delay, settled. rewrite Hlogs.
  destruct (_communications_mode w).
  - apply op_kinds_uart_no_delay.
  - rewrite (Hn eq_refl). destruct op; cbn [is_read_data]; try reflexivity.
    split; reflexivity.
Qed.

(** C8, as stated, fails: [read_data] in bus mode sends its command and
    requests the response with no delay in between. *)
Lemma read_data_on_bus_does_not_wait :
  ~ (forall (op : Operation) (w w' : World),
        _communications_mode w = TFMINI_PLUS_I2C ->
        run op w = Some (tt, w') ->
        settled (new_events w w') = true).
Proof.
  intros H.
  specialize (H (OpReadData (mkData 0 0 0) false) (bus_world []) _ eq_refl eq_refl).
  vm_compute in H. discriminate H.
Qed.

(** * More of the driver *)

(** ** Exchanges, step by step *)

Lemma command_packet_bytes (command : Z) (arguments : list Z) (size : Z) :
  4 <= size <= 255 ->
  size - 4 <= Z.of_nat (length arguments) ->
  command_packet command arguments size = Some (command_bytes command arguments size).
Proof.
  intros Hs Ha. apply command_packet_layout; assumption.
Qed.

Lemma length_command_bytes (command : Z) (arguments : list Z) (size : Z) :
  4 <= size <= 255 ->
  size - 4 <= Z.of_nat (length arguments) ->
  Z.of_nat (length (command_bytes command arguments size)) = size.
Proof.
  intros Hs Ha. unfold command_bytes.
  rewrite !length_app, length_firstn. cbn [length]. lia.
Qed.

Lemma send_exact (input : list Z) (size : Z) (w : World) :
  size <= Z.of_nat (length input) ->
  send input size w = Some (send_reports size w, after_send input size w).
Proof.
  intros Hl. apply Z.leb_le in Hl.
  destruct w as [[|] a s t tr];
    unfold send, send_uart, send_i2c, stream_write, wire_write, send_reports, after_send;
    rewrite !bind_gets;
    cbn [_communications_mode mode_eqb communication_mode_value Z.eqb];
    unfold bind; cbn [gets modify wire_beginTransmission wire_endTransmission stream_flush];
    cbn [_communications_mode _address _stream Wire trace log];
    rewrite Hl; reflexivity.
Qed.

Lemma send_command_exact (command : Z) (arguments : list Z) (size : Z) (w : World) :
  4 <= size <= 255 ->
  size - 4 <= Z.of_nat (length arguments) ->
  send_command command arguments size w
  = Some (send_reports size w, after_send (command_bytes command arguments size) size w).
Proof.
  intros Hs Ha. unfold send_command.
  erewrite bind_lift by (apply command_packet_bytes; assumption).
  apply send_exact. rewrite length_command_bytes by assumption. lia.
Qed.

Lemma do_i2c_wait_exact (w : World) : do_i2c_wait w = Some (tt, after_wait w).
Proof.
  unfold do_i2c_wait, after_wait. rewrite bind_gets.
  destruct (_communications_mode w); reflexivity.
Qed.

Lemma receive_exact (size : Z) (w : World) :
  2 <= size <= 255 ->
  receive (uninitialised size) size w
  = Some ((received size w, filled size w), after_receive size w).
Proof.
  intros Hs. unfold received, filled, delivered, after_receive.
  destruct (_communications_mode w) eqn:Hm.
  - rewrite (receive_uart_verdict _ size w Hm Hs) by (apply length_uninitialised; lia).
    reflexivity.
  - rewrite (receive_i2c_verdict _ size w Hm Hs) by (apply length_uninitialised; lia).
    rewrite length_map. reflexivity.
Qed.

Lemma length_filled (size : Z) (w : World) :
  0 <= size -> Z.of_nat (length (filled size w)) = size.
Proof.
  intros Hs. unfold filled.
  assert (Hd : (length (delivered size w) <= Z.to_nat size)%nat).
  { unfold delivered. destruct (_communications_mode w);
      rewrite ?length_map, length_firstn; lia. }
  rewrite length_app, length_skipn.
  pose proof (length_uninitialised size Hs). lia.
Qed.

(** Sending and waiting leave the incoming bytes where they are. *)
Lemma delivered_after_send_wait (packet : list Z) (size expected : Z) (w : World) :
  delivered expected (after_wait (after_send packet size w)) = delivered expected w.
Proof.
  destruct w as [[|] a s t tr]; reflexivity.
Qed.

Lemma filled_after_send_wait (packet : list Z) (size expected : Z) (w : World) :
  filled expected (after_wait (after_send packet size w)) = filled expected w.
Proof.
  unfold filled. rewrite delivered_after_send_wait. reflexivity.
Qed.

Lemma received_after_send_wait (packet : list Z) (size expected : Z) (w : World) :
  received expected (after_wait (after_send packet size w)) = received expected w.
Proof.
  unfold received. rewrite filled_after_send_wait, delivered_after_send_wait. reflexivity.
Qed.

(** An exchange: the command goes out, the wait is made, and the rest of the
    operation gets the verdict of [receive] and the filled array. *)
Lemma exchange_exact {A} (command : Z) (arguments : list Z) (size expected : Z)
  (k : bool * list Z -> M A) (w : World) :
  4 <= size <= 255 ->
  size - 4 <= Z.of_nat (length arguments) ->
  2 <= expected <= 255 ->
  (send_command command arguments size ;;; do_i2c_wait ;;;
   r <- receive (uninitialised expected) expected ;; k r) w
  = k (received expected w, filled expected w)
      (after_exchange (command_bytes command arguments size) size expected w).
Proof.
  intros Hs Ha He.
  erewrite bind_some by (apply send_command_exact; assumption).
  erewrite bind_some by apply do_i2c_wait_exact.
  erewrite bind_some by (apply receive_exact; exact He).
  rewrite received_after_send_wait, filled_after_send_wait. reflexivity.
Qed.

(** ** Every exchange operation, in terms of what the transport holds *)

(** The steps after an operation has been rewritten with [exchange_exact]:
    the verdict is split, the array reads are inside the filled array, and
    the comparisons are the result. *)
Ltac exchange_result :=
  cbv beta iota;
  match goal with
  | |- context [received ?n ?w] => destruct (received n w)
  end;
  cbn [andb];
  repeat first
    [ erewrite bind_lift by (apply load_in_range; rewrite length_filled; lia); cbv beta
    | match goal with
      | |- context [Z.to_nat (Zpos ?p)] =>
          let n := eval cbv in (Z.to_nat (Zpos p)) in
          change (Z.to_nat (Zpos p)) with n
      end
    | match goal with
      | |- context [if ?c then _ else _] => destruct c
      end ];
  reflexivity.

Ltac exchange_op :=
  unfold send_command0; unfold_lengths; cbv zeta;
  rewrite exchange_exact by (cbn [length]; lia);
  exchange_result.

Lemma set_i2c_address_exact (address : Z) (w : World) :
  let ok := received 5 w && (nth 3 (filled 5 w) 0 =? address) in
  let w' := after_exchange (command_bytes TFMINI_PLUS_SET_I2C_ADDRESS [address] 5) 5 5 w in
  set_i2c_address address w
  = Some (ok, if ok then with_address address w' else w').
Proof. unfold set_i2c_address. exchange_op. Qed.

Lemma get_version_exact (w : World) :
  get_version w
  = Some (if received 7 w && (nth 2 (filled 7 w) 0 =? TFMINI_PLUS_GET_VERSION)
          then Some (mkVersion (nth 3 (filled 7 w) 0) (nth 4 (filled 7 w) 0)
                       (nth 5 (filled 7 w) 0))
          else None,
          after_exchange (command_bytes TFMINI_PLUS_GET_VERSION [] 4) 4 7 w).
Proof. unfold get_version. exchange_op. Qed.

Lemma set_framerate_exact (framerate : tfminiplus_framerate_t) (w : World) :
  let low := uint8 (Z.lor (framerate_value framerate) 0xFF) in
  let high := uint8 (Z.shiftr (framerate_value framerate) 8) in
  set_framerate framerate w
  = Some (received 6 w
          && ((low =? nth 3 (filled 6 w) 0) && (high =? nth 4 (filled 6 w) 0)),
          after_exchange (command_bytes TFMINI_PLUS_SET_FRAME_RATE [low; high] 6) 6 6 w).
Proof.
  unfold set_framerate. change TFMINI_PLUS_PACK_LENGTH_SET_FRAME_RATE with 6. exchange_op.
Qed.

Lemma set_baudrate_exact (baudrate : tfminiplus_baudrate_t) (w : World) :
  let b0 := uint8 (Z.lor (baudrate_value baudrate) 0xFF) in
  let b1 := uint8 (Z.shiftr (baudrate_value baudrate) 8) in
  let b2 := uint8 (Z.shiftr (baudrate_value baudrate) 16) in
  let b3 := uint8 (Z.shiftr (baudrate_value baudrate) 24) in
  set_baudrate baudrate w
  = Some (received 8 w
          && ((b0 =? nth 3 (filled 8 w) 0) && (b1 =? nth 4 (filled 8 w) 0)
              && (b2 =? nth 5 (filled 8 w) 0) && (b3 =? nth 6 (filled 8 w) 0)),
          after_exchange (command_bytes TFMINI_PLUS_SET_BAUD_RATE [b0; b1; b2; b3] 8) 8 8 w).
Proof. unfold set_baudrate. exchange_op. Qed.

Lemma set_output_format_exact (format : tfminiplus_output_format_t) (w : World) :
  set_output_format format w
  = Some (received 5 w && (output_format_value format =? nth 3 (filled 5 w) 0),
          after_exchange
            (command_bytes TFMINI_PLUS_SET_OUTPUT_FORMAT
               [first_byte (output_format_value format)] 5) 5 5 w).
Proof. unfold set_output_format. exchange_op. Qed.

Lemma enable_output_exact (output_enabled : bool) (w : World) :
  enable_output output_enabled w
  = Some (received 5 w && ((if output_enabled then 1 else 0) =? nth 3 (filled 5 w) 0),
          after_exchange
            (command_bytes TFMINI_PLUS_ENABLE_DATA_OUTPUT
               [if output_enabled then 1 else 0] 5) 5 5 w).
Proof. unfold enable_output. exchange_op. Qed.

(** An operation without arguments that reads a status byte at offset 3. *)
Lemma save_settings_exact (w : World) :
  save_settings w
  = Some (received 5 w && (nth 3 (filled 5 w) 0 =? 0),
          after_exchange (command_bytes TFMINI_PLUS_SAVE_SETTINGS [] 4) 4 5 w).
Proof. unfold save_settings. exchange_op. Qed.

Lemma reset_system_exact (w : World) :
  reset_system w
  = Some (received 5 w && (nth 3 (filled 5 w) 0 =? 0),
          after_exchange (command_bytes TFMINI_PLUS_SYSTEM_RESET [] 4) 4 5 w).
Proof. unfold reset_system. exchange_op. Qed.

Lemma factory_reset_exact (w : World) :
  factory_reset w
  = Some (received 5 w && (nth 3 (filled 5 w) 0 =? 0),
          after_exchange (command_bytes TFMINI_PLUS_RESTORE_FACTORY_SETTINGS [] 4) 4 5 w).
Proof. unfold factory_reset. exchange_op. Qed.

Lemma set_io_mode_exact (mode : tfminiplus_mode_t) (critical_distance hysteresis : Z)
  (w : World) :
  set_io_mode mode critical_distance hysteresis w
  = Some (tt, after_send
                (command_bytes TFMINI_PLUS_SET_IO_MODE
                   [uint8 (io_mode_value mode);
                    uint8 critical_distance; uint8 (Z.shiftr critical_distance 8);
                    uint8 hysteresis; uint8 (Z.shiftr hysteresis 8)] 9) 9 w).
Proof.
  unfold set_io_mode. unfold_lengths.
  erewrite bind_some by (apply send_command_exact; cbn [length]; lia).
  reflexivity.
Qed.

Lemma set_communication_interface_exact (mode : tfminiplus_communication_mode) (w : World) :
  let w1 := after_send
              (command_bytes TFMINI_PLUS_SET_COMMUNICATION_INTERFACE
                 [first_byte (communication_mode_value mode)] 5) 5 w in
  let saved := received 5 w1 && (nth 3 (filled 5 w1) 0 =? 0) in
  let w2 := after_exchange (command_bytes TFMINI_PLUS_SAVE_SETTINGS [] 4) 4 5 w1 in
  set_communication_interface mode w
  = Some (tt, if saved then with_mode mode w2 else w2).
Proof.
  cbv zeta. unfold set_communication_interface. unfold_lengths.
  erewrite bind_some by (apply send_command_exact; cbn [length]; lia).
  erewrite bind_some by apply save_settings_exact.
  match goal with |- context [if ?c then _ else _] => destruct c end; reflexivity.
Qed.

(** The fields of a data packet, from its bytes at offsets 2 to 7. *)
Lemma read_data_response_on_bus (data : tfminiplus_data_t) (w : World) :
  _communications_mode w = TFMINI_PLUS_I2C ->
  read_data_response data w
  = Some (if received 9 w
          then (true, mkData (uint16 (nth 2 (filled 9 w) 0 + Z.shiftl (nth 3 (filled 9 w) 0) 8))
                        (uint16 (nth 4 (filled 9 w) 0 + Z.shiftl (nth 5 (filled 9 w) 0) 8))
                        (uint16 (nth 6 (filled 9 w) 0 + Z.shiftl (nth 7 (filled 9 w) 0) 8)))
          else (false, data),
          after_receive 9 w).
Proof.
  intros Hm. unfold read_data_response. unfold_lengths. cbv zeta.
  rewrite bind_gets, Hm.
  change (mode_eqb TFMINI_PLUS_I2C TFMINI_PLUS_UART) with false. cbv iota.
  erewrite bind_some by (apply receive_exact; lia).
  cbv beta iota. destruct (received 9 w); [|reflexivity].
  repeat (erewrite bind_lift by (apply load_in_range; rewrite length_filled; lia); cbv beta).
  reflexivity.
Qed.

(** ** The packet of [send_command], byte by byte *)

Lemma nth_command_body (command : Z) (arguments : list Z) (size : Z) (i : nat) :
  (i < Z.to_nat (size - 4))%nat ->
  (Z.to_nat (size - 4) <= length arguments)%nat ->
  nth (3 + i) (command_bytes command arguments size) 0 = nth i arguments 0.
Proof.
  intros Hi Ha. unfold command_bytes. cbn [app nth Nat.add].
  rewrite app_nth1 by (rewrite length_firstn; lia).
  rewrite nth_firstn. apply Nat.ltb_lt in Hi. rewrite Hi. reflexivity.
Qed.

Lemma command_bytes_checksum (command : Z) (arguments : list Z) (size : Z) :
  4 <= size <= 255 ->
  size - 4 <= Z.of_nat (length arguments) ->
  nth (Z.to_nat (size - 1)) (command_bytes command arguments size) 0
  = byte_sum (firstn (Z.to_nat (size - 2)) (command_bytes command arguments size)).
Proof.
  intros Hs Ha. unfold command_bytes.
  set (body := [TFMINI_PLUS_FRAME_START; size; command]
               ++ firstn (Z.to_nat (size - 4)) arguments).
  assert (Hb : length body = Z.to_nat (size - 1)).
  { subst body. rewrite length_app, length_firstn. cbn [length]. lia. }
  rewrite app_nth2 by lia. rewrite Hb, Nat.sub_diag. cbn [nth].
  rewrite firstn_app.
  replace (Z.to_nat (size - 2) - length body)%nat with 0%nat by lia.
  rewrite firstn_0, app_nil_r. reflexivity.
Qed.

(** X1.  For a size from 4 to 255 and enough argument bytes, [send_command]
    builds, whatever its local array held before, a packet of [size] bytes:
    the marker 0x5A, the size, the command code, the argument bytes in
    their order, and a last byte that is the sum, modulo 256, of the first
    [size - 2] bytes. *)
Theorem send_command_packet_by_position
  (stale : list Z) (command : Z) (arguments : list Z) (size : Z) :
  4 <= size <= 255 ->
  size - 4 <= Z.of_nat (length arguments) ->
  Z.of_nat (length stale) = size ->
  exists packet,
    command_packet_from stale command arguments size = Some packet
    /\ Z.of_nat (length packet) = size
    /\ nth 0 packet 0 = TFMINI_PLUS_FRAME_START
    /\ nth 1 packet 0 = size
    /\ nth 2 packet 0 = command
    /\ (forall i : nat, Z.of_nat i < size - 4 -> nth (3 + i) packet 0 = nth i arguments 0)
    /\ nth (Z.to_nat (size - 1)) packet 0 = byte_sum (firstn (Z.to_nat (size - 2)) packet).
Proof.
  intros Hs Ha Hl. exists (command_bytes command arguments size).
  split; [apply command_packet_from_layout; assumption|].
  split; [apply length_command_bytes; assumption|].
  split; [reflexivity|]. split; [reflexivity|]. split; [reflexivity|].
  split; [intros i Hi; apply nth_command_body; lia|].
  apply command_bytes_checksum; assumption.
Qed.

(** The set-address command for address 0x20, built in an array that held
    other bytes. *)
Lemma send_command_packet_by_position_witness :
  exists packet,
    command_packet_from [7; 7; 7; 7; 7] TFMINI_PLUS_SET_I2C_ADDRESS [0x20] 5 = Some packet
    /\ Z.of_nat (length packet) = 5
    /\ nth 0 packet 0 = TFMINI_PLUS_FRAME_START
    /\ nth 1 packet 0 = 5
    /\ nth 2 packet 0 = TFMINI_PLUS_SET_I2C_ADDRESS
    /\ (forall i : nat, Z.of_nat i < 5 - 4 -> nth (3 + i) packet 0 = nth i [0x20] 0)
    /\ nth (Z.to_nat (5 - 1)) packet 0 = byte_sum (firstn (Z.to_nat (5 - 2)) packet).
Proof.
  apply (send_command_packet_by_position [7; 7; 7; 7; 7] TFMINI_PLUS_SET_I2C_ADDRESS
           [0x20] 5).
  - lia.
  - cbn [length]. lia.
  - reflexivity.
Defined.

(** ** The driver's packets against the driver's check *)

Lemma byte_sum_from_range (l : list Z) :
  forall acc, 0 <= acc < 256 ->
              0 <= fold_left (fun a b => uint8 (a + b)) l acc < 256.
Proof.
  induction l as [|b rest IH]; intros acc Hacc; cbn [fold_left]; [exact Hacc|].
  apply IH. unfold uint8. apply Z.mod_pos_bound. reflexivity.
Qed.

Lemma byte_sum_range (l : list Z) : 0 <= byte_sum l < 256.
Proof. apply byte_sum_from_range. lia. Qed.

Lemma map_uint8_bytes (l : list Z) :
  Forall (fun b => 0 <= b < 256) l -> map uint8 l = l.
Proof.
  induction 1 as [|b rest Hb Hrest IH]; cbn [map]; [reflexivity|].
  rewrite IH. unfold uint8. rewrite Z.mod_small by exact Hb. reflexivity.
Qed.

Lemma Forall_firstn_bytes (P : Z -> Prop) (l : list Z) :
  forall n, Forall P l -> Forall P (firstn n l).
Proof.
  induction l as [|b rest IH]; intros [|n] H; cbn [firstn]; try constructor.
  - inversion H; assumption.
  - apply IH. inversion H; assumption.
Qed.

Lemma command_bytes_in_range (command : Z) (arguments : list Z) (size : Z) :
  0 <= size < 256 ->
  0 <= command < 256 ->
  Forall (fun b => 0 <= b < 256) arguments ->
  Forall (fun b => 0 <= b < 256) (command_bytes command arguments size).
Proof.
  intros Hs Hc Ha. unfold command_bytes.
  apply Forall_app. split.
  - apply Forall_app. split.
    + repeat constructor; try assumption; try apply Hs; try apply Hc;
        unfold TFMINI_PLUS_FRAME_START; lia.
    + apply Forall_firstn_bytes. exact Ha.
  - constructor; [apply byte_sum_range | constructor].
Qed.

Lemma accepts_command_bytes (command : Z) (arguments : list Z) (size : Z) :
  4 <= size <= 255 ->
  size - 4 <= Z.of_nat (length arguments) ->
  accepts (command_bytes command arguments size) size = true.
Proof.
  intros Hs Ha. unfold accepts.
  rewrite <- command_bytes_checksum by assumption.
  apply andb_true_intro. split; apply Z.eqb_eq; reflexivity.
Qed.

Lemma incoming_after_receive (size : Z) (w : World) :
  incoming (after_receive size w) = skipn (Z.to_nat size) (incoming w).
Proof.
  destruct w as [[|] a s t tr]; reflexivity.
Qed.

(** When the transport holds [packet], of [size] bytes, and then [rest],
    the array is filled with [packet]. *)
Lemma filled_exact (packet rest : list Z) (size : Z) (w : World) :
  0 <= size ->
  Z.of_nat (length packet) = size ->
  Forall (fun b => 0 <= b < 256) packet ->
  incoming w = packet ++ rest ->
  delivered size w = packet /\ filled size w = packet.
Proof.
  intros Hs Hl Hb Hin.
  assert (Hd : delivered size w = packet).
  { unfold delivered, incoming in *.
    destruct (_communications_mode w); rewrite Hin, firstn_exact by lia;
      [reflexivity | apply map_uint8_bytes; exact Hb]. }
  split; [exact Hd|].
  unfold filled. rewrite Hd.
  rewrite skipn_all2 by (pose proof (length_uninitialised size Hs); lia).
  apply app_nil_r.
Qed.

(** X2.  A packet that [send_command] builds passes the driver's own
    reception: when the transport in use holds such a packet of [size]
    bytes, followed by any further bytes, [receive] asked for [size] bytes
    returns true with exactly that packet in the array and leaves the
    further bytes with the transport. *)
Theorem own_command_packet_is_received
  (command : Z) (arguments packet rest : list Z) (size : Z) (w : World) :
  4 <= size <= 255 ->
  size - 4 <= Z.of_nat (length arguments) ->
  0 <= command < 256 ->
  Forall (fun b => 0 <= b < 256) arguments ->
  command_packet command arguments size = Some packet ->
  incoming w = packet ++ rest ->
  exists w',
    receive (uninitialised size) size w = Some ((true, packet), w')
    /\ incoming w' = rest.
Proof.
  intros Hs Ha Hc Hb Hp Hin.
  rewrite command_packet_bytes in Hp by assumption.
  injection Hp as <-.
  pose proof (length_command_bytes command arguments size Hs Ha) as Hl.
  destruct (filled_exact (command_bytes command arguments size) rest size w)
    as [Hd Hf]; try assumption; try lia.
  { apply command_bytes_in_range; try assumption. lia. }
  exists (after_receive size w). split.
  - rewrite receive_exact by lia. unfold received.
    rewrite Hf, Hd, accepts_command_bytes by assumption.
    replace (Z.of_nat (length (command_bytes command arguments size)) =? size) with true
      by (symmetry; apply Z.eqb_eq; exact Hl).
    reflexivity.
  - rewrite incoming_after_receive, Hin. apply skipn_exact. lia.
Qed.

(** The set-frame-rate packet of the driver, echoed on the bus and followed
    by one more byte. *)
Lemma own_command_packet_is_received_witness :
  exists w',
    receive (uninitialised 6) 6 (bus_world [0x5A; 6; 3; 0xFF; 0; 0x62; 0x33])
    = Some ((true, [0x5A; 6; 3; 0xFF; 0; 0x62]), w')
    /\ incoming w' = [0x33].
Proof.
  apply (own_command_packet_is_received TFMINI_PLUS_SET_FRAME_RATE [0xFF; 0]
           [0x5A; 6; 3; 0xFF; 0; 0x62] [0x33] 6
           (bus_world [0x5A; 6; 3; 0xFF; 0; 0x62; 0x33])).
  - lia.
  - cbn [length]. lia.
  - unfold TFMINI_PLUS_SET_FRAME_RATE. lia.
  - repeat constructor; lia.
  - reflexivity.
  - reflexivity.
Defined.

(** X3.  In either mode, when the transport in use holds fewer bytes than
    [receive] is asked for, [receive] returns false, and it has taken the
    bytes that were there. *)
Theorem receive_short_read (output : list Z) (size : Z) (w : World) :
  2 <= size <= 255 ->
  Z.of_nat (length output) = size ->
  Z.of_nat (length (incoming w)) < size ->
  exists output' w',
    receive output size w = Some ((false, output'), w')
    /\ incoming w' = [].
Proof.
  intros Hs Hl Hshort. unfold incoming in Hshort.
  destruct (_communications_mode w) eqn:Hm.
  - rewrite (receive_uart_verdict output size w Hm Hs Hl).
    rewrite firstn_all2 by lia.
    replace (Z.of_nat (length (rx (_stream w))) =? size) with false
      by (symmetry; apply Z.eqb_neq; lia).
    eexists _, _. split; [reflexivity|].
    unfold incoming, after_readBytes, log, with_stream.
    cbn [_communications_mode _stream rx]. rewrite Hm.
    apply skipn_all2. lia.
  - rewrite (receive_i2c_verdict output size w Hm Hs Hl).
    rewrite firstn_all2 by lia.
    replace (Z.of_nat (length (wire_answer (Wire w))) =? size) with false
      by (symmetry; apply Z.eqb_neq; lia).
    eexists _, _. split; [reflexivity|].
    unfold incoming, after_request, log, with_wire.
    cbn [_communications_mode Wire wire_answer]. rewrite Hm.
    apply skipn_all2. lia.
Qed.

(** Four bytes of a five-byte response on the stream. *)
Lemma receive_short_read_witness :
  exists output' w',
    receive (uninitialised 5) 5 (stream_world [0x5A; 5; 0x11; 0]) = Some ((false, output'), w')
    /\ incoming w' = [].
Proof.
  apply (receive_short_read (uninitialised 5) 5 (stream_world [0x5A; 5; 0x11; 0])).
  - lia.
  - reflexivity.
  - cbn. lia.
Defined.

(** ** What the checksum comparison does not see *)

Lemma firstn_upd_same (data : list Z) :
  forall n v, firstn n (upd data n v) = firstn n data.
Proof.
  induction data as [|b rest IH]; intros [|n] v; cbn [upd firstn]; try reflexivity.
  rewrite IH. reflexivity.
Qed.

Lemma nth_upd_other (data : list Z) :
  forall n m v, n <> m -> nth m (upd data n v) 0 = nth m data 0.
Proof.
  induction data as [|b rest IH]; intros [|n] [|m] v H; cbn [upd nth];
    try reflexivity; try lia.
  apply IH. lia.
Qed.

(** X4.  The verdict of [compare_checksum] on a packet of [size] bytes does
    not depend on the byte at offset [size - 2], the last byte before the
    checksum byte: whatever value is written there, the verdict is the
    same. *)
Theorem compare_checksum_ignores_byte_before_last (data : list Z) (size v : Z) :
  3 <= size <= 256 ->
  size <= Z.of_nat (length data) ->
  compare_checksum (upd data (Z.to_nat (size - 2)) v) size = compare_checksum data size.
Proof.
  intros Hs Hl.
  rewrite !compare_checksum_sum by (rewrite ?length_upd; lia).
  rewrite firstn_upd_same, nth_upd_other by lia.
  reflexivity.
Qed.

(** A save-settings response whose status byte, at offset 3 of 5, is
    replaced by 0xEE. *)
Lemma compare_checksum_ignores_byte_before_last_witness :
  compare_checksum [0x5A; 5; 0x11; 0xEE; 0x70] 5
  = compare_checksum [0x5A; 5; 0x11; 0; 0x70] 5.
Proof.
  apply (compare_checksum_ignores_byte_before_last [0x5A; 5; 0x11; 0; 0x70] 5 0xEE).
  - lia.
  - cbn [length]. lia.
Defined.

(** ** Streams without a complete packet *)

(** On bytes without a false start and no header after them, the header
    search reads every byte and reports that it found nothing. *)
Lemma find_packet_start_misses (n : nat) :
  forall (garbage : list Z),
    (length garbage <= n)%nat ->
    forall (fuel : nat) (output : list Z) (w : World),
      (length garbage < fuel)%nat ->
      no_false_start garbage = true ->
      rx (_stream w) = garbage ->
      find_packet_start fuel output false w
      = Some ((false, output), after_reads garbage [] w).
Proof.
  induction n as [|n IH]; intros garbage Hn fuel output w Hf Hg Hrx;
    (destruct fuel as [|fuel]; [lia|]);
    destruct w as [m a [waiting room] wire tr]; cbn [_stream rx] in Hrx; subst waiting.
  - destruct garbage as [|b g]; [|cbn [length] in Hn; lia].
    unfold after_reads. cbn [map]. rewrite app_nil_r. reflexivity.
  - destruct garbage as [|b g].
    { unfold after_reads. cbn [map]. rewrite app_nil_r. reflexivity. }
    cbn [find_packet_start]. unfold stream_available.
    rewrite bind_gets. cbn [_stream rx length].
    rewrite loop_test_nonempty.
    erewrite bind_some by reflexivity.
    cbn [length] in Hn, Hf.
    destruct (b =? TFMINI_PLUS_RESPONSE_FRAME_HEADER) eqn:Eb.
    + destruct g as [|c g].
      { cbn [no_false_start] in Hg. rewrite Eb in Hg. discriminate. }
      erewrite bind_some by reflexivity.
      assert (Ec : (c =? TFMINI_PLUS_RESPONSE_FRAME_HEADER) = false).
      { cbn [no_false_start] in Hg. rewrite Eb in Hg. cbn [negb orb] in Hg.
        apply andb_prop in Hg. destruct Hg as [Hc _].
        apply negb_true_iff in Hc. exact Hc. }
      rewrite Ec.
      cbn [length] in Hn, Hf.
      erewrite IH with (garbage := g);
        [ | lia | lia
          | apply (no_false_start_tail c), (no_false_start_tail b); exact Hg
          | reflexivity ].
      unfold after_reads, log, with_stream.
      cbn [_communications_mode _address _stream Wire trace tx_room map app].
      rewrite <- !app_assoc. reflexivity.
    + erewrite IH with (garbage := g);
        [ | lia | lia | apply (no_false_start_tail b); exact Hg | reflexivity ].
      unfold after_reads, log, with_stream.
      cbn [_communications_mode _address _stream Wire trace tx_room map app].
      rewrite <- !app_assoc. reflexivity.
Qed.

(** X5.  When the stream holds only bytes in which every 0x59 is followed
    by a byte other than 0x59 (so no header at all), [uart_receive_data],
    asked for 3 bytes or more, returns false, leaves its array as it was,
    and has emptied the stream. *)
Theorem uart_receive_data_without_header (garbage output : list Z) (size : Z) (w : World) :
  3 <= size <= 255 ->
  Z.of_nat (length output) = size ->
  no_false_start garbage = true ->
  rx (_stream w) = garbage ->
  exists w',
    uart_receive_data output size w = Some ((false, output), w')
    /\ rx (_stream w') = [].
Proof.
  intros Hs Hl Hg Hrx.
  unfold uart_receive_data, stream_available.
  rewrite bind_gets.
  erewrite bind_some
    by (apply (find_packet_start_misses (length garbage) garbage);
        [lia | rewrite Nat2Z.id, Hrx; lia | exact Hg | exact Hrx]).
  cbv beta iota.
  unfold to_size_t, size_t_modulus.
  rewrite Z.mod_small by (change (2 ^ 16) with 65536; lia).
  erewrite bind_some by (apply stream_readBytes_fills; lia).
  cbv beta iota. unfold ret.
  cbn [after_reads _stream rx firstn].
  rewrite firstn_nil. cbn [length app]. rewrite Nat.add_0_r, firstn_skipn.
  replace (uint8 (Z.of_nat 0 + 2) =? size) with false
    by (symmetry; apply Z.eqb_neq; change (uint8 (Z.of_nat 0 + 2)) with 2; lia).
  eexists. split; [reflexivity|].
  unfold after_readBytes, log, with_stream, after_reads. cbn [_stream rx].
  apply skipn_nil.
Qed.

(** Three stray bytes, the second a lone 0x59. *)
Lemma uart_receive_data_without_header_witness :
  exists w',
    uart_receive_data (uninitialised 9) 9 (stream_world [0x01; 0x59; 0x02])
    = Some ((false, uninitialised 9), w')
    /\ rx (_stream w') = [].
Proof.
  apply (uart_receive_data_without_header [0x01; 0x59; 0x02] (uninitialised 9) 9
           (stream_world [0x01; 0x59; 0x02])).
  - lia.
  - reflexivity.
  - reflexivity.
  - reflexivity.
Defined.

(** X6.  When the stream holds garbage without a false start, the two
    markers and then fewer than [size - 2] bytes, [uart_receive_data]
    returns false and has emptied the stream: the bytes of the incomplete
    packet are gone. *)
Theorem uart_receive_data_short_packet
  (garbage body output : list Z) (size : Z) (w : World) :
  2 <= size <= 255 ->
  Z.of_nat (length output) = size ->
  Z.of_nat (length body) < size - 2 ->
  no_false_start garbage = true ->
  rx (_stream w)
  = garbage ++ TFMINI_PLUS_RESPONSE_FRAME_HEADER
               :: TFMINI_PLUS_RESPONSE_FRAME_HEADER :: body ->
  exists output' w',
    uart_receive_data output size w = Some ((false, output'), w')
    /\ rx (_stream w') = [].
Proof.
  intros Hs Hl Hb Hg Hrx.
  unfold uart_receive_data, stream_available.
  rewrite bind_gets.
  erewrite bind_some
    by (apply (find_packet_start_finds (length garbage) garbage) with (tail := body);
        [lia | rewrite Nat2Z.id, Hrx, length_app; lia | exact Hg | exact Hrx | lia]).
  cbv beta iota.
  unfold to_size_t, size_t_modulus.
  rewrite Z.mod_small by (change (2 ^ 16) with 65536; lia).
  erewrite bind_some
    by (apply stream_readBytes_fills; cbn [length]; try lia;
        rewrite length_skipn; lia).
  cbv beta iota. unfold ret.
  cbn [after_reads _stream rx].
  rewrite firstn_all2 by lia.
  replace (uint8 (Z.of_nat (length body) + 2) =? size) with false
    by (symmetry; apply Z.eqb_neq; unfold uint8; rewrite Z.mod_small by lia; lia).
  eexists _, _. split; [reflexivity|].
  unfold after_readBytes, log, with_stream, after_reads. cbn [_stream rx].
  apply skipn_all2. lia.
Qed.

(** A data packet cut after its sixth byte. *)
Lemma uart_receive_data_short_packet_witness :
  exists output' w',
    uart_receive_data (uninitialised 9) 9 (stream_world [0xFF; 0x59; 0x59; 1; 0; 2; 0])
    = Some ((false, output'), w')
    /\ rx (_stream w') = [].
Proof.
  apply (uart_receive_data_short_packet [0xFF] [1; 0; 2; 0] (uninitialised 9) 9
           (stream_world [0xFF; 0x59; 0x59; 1; 0; 2; 0])).
  - lia.
  - reflexivity.
  - cbn [length]. lia.
  - reflexivity.
  - reflexivity.
Defined.

(** ** Readings *)

Lemma little_endian_16 (v : Z) :
  0 <= v < 65536 -> uint16 (v mod 256 + Z.shiftl (v / 256) 8) = v.
Proof.
  intros H. rewrite Z.shiftl_mul_pow2 by lia. change (2 ^ 8) with 256.
  unfold uint16. pose proof (Z.div_mod v 256).
  rewrite Z.mod_small; lia.
Qed.

(** X7.  Reading over a stream decodes what the sensor encoded: after
    [begin(stream)] on a stream that holds garbage without a false start
    and then a data packet carrying distance, strength and temperature as
    16-bit little-endian values, [read_data] returns true with exactly
    those three values, whatever the ninth byte of the packet, and leaves
    the bytes after the packet in the stream. *)
Theorem read_data_over_stream_decodes
  (garbage rest : list Z) (d s t c room : Z) (data : tfminiplus_data_t)
  (in_mm_format : bool) (w : World) :
  no_false_start garbage = true ->
  0 <= d < 65536 ->
  0 <= s < 65536 ->
  0 <= t < 65536 ->
  exists w',
    (begin_stream
       (mkStream (garbage ++ [0x59; 0x59; d mod 256; d / 256; s mod 256; s / 256;
                              t mod 256; t / 256; c] ++ rest) room) ;;;
     read_data data in_mm_format) w
    = Some ((true, mkData d s t), w')
    /\ rx (_stream w') = rest.
Proof.
  intros Hg Hd Hs Ht.
  set (stream := mkStream (garbage ++ [0x59; 0x59; d mod 256; d / 256; s mod 256; s / 256;
                                       t mod 256; t / 256; c] ++ rest) room).
  set (w1 := with_stream stream (with_mode TFMINI_PLUS_UART w)).
  destruct (uart_receive_data_skips_garbage garbage
              [d mod 256; d / 256; s mod 256; s / 256; t mod 256; t / 256; c] rest 9)
    with (w := w1) (output := uninitialised 9)
    as (w' & Hrun & Hrest & _); try reflexivity; try lia; try exact Hg.
  exists w'. split; [|exact Hrest].
  erewrite bind_some with (w' := w1) by reflexivity.
  unfold read_data. rewrite bind_gets.
  change (_communications_mode w1) with TFMINI_PLUS_UART.
  change (mode_eqb TFMINI_PLUS_UART TFMINI_PLUS_I2C) with false. cbv iota.
  rewrite bind_ret.
  unfold read_data_response. rewrite bind_gets.
  change (_communications_mode w1) with TFMINI_PLUS_UART.
  change (mode_eqb TFMINI_PLUS_UART TFMINI_PLUS_UART) with true. cbv iota.
  change TFMINI_PLUS_PACK_LENGTH_DATA_RESPONSE with 9.
  erewrite bind_some by exact Hrun.
  cbv beta iota.
  repeat (erewrite bind_lift by reflexivity; cbv beta).
  unfold ret. rewrite !little_endian_16 by assumption. reflexivity.
Qed.

(** One stray byte, then distance 300, strength 1000, temperature 2400 and a
    ninth byte, then the first byte of the next packet. *)
Lemma read_data_over_stream_decodes_witness :
  exists w',
    (begin_stream
       (mkStream ([0xFF] ++ [0x59; 0x59; 300 mod 256; 300 / 256; 1000 mod 256; 1000 / 256;
                             2400 mod 256; 2400 / 256; 0x12] ++ [0x59]) 64) ;;;
     read_data (mkData 0 0 0) false) (bus_world [])
    = Some ((true, mkData 300 1000 2400), w')
    /\ rx (_stream w') = [0x59].
Proof.
  apply (read_data_over_stream_decodes [0xFF] [0x59] 300 1000 2400 0x12 64
           (mkData 0 0 0) false (bus_world [])).
  - reflexivity.
  - lia.
  - lia.
  - lia.
Defined.

Lemma uint16_range (z : Z) : 0 <= uint16 z < 65536.
Proof. unfold uint16. apply Z.mod_pos_bound. reflexivity. Qed.

(** The reception of a data packet either fails and hands the reading back
    as it got it, or succeeds with three 16-bit fields. *)
Lemma read_data_response_outcome (data : tfminiplus_data_t) (w : World) :
  runs (read_data_response data) w
    (fun r _ => r = (false, data) \/ (fst r = true /\ sixteen_bit (snd r))).
Proof.
  assert (Hrest : forall (r : bool * list Z) (w1 : World),
             Z.of_nat (length (snd r)) = 9 ->
             runs (let (result, response) := r in
                   if result : bool then
                     r2 <- lift (load response 2) ;;
                     r3 <- lift (load response 3) ;;
                     r4 <- lift (load response 4) ;;
                     r5 <- lift (load response 5) ;;
                     r6 <- lift (load response 6) ;;
                     r7 <- lift (load response 7) ;;
                     ret (result, mkData (uint16 (r2 + Z.shiftl r3 8))
                                         (uint16 (r4 + Z.shiftl r5 8))
                                         (uint16 (r6 + Z.shiftl r7 8)))
                   else ret (result, data)) w1
               (fun r _ => r = (false, data) \/ (fst r = true /\ sixteen_bit (snd r)))).
  { intros [result response] w1 Hl. cbn [snd] in Hl. destruct result.
    - repeat (eapply runs_bind; eapply runs_lift; [apply load_in_range; lia|]; cbv beta).
      apply runs_ret. right. split; [reflexivity|].
      repeat split; apply uint16_range.
    - apply runs_ret. left. reflexivity. }
  unfold read_data_response. unfold_lengths. cbv zeta. run_gets.
  destruct (mode_eqb (_communications_mode w) TFMINI_PLUS_UART).
  - run_step uart_receive_data_runs; [lia | apply length_uninitialised; lia |].
    intros r w1 (Hl & _). apply Hrest. exact Hl.
  - run_step receive_runs; [lia | apply length_uninitialised; lia |].
    intros r w1 (Hl & _). apply Hrest. exact Hl.
Qed.

(** X8.  In either mode and whatever the transports hold, [read_data] and
    [read_manual_reading] return; when they return false the reading is
    the one the caller passed in, untouched, and when they return true its
    three fields are within 16 bits. *)
Theorem failed_read_keeps_data (data : tfminiplus_data_t) (in_mm_format : bool) (w : World) :
  (exists ok data' w',
      read_data data in_mm_format w = Some ((ok, data'), w')
      /\ (ok = false -> data' = data)
      /\ (ok = true -> sixteen_bit data'))
  /\ (exists ok data' w',
         read_manual_reading data w = Some ((ok, data'), w')
         /\ (ok = false -> data' = data)
         /\ (ok = true -> sixteen_bit data')).
Proof.
  assert (Hout : forall (r : bool * tfminiplus_data_t),
             r = (false, data) \/ (fst r = true /\ sixteen_bit (snd r)) ->
             (fst r = false -> snd r = data) /\ (fst r = true -> sixteen_bit (snd r))).
  { intros [ok d'] [H | [H1 H2]]; cbn [fst snd] in *.
    - inversion H. split; [reflexivity | discriminate].
    - subst ok. split; [discriminate | intros _; exact H2]. }
  split.
  - assert (H : runs (read_data data in_mm_format) w
                  (fun r _ => r = (false, data) \/ (fst r = true /\ sixteen_bit (snd r)))).
    { unfold read_data. run_gets.
      destruct (mode_eqb (_communications_mode w) TFMINI_PLUS_I2C).
      - run_step send_command_runs;
          [unfold_lengths; lia | unfold_lengths; cbn [length]; lia |].
        intros sent w1 _. apply read_data_response_outcome.
      - eapply runs_bind. apply runs_ret. apply read_data_response_outcome. }
    destruct H as ([ok d'] & w' & Hrun & Hr).
    exists ok, d', w'. split; [exact Hrun | exact (Hout (ok, d') Hr)].
  - assert (H : runs (read_manual_reading data) w
                  (fun r _ => r = (false, data) \/ (fst r = true /\ sixteen_bit (snd r)))).
    { unfold read_manual_reading.
      run_step send_command0_runs. intros sent w1 _.
      run_step do_i2c_wait_runs. intros [] w2 _.
      apply read_data_response_outcome. }
    destruct H as ([ok d'] & w' & Hrun & Hr).
    exists ok, d', w'. split; [exact Hrun | exact (Hout (ok, d') Hr)].
Qed.

Lemma delivered_after_send (packet : list Z) (size expected : Z) (w : World) :
  delivered expected (after_send packet size w) = delivered expected w.
Proof. destruct w as [[|] a s t tr]; reflexivity. Qed.

Lemma mode_after_send (packet : list Z) (size : Z) (w : World) :
  _communications_mode (after_send packet size w) = _communications_mode w.
Proof. destruct w as [[|] a s t tr]; reflexivity. Qed.

Lemma little_endian_bytes (low high : Z) :
  0 <= low < 256 -> 0 <= high < 256 ->
  uint16 (low + Z.shiftl high 8) = low + 256 * high.
Proof.
  intros Hl Hh. rewrite Z.shiftl_mul_pow2 by lia. change (2 ^ 8) with 256.
  unfold uint16. rewrite Z.mod_small; lia.
Qed.

Lemma nth_in_range (l : list Z) (n : nat) :
  Forall (fun b => 0 <= b < 256) l -> 0 <= nth n l 0 < 256.
Proof.
  intros H. revert n. induction H as [|b rest Hb Hrest IH]; intros [|n]; cbn [nth];
    try lia; try exact Hb. apply IH.
Qed.

(** X9.  On the bus, [read_data] returns true only for an answer of at
    least 9 bytes whose byte at offset 1 is 9 and whose byte at offset 8 is
    the sum, modulo 256, of the bytes at offsets 0 to 6; the reading is
    then made of the bytes at offsets 2 to 7, low byte first.  An answer
    that starts with the two 0x59 markers of a data packet is never
    accepted. *)
Theorem read_data_on_bus_demands_length_byte
  (data data' : tfminiplus_data_t) (in_mm_format : bool) (w w' : World) :
  _communications_mode w = TFMINI_PLUS_I2C ->
  Forall (fun b => 0 <= b < 256) (wire_answer (Wire w)) ->
  read_data data in_mm_format w = Some ((true, data'), w') ->
  let answer := wire_answer (Wire w) in
  9 <= Z.of_nat (length answer)
  /\ nth 1 answer 0 = 9
  /\ nth 8 answer 0 = byte_sum (firstn 7 answer)
  /\ data' = mkData (nth 2 answer 0 + 256 * nth 3 answer 0)
                    (nth 4 answer 0 + 256 * nth 5 answer 0)
                    (nth 6 answer 0 + 256 * nth 7 answer 0).
Proof.
  intros Hm Hb Hrun answer.
  unfold read_data in Hrun. rewrite bind_gets, Hm in Hrun.
  change (mode_eqb TFMINI_PLUS_I2C TFMINI_PLUS_I2C) with true in Hrun. cbv iota in Hrun.
  unfold_lengths.
  erewrite bind_some in Hrun by (apply send_command_exact; cbn [length]; lia).
  rewrite read_data_response_on_bus in Hrun by (rewrite mode_after_send; exact Hm).
  unfold received, filled in Hrun. rewrite !delivered_after_send in Hrun.
  assert (Hdel : delivered 9 w = firstn 9 answer).
  { unfold delivered. rewrite Hm. change (Z.to_nat 9) with 9%nat.
    apply map_uint8_bytes. apply Forall_firstn_bytes. exact Hb. }
  rewrite Hdel in Hrun.
  destruct (Z.of_nat (length (firstn 9 answer)) =? 9) eqn:Efull;
    [|cbn [andb] in Hrun; inversion Hrun].
  apply Z.eqb_eq in Efull.
  assert (Hlen : 9 <= Z.of_nat (length answer)) by (rewrite length_firstn in Efull; lia).
  rewrite skipn_all2, app_nil_r in Hrun
    by (pose proof (length_uninitialised 9); lia).
  cbn [andb] in Hrun.
  destruct (accepts (firstn 9 answer) 9) eqn:Eacc; [|inversion Hrun].
  unfold accepts in Eacc. apply andb_prop in Eacc. destruct Eacc as [E1 E8].
  apply Z.eqb_eq in E1. apply Z.eqb_eq in E8.
  change (Z.to_nat (9 - 2)) with 7%nat in E8.
  change (Z.to_nat (9 - 1)) with 8%nat in E8.
  rewrite firstn_firstn in E8. change (Nat.min 7 9) with 7%nat in E8.
  rewrite !nth_firstn in *.
  cbn [Nat.ltb Nat.leb] in *.
  split; [exact Hlen|]. split; [symmetry; exact E1|]. split; [symmetry; exact E8|].
  rewrite !little_endian_bytes in Hrun by (apply nth_in_range; exact Hb).
  injection Hrun as Hd _. symmetry. exact Hd.
Qed.

(** An answer of nine bytes that the driver accepts; it starts with 0x59
    and carries 9 at offset 1. *)
Lemma read_data_on_bus_demands_length_byte_witness :
  let w := bus_world [0x59; 9; 1; 0; 2; 0; 3; 0; 0x68] in
  let w' := after_receive 9 (after_send (command_bytes TFMINI_PLUS_GET_DATA [0] 5) 5 w) in
  read_data (mkData 0 0 0) false w = Some ((true, mkData 1 2 3), w')
  /\ nth 1 (wire_answer (Wire w)) 0 = 9.
Proof.
  intros w w'.
  assert (Hrun : read_data (mkData 0 0 0) false w = Some ((true, mkData 1 2 3), w'))
    by (vm_compute; reflexivity).
  split; [exact Hrun|].
  destruct (read_data_on_bus_demands_length_byte (mkData 0 0 0) (mkData 1 2 3) false w w')
    as (_ & H1 & _).
  - reflexivity.
  - repeat constructor; lia.
  - exact Hrun.
  - exact H1.
Defined.

(** ** What every operation keeps *)

Lemma kept_refl (w : World) : kept w w.
Proof.
  unfold kept. destruct (_communications_mode w); repeat split.
  exists []. rewrite app_nil_r. split; [reflexivity | constructor].
Qed.

Lemma kept_trans (w w1 w2 : World) : kept w w1 -> kept w1 w2 -> kept w w2.
Proof.
  unfold kept. intros (Hm1 & Ha1 & Ht1) (Hm2 & Ha2 & Ht2).
  rewrite Hm1 in Ht2.
  split; [congruence|]. split; [congruence|].
  destruct (_communications_mode w); [congruence|].
  destruct Ht1 as (Hs1 & e1 & He1 & Hf1). destruct Ht2 as (Hs2 & e2 & He2 & Hf2).
  split; [congruence|].
  exists (e1 ++ e2). rewrite He2, He1, app_assoc. split; [reflexivity|].
  apply Forall_app. split; [exact Hf1|]. rewrite <- Ha1. exact Hf2.
Qed.

Lemma kept_after_send (packet : list Z) (size : Z) (w : World) :
  kept w (after_send packet size w).
Proof.
  destruct w as [[|] a s t tr]; repeat split.
  eexists [_; _; _]. cbn [after_send log trace _communications_mode].
  rewrite <- !app_assoc. split; [reflexivity|].
  repeat constructor.
Qed.

Lemma kept_after_wait (w : World) : kept w (after_wait w).
Proof.
  destruct w as [[|] a s t tr]; repeat split.
  eexists [_]. split; [reflexivity | repeat constructor].
Qed.

Lemma kept_after_receive (size : Z) (w : World) : kept w (after_receive size w).
Proof.
  destruct w as [[|] a s t tr]; repeat split.
  eexists [_]. split; [reflexivity | repeat constructor].
Qed.

Lemma kept_after_exchange (packet : list Z) (size expected : Z) (w : World) :
  kept w (after_exchange packet size expected w).
Proof.
  unfold after_exchange.
  eapply kept_trans; [apply kept_after_send|].
  eapply kept_trans; [apply kept_after_wait | apply kept_after_receive].
Qed.

Lemma emits_kept_on_stream (w w' : World) (ks : list Kind) :
  emits w ks w' -> Wire w' = Wire w -> _communications_mode w = TFMINI_PLUS_UART ->
  kept w w'.
Proof.
  intros (Hm & Ha & _) Hw Hmode. unfold kept. rewrite Hmode.
  split; [congruence|]. split; [exact Ha | exact Hw].
Qed.

(** The header search and [readBytes] leave [Wire] alone. *)
Lemma stream_read_keeps_wire (w w' : World) (c : Z) :
  stream_read w = Some (c, w') -> Wire w' = Wire w.
Proof.
  unfold stream_read. destruct (rx (_stream w)); intros H; inversion H; reflexivity.
Qed.

Lemma find_packet_start_keeps_wire (fuel : nat) :
  forall (output : list Z) (found : bool) (w : World) r w',
    find_packet_start fuel output found w = Some (r, w') -> Wire w' = Wire w.
Proof.
  induction fuel as [|fuel IH]; intros output found w r w' H.
  - inversion H. reflexivity.
  - cbn [find_packet_start] in H. unfold stream_available in H.
    rewrite bind_gets in H.
    destruct (negb (Z.of_nat (length (rx (_stream w))) =? 0) && negb found);
      [|inversion H; reflexivity].
    unfold bind at 1 in H.
    destruct (stream_read w) as [[c1 w1]|] eqn:H1; [|discriminate].
    apply stream_read_keeps_wire in H1.
    destruct (c1 =? TFMINI_PLUS_RESPONSE_FRAME_HEADER);
      [|apply IH in H; congruence].
    unfold bind at 1 in H.
    destruct (stream_read w1) as [[c2 w2]|] eqn:H2; [|discriminate].
    apply stream_read_keeps_wire in H2.
    destruct (c2 =? TFMINI_PLUS_RESPONSE_FRAME_HEADER);
      [|apply IH in H; congruence].
    unfold bind, lift in H.
    destruct (store output 0 TFMINI_PLUS_RESPONSE_FRAME_HEADER) as [o1|]; [|discriminate].
    destruct (store o1 1 TFMINI_PLUS_RESPONSE_FRAME_HEADER) as [o2|]; [|discriminate].
    apply IH in H. congruence.
Qed.

Lemma uart_receive_data_keeps_wire (output : list Z) (size : Z) (w : World) r w' :
  uart_receive_data output size w = Some (r, w') -> Wire w' = Wire w.
Proof.
  unfold uart_receive_data, stream_available. rewrite bind_gets.
  unfold bind at 1.
  destruct (find_packet_start _ output false w) as [[[found o1] w1]|] eqn:H1;
    [|discriminate].
  apply find_packet_start_keeps_wire in H1.
  unfold bind, stream_readBytes.
  destruct (write_at o1 2 _) as [o2|]; [|discriminate].
  intros H. inversion H. cbn [log with_stream Wire]. exact H1.
Qed.

(** The reception of a data packet keeps mode, address and the other
    transport. *)
Lemma read_data_response_kept (data : tfminiplus_data_t) (w : World) :
  runs (read_data_response data) w (fun _ w' => kept w w').
Proof.
  destruct (_communications_mode w) eqn:Hm.
  - destruct (read_data_response_runs data w) as (r & w' & Hrun & n & Hn & _).
    exists r, w'. split; [exact Hrun|].
    apply (emits_kept_on_stream w w' _ Hn); [|exact Hm].
    revert Hrun. unfold read_data_response. rewrite bind_gets, Hm.
    change (mode_eqb TFMINI_PLUS_UART TFMINI_PLUS_UART) with true. cbv iota zeta.
    unfold bind at 1.
    destruct (uart_receive_data _ _ w) as [[[ok resp] w1]|] eqn:H1; [|discriminate].
    apply uart_receive_data_keeps_wire in H1.
    destruct ok.
    + unfold bind, lift.
      repeat match goal with
        | |- context [load ?l ?i] => destruct (load l i); [|discriminate]
        end.
      intros H. inversion H. subst. exact H1.
    + intros H. inversion H. subst. exact H1.
  - unfold runs. rewrite read_data_response_on_bus by exact Hm.
    eexists _, _. split; [reflexivity|]. apply kept_after_receive.
Qed.

Lemma read_manual_reading_kept (data : tfminiplus_data_t) (w : World) :
  runs (read_manual_reading data) w (fun _ w' => kept w w').
Proof.
  unfold runs, read_manual_reading, send_command0. unfold_lengths.
  erewrite bind_some by (apply send_command_exact; cbn [length]; lia).
  erewrite bind_some by apply do_i2c_wait_exact.
  destruct (read_data_response_kept data
              (after_wait (after_send (command_bytes TFMINI_PLUS_TRIGGER_DETECTION [] 4) 4 w)))
    as (r & w' & Hrun & Hk).
  exists r, w'. split; [exact Hrun|].
  eapply kept_trans; [apply kept_after_send|].
  eapply kept_trans; [apply kept_after_wait | exact Hk].
Qed.

Lemma read_data_kept (data : tfminiplus_data_t) (in_mm_format : bool) (w : World) :
  runs (read_data data in_mm_format) w (fun _ w' => kept w w').
Proof.
  unfold runs, read_data. rewrite bind_gets.
  destruct (mode_eqb (_communications_mode w) TFMINI_PLUS_I2C).
  - unfold_lengths.
    erewrite bind_some by (apply send_command_exact; cbn [length]; lia).
    destruct (read_data_response_kept data
                (after_send (command_bytes TFMINI_PLUS_GET_DATA
                               [if in_mm_format then 1 else 0] 5) 5 w))
      as (r & w' & Hrun & Hk).
    exists r, w'. split; [exact Hrun|].
    eapply kept_trans; [apply kept_after_send | exact Hk].
  - rewrite bind_ret. apply read_data_response_kept.
Qed.

(** Every operation returns and leaves a world that kept mode, address and
    the other transport, but for the field it assigns. *)
Lemma run_left_by (op : Operation) (w : World) :
  exists w', run op w = Some (tt, w') /\ left_by op w w'.
Proof.
  assert (Hplain : forall w1, kept w w1 -> left_by op w w1).
  { intros w1 Hk. exists w1. split; [exact Hk | left; reflexivity]. }
  destruct op; cbn [run].
  - erewrite bind_some by apply set_i2c_address_exact.
    eexists. split; [reflexivity|].
    eexists. split; [apply kept_after_exchange|].
    match goal with |- context [if ?c then _ else _] => destruct c end;
      [right; left; eexists; split; reflexivity | left; reflexivity].
  - erewrite bind_some by apply get_version_exact.
    eexists. split; [reflexivity|]. apply Hplain, kept_after_exchange.
  - erewrite bind_some by apply set_framerate_exact.
    eexists. split; [reflexivity|]. apply Hplain, kept_after_exchange.
  - erewrite bind_some by apply set_baudrate_exact.
    eexists. split; [reflexivity|]. apply Hplain, kept_after_exchange.
  - erewrite bind_some by apply set_output_format_exact.
    eexists. split; [reflexivity|]. apply Hplain, kept_after_exchange.
  - destruct (read_manual_reading_kept data w) as (r & w' & Hrun & Hk).
    erewrite bind_some by exact Hrun.
    exists w'. split; [reflexivity | apply Hplain, Hk].
  - destruct (read_data_kept data in_mm_format w) as (r & w' & Hrun & Hk).
    erewrite bind_some by exact Hrun.
    exists w'. split; [reflexivity | apply Hplain, Hk].
  - rewrite set_io_mode_exact.
    eexists. split; [reflexivity|]. apply Hplain, kept_after_send.
  - rewrite set_communication_interface_exact.
    eexists. split; [reflexivity|].
    eexists. split;
      [eapply kept_trans; [apply kept_after_send | apply kept_after_exchange]|].
    match goal with |- context [if ?c then _ else _] => destruct c end;
      [right; right; eexists; split; reflexivity | left; reflexivity].
  - erewrite bind_some by apply enable_output_exact.
    eexists. split; [reflexivity|]. apply Hplain, kept_after_exchange.
  - erewrite bind_some by apply save_settings_exact.
    eexists. split; [reflexivity|]. apply Hplain, kept_after_exchange.
  - erewrite bind_some by apply reset_system_exact.
    eexists. split; [reflexivity|]. apply Hplain, kept_after_exchange.
  - erewrite bind_some by apply factory_reset_exact.
    eexists. split; [reflexivity|]. apply Hplain, kept_after_exchange.
Qed.

(** X10.  Every operation returns, in either mode and whatever the
    transports hold.  No operation but [set_communication_interface]
    changes the communication mode, and none but [set_i2c_address] changes
    the stored address. *)
Theorem operations_keep_mode_and_address (op : Operation) (w : World) :
  exists w',
    run op w = Some (tt, w')
    /\ match op with
       | OpSetCommunicationInterface _ => True
       | _ => _communications_mode w' = _communications_mode w
       end
    /\ match op with
       | OpSetI2cAddress _ => True
       | _ => _address w' = _address w
       end.
Proof.
  destruct (run_left_by op w) as (w' & Hrun & w1 & (Hm & Ha & _) & Hw).
  exists w'. split; [exact Hrun|].
  destruct Hw as [-> | [(a & -> & ->) | (m & -> & ->)]].
  - destruct op; auto.
  - split; [exact Hm | exact I].
  - split; [exact I | exact Ha].
Qed.


(** X12.  In bus mode every [beginTransmission] and every [requestFrom]
    that an operation makes names the address that was stored when the
    operation began; [set_i2c_address] too talks to the old address and
    stores the new one afterwards. *)
Theorem bus_calls_go_to_the_stored_address (op : Operation) (w : World) :
  exists w',
    run op w = Some (tt, w')
    /\ (_communications_mode w = TFMINI_PLUS_I2C ->
        Forall (addressed_to (_address w)) (new_events w w')).
Proof.
  destruct (run_left_by op w) as (w' & Hrun & w1 & (_ & _ & Ht) & Hw).
  exists w'. split; [exact Hrun|]. intros Hm. rewrite Hm in Ht.
  destruct Ht as (_ & evs & He & Hf).
  assert (Htrace : trace w' = trace w ++ evs)
    by (destruct Hw as [-> | [(a & _ & ->) | (m & _ & ->)]]; exact He).
  unfold new_events. rewrite Htrace, skipn_app, skipn_all, Nat.sub_diag.
  exact Hf.
Qed.

(** ** Operations, by the bytes of the response *)

Lemma received_of_bytes (packet rest : list Z) (size : Z) (w : World) :
  0 <= size ->
  Z.of_nat (length packet) = size ->
  Forall (fun b => 0 <= b < 256) packet ->
  incoming w = packet ++ rest ->
  received size w = accepts packet size /\ filled size w = packet.
Proof.
  intros Hs Hl Hb Hin.
  destruct (filled_exact packet rest size w Hs Hl Hb Hin) as [Hd Hf].
  split; [|exact Hf]. unfold received. rewrite Hd, Hf.
  replace (Z.of_nat (length packet) =? size) with true
    by (symmetry; apply Z.eqb_eq; exact Hl).
  reflexivity.
Qed.

Lemma incoming_after_exchange (packet : list Z) (size expected : Z) (w : World) :
  incoming (after_exchange packet size expected w)
  = skipn (Z.to_nat expected) (incoming w).
Proof. destruct w as [[|] a s t tr]; reflexivity. Qed.

(** X13.  [get_version] on a transport that holds seven bytes (and then any
    others) returns the bytes at offsets 3, 4 and 5 as revision, minor and
    major exactly when the byte at offset 1 is 7, the byte at offset 6 is
    the sum, modulo 256, of the bytes at offsets 0 to 4, and the byte at
    offset 2 is the get-version code; otherwise no field of the version is
    assigned.  Either way the seven bytes are taken, and the byte at
    offset 0 is not looked at. *)
Theorem get_version_of_response (b0 b1 b2 r mi ma c : Z) (rest : list Z) (w : World) :
  Forall (fun b => 0 <= b < 256) [b0; b1; b2; r; mi; ma; c] ->
  incoming w = [b0; b1; b2; r; mi; ma; c] ++ rest ->
  exists w',
    get_version w
    = Some (if (7 =? b1) && (byte_sum [b0; b1; b2; r; mi] =? c)
               && (b2 =? TFMINI_PLUS_GET_VERSION)
            then Some (mkVersion r mi ma) else None, w')
    /\ incoming w' = rest.
Proof.
  intros Hb Hin.
  destruct (received_of_bytes [b0; b1; b2; r; mi; ma; c] rest 7 w) as [Hr Hf];
    try assumption; try reflexivity; try lia.
  rewrite get_version_exact, Hr, Hf.
  eexists. split; [reflexivity|].
  rewrite incoming_after_exchange, Hin. reflexivity.
Qed.

(** A response that announces version 1.2.3, with one more byte after it. *)
Lemma get_version_of_response_witness :
  exists w',
    get_version (stream_world [0x5A; 7; 1; 3; 2; 1; 0x67; 0x59])
    = Some (Some (mkVersion 3 2 1), w')
    /\ incoming w' = [0x59].
Proof.
  apply (get_version_of_response 0x5A 7 1 3 2 1 0x67 [0x59]
           (stream_world [0x5A; 7; 1; 3; 2; 1; 0x67; 0x59])).
  - repeat constructor; lia.
  - reflexivity.
Defined.

(** X14.  [save_settings], [reset_system] and [factory_reset] judge the
    response in the same way: on a transport that holds five bytes (and
    then any others) each returns true exactly when the byte at offset 1 is
    5, the byte at offset 4 is the sum, modulo 256, of the bytes at offsets
    0 to 2, and the status byte at offset 3 is 0; each takes the five
    bytes.  The command code of the response, at offset 2, is not looked
    at. *)
Theorem status_operations_of_response (b0 b1 b2 status c : Z) (rest : list Z) (w : World) :
  Forall (fun b => 0 <= b < 256) [b0; b1; b2; status; c] ->
  incoming w = [b0; b1; b2; status; c] ++ rest ->
  let ok := (5 =? b1) && (byte_sum [b0; b1; b2] =? c) && (status =? 0) in
  (exists w', save_settings w = Some (ok, w') /\ incoming w' = rest)
  /\ (exists w', reset_system w = Some (ok, w') /\ incoming w' = rest)
  /\ (exists w', factory_reset w = Some (ok, w') /\ incoming w' = rest).
Proof.
  intros Hb Hin ok.
  destruct (received_of_bytes [b0; b1; b2; status; c] rest 5 w) as [Hr Hf];
    try assumption; try reflexivity; try lia.
  rewrite save_settings_exact, reset_system_exact, factory_reset_exact, Hr, Hf.
  repeat split; eexists; (split; [reflexivity|]);
    rewrite incoming_after_exchange, Hin; reflexivity.
Qed.

(** The device acknowledges with status 0. *)
Lemma status_operations_of_response_witness :
  let w := bus_world [0x5A; 5; 0x11; 0; 0x70] in
  (exists w', save_settings w = Some (true, w') /\ incoming w' = [])
  /\ (exists w', reset_system w = Some (true, w') /\ incoming w' = [])
  /\ (exists w', factory_reset w = Some (true, w') /\ incoming w' = []).
Proof.
  apply (status_operations_of_response 0x5A 5 0x11 0 0x70 []
           (bus_world [0x5A; 5; 0x11; 0; 0x70])).
  - repeat constructor; lia.
  - reflexivity.
Defined.

(** X15.  [set_output_format] and [enable_output] succeed on an echo: on a
    transport that holds five bytes (and then any others) each returns
    true exactly when the byte at offset 1 is 5, the byte at offset 4 is
    the sum, modulo 256, of the bytes at offsets 0 to 2, and the byte at
    offset 3 is the value that was requested (the format code; 1 or 0 for
    the output switch); each takes the five bytes. *)
Theorem echo_operations_of_response
  (format : tfminiplus_output_format_t) (output_enabled : bool)
  (b0 b1 b2 echo c : Z) (rest : list Z) (w : World) :
  Forall (fun b => 0 <= b < 256) [b0; b1; b2; echo; c] ->
  incoming w = [b0; b1; b2; echo; c] ++ rest ->
  let framed := (5 =? b1) && (byte_sum [b0; b1; b2] =? c) in
  (exists w',
      set_output_format format w
      = Some (framed && (output_format_value format =? echo), w')
      /\ incoming w' = rest)
  /\ (exists w',
         enable_output output_enabled w
         = Some (framed && ((if output_enabled then 1 else 0) =? echo), w')
         /\ incoming w' = rest).
Proof.
  intros Hb Hin framed.
  destruct (received_of_bytes [b0; b1; b2; echo; c] rest 5 w) as [Hr Hf];
    try assumption; try reflexivity; try lia.
  rewrite set_output_format_exact, enable_output_exact, Hr, Hf.
  repeat split; eexists; (split; [reflexivity|]);
    rewrite incoming_after_exchange, Hin; reflexivity.
Qed.

(** The device echoes output format 6 (millimetres). *)
Lemma echo_operations_of_response_witness :
  let w := stream_world [0x5A; 5; 5; 6; 0x64] in
  (exists w', set_output_format TFMINI_PLUS_OUTPUT_MM w = Some (true, w')
              /\ incoming w' = [])
  /\ (exists w', enable_output true w = Some (false, w') /\ incoming w' = []).
Proof.
  apply (echo_operations_of_response TFMINI_PLUS_OUTPUT_MM true 0x5A 5 5 6 0x64 []
           (stream_world [0x5A; 5; 5; 6; 0x64])).
  - repeat constructor; lia.
  - reflexivity.
Defined.

Lemma set_baudrate_low_byte (baudrate : tfminiplus_baudrate_t) :
  uint8 (Z.lor (baudrate_value baudrate) 0xFF) = 0xFF.
Proof. destruct baudrate; reflexivity. Qed.

(** X16.  [set_baudrate] sends the packet 5A 08 06 FF followed by bits 8 to
    31 of the baud rate in three bytes and the checksum byte: the byte at
    offset 3 is FF for every baud rate.  On a transport that holds eight
    bytes (and then any others) it returns true exactly when the byte at
    offset 1 is 8, the byte at offset 7 is the sum, modulo 256, of the
    bytes at offsets 0 to 5, and the bytes at offsets 3 to 6 are FF and
    those three bytes; it takes the eight bytes. *)
Theorem set_baudrate_of_response
  (baudrate : tfminiplus_baudrate_t) (b0 b1 b2 e0 e1 e2 e3 c : Z) (rest : list Z)
  (w : World) :
  Forall (fun b => 0 <= b < 256) [b0; b1; b2; e0; e1; e2; e3; c] ->
  incoming w = [b0; b1; b2; e0; e1; e2; e3; c] ++ rest ->
  let v := baudrate_value baudrate in
  let arguments := [0xFF; uint8 (Z.shiftr v 8); uint8 (Z.shiftr v 16);
                    uint8 (Z.shiftr v 24)] in
  let w' := after_exchange (command_bytes TFMINI_PLUS_SET_BAUD_RATE arguments 8) 8 8 w in
  set_baudrate baudrate w
  = Some ((8 =? b1) && (byte_sum [b0; b1; b2; e0; e1; e2] =? c)
          && ((0xFF =? e0) && (uint8 (Z.shiftr v 8) =? e1)
              && (uint8 (Z.shiftr v 16) =? e2) && (uint8 (Z.shiftr v 24) =? e3)),
          w')
  /\ firstn 4 (command_bytes TFMINI_PLUS_SET_BAUD_RATE arguments 8) = [0x5A; 8; 6; 0xFF]
  /\ incoming w' = rest.
Proof.
  intros Hb Hin v arguments w'.
  destruct (received_of_bytes [b0; b1; b2; e0; e1; e2; e3; c] rest 8 w) as [Hr Hf];
    try assumption; try reflexivity; try lia.
  split; [|split; [reflexivity|]].
  - subst v arguments w'. rewrite set_baudrate_exact. cbv zeta.
    rewrite Hr, Hf, !(set_baudrate_low_byte baudrate). reflexivity.
  - subst w'. rewrite incoming_after_exchange, Hin. reflexivity.
Qed.

(** 115200 baud is 0x0001C200; the device echoes 00 C2 01 00 and the driver,
    which sent and expects FF first, reports failure. *)
Lemma set_baudrate_of_response_witness :
  exists w',
    set_baudrate TFMINI_PLUS_BAUDRATE_115200
      (stream_world [0x5A; 8; 6; 0x00; 0xC2; 0x01; 0x00; 0x2B])
    = Some (false, w')
    /\ incoming w' = [].
Proof.
  destruct (set_baudrate_of_response TFMINI_PLUS_BAUDRATE_115200
              0x5A 8 6 0x00 0xC2 0x01 0x00 0x2B []
              (stream_world [0x5A; 8; 6; 0x00; 0xC2; 0x01; 0x00; 0x2B]))
    as (Hrun & _ & Hin).
  - repeat constructor; lia.
  - reflexivity.
  - eexists. split; [exact Hrun | exact Hin].
Defined.

Lemma little_endian_split (v : Z) :
  0 <= v < 65536 -> uint8 v + 256 * uint8 (Z.shiftr v 8) = v.
Proof.
  intros H. rewrite Z.shiftr_div_pow2 by lia. change (2 ^ 8) with 256.
  assert (Hq : 0 <= v / 256 < 256)
    by (split; [apply Z.div_pos; lia | apply Z.div_lt_upper_bound; lia]).
  unfold uint8. rewrite (Z.mod_small (v / 256)) by exact Hq.
  pose proof (Z.div_mod v 256). lia.
Qed.

(** X17.  [set_io_mode] hands one packet of nine bytes to the transport in
    use and does nothing else: it does not wait and takes no byte of a
    response.  The packet is 5A 09 3B, the mode, then the critical distance
    and the hysteresis, each in two bytes, low byte first, so that 16-bit
    values are recovered from the packet. *)
Theorem set_io_mode_sends_little_endian
  (mode : tfminiplus_mode_t) (critical_distance hysteresis : Z) (w : World) :
  0 <= critical_distance < 65536 ->
  0 <= hysteresis < 65536 ->
  exists packet,
    set_io_mode mode critical_distance hysteresis w = Some (tt, after_send packet 9 w)
    /\ incoming (after_send packet 9 w) = incoming w
    /\ length packet = 9%nat
    /\ firstn 4 packet = [0x5A; 9; 0x3B; io_mode_value mode]
    /\ nth 4 packet 0 + 256 * nth 5 packet 0 = critical_distance
    /\ nth 6 packet 0 + 256 * nth 7 packet 0 = hysteresis.
Proof.
  intros Hc Hh. eexists. split; [apply set_io_mode_exact|].
  split; [destruct w as [[|] a s t tr]; reflexivity|].
  split; [reflexivity|].
  split; [destruct mode; reflexivity|].
  split; cbn [command_bytes nth app firstn]; apply little_endian_split; assumption.
Qed.

(** Critical distance 300, hysteresis 10. *)
Lemma set_io_mode_sends_little_endian_witness :
  exists packet,
    set_io_mode STANDARD 300 10 (bus_world []) = Some (tt, after_send packet 9 (bus_world []))
    /\ incoming (after_send packet 9 (bus_world [])) = incoming (bus_world [])
    /\ length packet = 9%nat
    /\ firstn 4 packet = [0x5A; 9; 0x3B; io_mode_value STANDARD]
    /\ nth 4 packet 0 + 256 * nth 5 packet 0 = 300
    /\ nth 6 packet 0 + 256 * nth 7 packet 0 = 10.
Proof.
  apply (set_io_mode_sends_little_endian STANDARD 300 10 (bus_world [])); lia.
Defined.

Lemma received_after_send (packet : list Z) (size expected : Z) (w : World) :
  received expected (after_send packet size w) = received expected w
  /\ filled expected (after_send packet size w) = filled expected w.
Proof.
  unfold received, filled. rewrite !delivered_after_send. split; reflexivity.
Qed.

(** X18.  [set_communication_interface] sends its command, then runs
    [save_settings], and reads one response only.  On a transport that
    holds five bytes it selects the requested mode exactly when those
    bytes are an accepted save-settings acknowledgement (5 at offset 1,
    the sum of the bytes at offsets 0 to 2 at offset 4, status 0 at
    offset 3); otherwise the mode stays.  The stored address stays in
    both cases. *)
Theorem set_communication_interface_of_response
  (mode : tfminiplus_communication_mode) (b0 b1 b2 status c : Z) (rest : list Z)
  (w : World) :
  Forall (fun b => 0 <= b < 256) [b0; b1; b2; status; c] ->
  incoming w = [b0; b1; b2; status; c] ++ rest ->
  exists w',
    set_communication_interface mode w = Some (tt, w')
    /\ _communications_mode w'
       = (if (5 =? b1) && (byte_sum [b0; b1; b2] =? c) && (status =? 0)
          then mode else _communications_mode w)
    /\ _address w' = _address w
    /\ map kind (new_events w w')
       = send_kinds (_communications_mode w) ++ send_kinds (_communications_mode w)
         ++ wait_kinds (_communications_mode w) ++ [KRead].
Proof.
  intros Hb Hin.
  destruct (received_of_bytes [b0; b1; b2; status; c] rest 5 w) as [Hr Hf];
    try assumption; try reflexivity; try lia.
  destruct (set_communication_interface_runs mode w) as ([] & w' & Hrun & Hlogs).
  exists w'. split; [exact Hrun|].
  set (w1 := after_send
               (command_bytes TFMINI_PLUS_SET_COMMUNICATION_INTERFACE
                  [first_byte (communication_mode_value mode)] 5) 5 w).
  assert (Hcond : received 5 w1 && (nth 3 (filled 5 w1) 0 =? 0)
                  = (5 =? b1) && (byte_sum [b0; b1; b2] =? c) && (status =? 0)).
  { subst w1.
    destruct (received_after_send
                (command_bytes TFMINI_PLUS_SET_COMMUNICATION_INTERFACE
                   [first_byte (communication_mode_value mode)] 5) 5 5 w) as [-> ->].
    rewrite Hr, Hf. reflexivity. }
  rewrite set_communication_interface_exact in Hrun. cbv zeta in Hrun.
  fold w1 in Hrun. rewrite Hcond in Hrun.
  assert (Hk : kept w (after_exchange (command_bytes TFMINI_PLUS_SAVE_SETTINGS [] 4) 4 5 w1))
    by (eapply kept_trans; [apply kept_after_send | apply kept_after_exchange]).
  destruct Hk as (Hm & Ha & _).
  split; [|split; [|apply logs_new_events; exact Hlogs]].
  - destruct ((5 =? b1) && (byte_sum [b0; b1; b2] =? c) && (status =? 0));
      injection Hrun as <-; [reflexivity | exact Hm].
  - destruct ((5 =? b1) && (byte_sum [b0; b1; b2] =? c) && (status =? 0));
      injection Hrun as <-; exact Ha.
Qed.

(** From UART mode to bus mode, with the acknowledgement on the stream. *)
Lemma set_communication_interface_of_response_witness :
  exists w',
    set_communication_interface TFMINI_PLUS_I2C (stream_world [0x5A; 5; 0x11; 0; 0x70])
    = Some (tt, w')
    /\ _communications_mode w' = TFMINI_PLUS_I2C
    /\ _address w' = 0x10
    /\ map kind (new_events (stream_world [0x5A; 5; 0x11; 0; 0x70]) w')
       = [KSend; KOther; KSend; KOther; KRead].
Proof.
  apply (set_communication_interface_of_response TFMINI_PLUS_I2C 0x5A 5 0x11 0 0x70 []
           (stream_world [0x5A; 5; 0x11; 0; 0x70])).
  - repeat constructor; lia.
  - reflexivity.
Defined.

(** X19.  On the bus, [send] of 1 to 255 bytes returns true exactly when
    [Wire.write] took all [size] bytes and [Wire.endTransmission] returned
    a status other than 0; with status 0 it returns false. *)
Theorem send_on_bus_reports_nonzero_status (input : list Z) (size : Z) (w : World) :
  _communications_mode w = TFMINI_PLUS_I2C ->
  1 <= size <= 255 ->
  size <= Z.of_nat (length input) ->
  exists ok w',
    send input size w = Some (ok, w')
    /\ (ok = true <-> size <= wire_tx_room (Wire w) /\ wire_end_status (Wire w) <> 0).
Proof.
  intros Hm Hs Hl. rewrite send_exact by exact Hl.
  eexists _, _. split; [reflexivity|].
  unfold send_reports. rewrite Hm.
  rewrite andb_true_iff, negb_true_iff, Z.eqb_eq, Z.eqb_neq.
  pose proof (Z.max_spec 0 (Z.min size (wire_tx_room (Wire w)))) as Hmax.
  pose proof (Z.min_spec size (wire_tx_room (Wire w))) as Hmin.
  unfold uint8. rewrite Z.mod_small by lia.
  split; intros [H1 H2]; (split; [lia | exact H2]).
Qed.

(** The bus acknowledges (status 0) and the send reports failure. *)
Lemma send_on_bus_reports_nonzero_status_witness :
  exists ok w',
    send [0x5A; 4; 1; 0x5E] 4 (bus_world []) = Some (ok, w')
    /\ (ok = true <-> 4 <= 32 /\ 0 <> 0).
Proof.
  apply (send_on_bus_reports_nonzero_status [0x5A; 4; 1; 0x5E] 4 (bus_world [])).
  - reflexivity.
  - lia.
  - cbn [length]. lia.
Defined.

(** ** Operations after an address was set *)

(** X20.  After [begin(address)], the bus calls of any operation go to
    [address & 0x7F]. *)
Theorem operation_after_begin (address : Z) (op : Operation) (w : World) :
  exists w1 w',
    begin address w = Some (tt, w1)
    /\ run op w1 = Some (tt, w')
    /\ Forall (addressed_to (Z.land address 0x7F)) (new_events w1 w').
Proof.
  set (w1 := with_address (Z.land address 0x7F) (with_mode TFMINI_PLUS_I2C w)).
  assert (Hbegin : begin address w = Some (tt, w1)).
  { unfold begin. rewrite bind_modify. unfold modify, uint8.
    rewrite Z.mod_small by (pose proof (land_7F_range address); lia). reflexivity. }
  destruct (run_left_by op w1) as (w' & Hrun & w2 & (_ & _ & Ht) & Hw).
  exists w1, w'. split; [exact Hbegin|]. split; [exact Hrun|].
  change (_communications_mode w1) with TFMINI_PLUS_I2C in Ht.
  destruct Ht as (_ & evs & He & Hf).
  assert (Htrace : trace w' = trace w1 ++ evs)
    by (destruct Hw as [-> | [(a & _ & ->) | (m & _ & ->)]]; exact He).
  unfold new_events. rewrite Htrace, skipn_app, skipn_all, Nat.sub_diag.
  exact Hf.
Qed.

(** X21.  After a [set_i2c_address] that returned true in bus mode, the bus
    calls of the next operation go to the new address, as it was given. *)
Theorem operation_after_set_i2c_address
  (address : Z) (op : Operation) (w w1 : World) :
  _communications_mode w = TFMINI_PLUS_I2C ->
  set_i2c_address address w = Some (true, w1) ->
  exists w',
    run op w1 = Some (tt, w')
    /\ Forall (addressed_to address) (new_events w1 w').
Proof.
  intros Hm Hset.
  rewrite set_i2c_address_exact in Hset. cbv zeta in Hset.
  match type of Hset with context [if ?c then _ else _] => destruct c end;
    [|discriminate].
  injection Hset as Hw1.
  assert (Hm1 : _communications_mode w1 = TFMINI_PLUS_I2C).
  { rewrite <- Hw1. cbn [with_address _communications_mode].
    rewrite (proj1 (kept_after_exchange _ 5 5 w)). exact Hm. }
  assert (Ha1 : _address w1 = address) by (rewrite <- Hw1; reflexivity).
  destruct (run_left_by op w1) as (w' & Hrun & w2 & (_ & _ & Ht) & Hw).
  exists w'. split; [exact Hrun|].
  rewrite Hm1, Ha1 in Ht. destruct Ht as (_ & evs & He & Hf).
  assert (Htrace : trace w' = trace w1 ++ evs)
    by (destruct Hw as [-> | [(a & _ & ->) | (m & _ & ->)]]; exact He).
  unfold new_events. rewrite Htrace, skipn_app, skipn_all, Nat.sub_diag.
  exact Hf.
Qed.

(** The device acknowledges address 0x90; the next [get_version] calls the
    device at 0x90. *)
Lemma operation_after_set_i2c_address_witness :
  let w := bus_world [0x5A; 5; 0x0B; 0x90; 0x6A] in
  let w1 := with_address 0x90
              (after_exchange (command_bytes TFMINI_PLUS_SET_I2C_ADDRESS [0x90] 5) 5 5 w) in
  set_i2c_address 0x90 w = Some (true, w1)
  /\ exists w',
      run OpGetVersion w1 = Some (tt, w')
      /\ Forall (addressed_to 0x90) (new_events w1 w').
Proof.
  intros w w1.
  assert (Hset : set_i2c_address 0x90 w = Some (true, w1)) by (vm_compute; reflexivity).
  split; [exact Hset|].
  apply (operation_after_set_i2c_address 0x90 OpGetVersion w w1 eq_refl Hset).
Defined.

(** * A length byte other than the expected size *)

(** In bus mode an answer whose byte at offset 1 is not [size] is never
    received as a packet of [size] bytes. *)
Lemma received_false_on_length_byte (size len : Z) (w : World) :
  _communications_mode w = TFMINI_PLUS_I2C ->
  2 <= size <= 255 ->
  nth_error (wire_answer (Wire w)) 1 = Some len ->
  0 <= len < 256 ->
  len <> size ->
  received size w = false.
Proof.
  intros Hm Hs Hlen Hbyte Hne.
  destruct (receive_false_on_length_byte (uninitialised size) size len w Hm Hs
              (length_uninitialised size ltac:(lia)) Hlen Hbyte Hne)
    as (output' & w' & Hrun).
  rewrite receive_exact in Hrun by exact Hs.
  congruence.
Qed.

(** The same of the world a command has been sent in, with or without the
    wait. *)
Lemma received_false_after_send (packet : list Z) (size expected len : Z) (w : World) :
  _communications_mode w = TFMINI_PLUS_I2C ->
  2 <= expected <= 255 ->
  nth_error (wire_answer (Wire w)) 1 = Some len ->
  0 <= len < 256 ->
  len <> expected ->
  received expected (after_send packet size w) = false
  /\ received expected (after_wait (after_send packet size w)) = false.
Proof.
  intros Hm Hs Hlen Hbyte Hne.
  rewrite received_after_send_wait, (proj1 (received_after_send packet size expected w)).
  split; exact (received_false_on_length_byte expected len w Hm Hs Hlen Hbyte Hne).
Qed.

(** C5.  In bus mode, when the device's answer has at offset 1 a byte [len]
    other than the size a caller expects, [receive] returns false, whatever
    the other bytes of the answer, its checksum byte included; and every
    operation that reads a response fails when [len] is not the size of its
    response: [set_i2c_address] returns false and keeps the stored address,
    [set_framerate], [set_baudrate], [set_output_format], [enable_output],
    [save_settings], [reset_system] and [factory_reset] return false,
    [read_data] and [read_manual_reading] return false and leave the
    caller's reading as it was, [set_communication_interface] keeps the
    mode, and [get_version], which has no result to report a failure with,
    returns its version with no field assigned. *)
Theorem length_mismatch_fails_on_bus (len : Z) (w : World) :
  _communications_mode w = TFMINI_PLUS_I2C ->
  nth_error (wire_answer (Wire w)) 1 = Some len ->
  0 <= len < 256 ->
  (forall (output : list Z) (size : Z),
      2 <= size <= 255 ->
      Z.of_nat (length output) = size ->
      len <> size ->
      exists output' w', receive output size w = Some ((false, output'), w'))
  /\ (len <> TFMINI_PLUS_PACK_LENGTH_SET_I2C_ADDRESS ->
      forall address, exists w',
        set_i2c_address address w = Some (false, w') /\ _address w' = _address w)
  /\ (len <> TFMINI_PLUS_PACK_LENGTH_VERSION_RESPONSE ->
      exists w', get_version w = Some (None, w'))
  /\ (len <> TFMINI_PLUS_PACK_LENGTH_SET_FRAME_RATE ->
      forall framerate, exists w', set_framerate framerate w = Some (false, w'))
  /\ (len <> TFMINI_PLUS_PACK_LENGTH_SET_BAUD_RATE ->
      forall baudrate, exists w', set_baudrate baudrate w = Some (false, w'))
  /\ (len <> TFMINI_PLUS_PACK_LENGTH_SET_OUTPUT_FORMAT ->
      forall format, exists w', set_output_format format w = Some (false, w'))
  /\ (len <> TFMINI_PLUS_PACK_LENGTH_ENABLE_DATA_OUTPUT ->
      forall output_enabled, exists w',
        enable_output output_enabled w = Some (false, w'))
  /\ (len <> TFMINI_PLUS_PACK_LENGTH_SAVE_SETTINGS_RESPONSE ->
      (exists w', save_settings w = Some (false, w'))
      /\ forall mode, exists w',
          set_communication_interface mode w = Some (tt, w')
          /\ _communications_mode w' = _communications_mode w)
  /\ (len <> TFMINI_PLUS_PACK_LENGTH_SYSTEM_RESET_RESPONSE ->
      exists w', reset_system w = Some (false, w'))
  /\ (len <> TFMINI_PLUS_PACK_LENGTH_RESTORE_FACTORY_SETTINGS_RESPONSE ->
      exists w', factory_reset w = Some (false, w'))
  /\ (len <> TFMINI_PLUS_PACK_LENGTH_DATA_RESPONSE ->
      forall data,
        (forall in_mm_format, exists w',
            read_data data in_mm_format w = Some ((false, data), w'))
        /\ exists w', read_manual_reading data w = Some ((false, data), w')).
Proof.
  intros Hm Hlen Hbyte.
  assert (Hrec : forall size, 2 <= size <= 255 -> len <> size -> received size w = false)
    by (intros size Hs Hne;
        exact (received_false_on_length_byte size len w Hm Hs Hlen Hbyte Hne)).
  split.
  { intros output size Hs Hl Hne.
    exact (receive_false_on_length_byte output size len w Hm Hs Hl Hlen Hbyte Hne). }
  unfold_lengths.
  split.
  { intros Hne address. rewrite set_i2c_address_exact. cbv zeta.
    rewrite (Hrec 5) by lia. cbn [andb]. eexists. split; [reflexivity|].
    exact (proj1 (proj2 (kept_after_exchange _ 5 5 w))). }
  split.
  { intros Hne. rewrite get_version_exact, (Hrec 7) by lia. cbn [andb].
    eexists. reflexivity. }
  split.
  { intros Hne framerate. unfold TFMINI_PLUS_PACK_LENGTH_SET_FRAME_RATE in Hne.
    rewrite set_framerate_exact. cbv zeta.
    rewrite (Hrec 6) by lia. cbn [andb]. eexists. reflexivity. }
  split.
  { intros Hne baudrate. rewrite set_baudrate_exact. cbv zeta.
    rewrite (Hrec 8) by lia. cbn [andb]. eexists. reflexivity. }
  split.
  { intros Hne format. rewrite set_output_format_exact, (Hrec 5) by lia.
    cbn [andb]. eexists. reflexivity. }
  split.
  { intros Hne output_enabled. rewrite enable_output_exact, (Hrec 5) by lia.
    cbn [andb]. eexists. reflexivity. }
  split.
  { intros Hne. split.
    - rewrite save_settings_exact, (Hrec 5) by lia. cbn [andb]. eexists. reflexivity.
    - intros mode. rewrite set_communication_interface_exact. cbv zeta.
      rewrite (proj1 (received_after_send _ 5 5 w)), (Hrec 5) by lia. cbn [andb].
      eexists. split; [reflexivity|].
      rewrite (proj1 (kept_after_exchange _ 4 5 _)). apply mode_after_send. }
  split.
  { intros Hne. rewrite reset_system_exact, (Hrec 5) by lia. cbn [andb].
    eexists. reflexivity. }
  split.
  { intros Hne. rewrite factory_reset_exact, (Hrec 5) by lia. cbn [andb].
    eexists. reflexivity. }
  intros Hne data. split.
  - intros in_mm_format. unfold read_data. rewrite bind_gets, Hm.
    change (mode_eqb TFMINI_PLUS_I2C TFMINI_PLUS_I2C) with true. cbv iota.
    unfold_lengths.
    erewrite bind_some by (apply send_command_exact; cbn [length]; lia).
    rewrite read_data_response_on_bus by (rewrite mode_after_send; exact Hm).
    rewrite (proj1 (received_after_send _ 5 9 w)), (Hrec 9) by lia.
    eexists. reflexivity.
  - unfold read_manual_reading, send_command0. unfold_lengths.
    erewrite bind_some by (apply send_command_exact; cbn [length]; lia).
    erewrite bind_some by apply do_i2c_wait_exact.
    rewrite read_data_response_on_bus
      by (rewrite (proj1 (kept_after_wait _)), mode_after_send; exact Hm).
    rewrite received_after_send_wait, (Hrec 9) by lia.
    eexists. reflexivity.
Qed.

(** The device answers 5A 08 03 FF 00 64 to [set_framerate] at 100 Hz: the
    six bytes expected, the two bytes the driver sent echoed at offsets 3
    and 4, a last byte that is right by the sum of all bytes before it and
    by the driver's sum alike, and 8 where the length 6 belongs.  [receive]
    and [set_framerate] return false; with 6 at offset 1 and the checksum
    the driver computes, 5A 06 03 FF 00 62, [set_framerate] returns true. *)
Lemma length_mismatch_fails_on_bus_witness :
  let w := bus_world [0x5A; 8; 3; 0xFF; 0; 0x64] in
  byte_sum [0x5A; 8; 3; 0xFF; 0] = 0x64
  /\ compare_checksum [0x5A; 8; 3; 0xFF; 0; 0x64] 6 = Some true
  /\ (exists output' w', receive (uninitialised 6) 6 w = Some ((false, output'), w'))
  /\ (exists w', set_framerate TFMINI_PLUS_FRAMERATE_100HZ w = Some (false, w'))
  /\ (exists w', get_version w = Some (None, w'))
  /\ (exists w', save_settings w = Some (false, w'))
  /\ (exists w', read_data (mkData 1 2 3) false w = Some ((false, mkData 1 2 3), w'))
  /\ (exists w', set_framerate TFMINI_PLUS_FRAMERATE_100HZ
                   (bus_world [0x5A; 6; 3; 0xFF; 0; 0x62]) = Some (true, w')).
Proof.
  intros w.
  destruct (length_mismatch_fails_on_bus 8 w eq_refl eq_refl ltac:(lia))
    as (Hreceive & _ & Hversion & Hrate & _ & _ & _ & Hsave & _ & _ & Hread).
  split; [reflexivity|]. split; [reflexivity|].
  split; [apply Hreceive; [lia | reflexivity | lia]|].
  split; [apply Hrate; unfold TFMINI_PLUS_PACK_LENGTH_SET_FRAME_RATE; lia|].
  split; [apply Hversion; unfold TFMINI_PLUS_PACK_LENGTH_VERSION_RESPONSE; lia|].
  split.
  { assert (Hne : 8 <> TFMINI_PLUS_PACK_LENGTH_SAVE_SETTINGS_RESPONSE)
      by (unfold TFMINI_PLUS_PACK_LENGTH_SAVE_SETTINGS_RESPONSE; lia).
    exact (proj1 (Hsave Hne)). }
  split.
  { assert (Hne : 8 <> TFMINI_PLUS_PACK_LENGTH_DATA_RESPONSE)
      by (unfold TFMINI_PLUS_PACK_LENGTH_DATA_RESPONSE; lia).
    exact (proj1 (Hread Hne (mkData 1 2 3)) false). }
  eexists. vm_compute. reflexivity.
Defined.

(** * An acknowledgement with the checksum of all its bytes *)

(** In bus mode the acknowledgement 5A 05 0B [address] c of a change to
    any address from 1 to 255, where c is the low byte of the sum of the
    four bytes before it, is refused by [set_i2c_address], and the stored
    address stays as it was: [compare_checksum] compares c with the sum of
    the first three bytes, 6A, which differs from c by [address]. *)
Lemma set_i2c_address_refuses_true_checksum (address : Z) :
  0 < address < 256 ->
  let answer := [0x5A; 5; 0x0B; address; byte_sum [0x5A; 5; 0x0B; address]] in
  exists w',
    set_i2c_address address (bus_world answer) = Some (false, w')
    /\ _address w' = _address (bus_world answer).
Proof.
  intros Ha answer.
  assert (Hsum : byte_sum [0x5A; 5; 0x0B; address] = uint8 (0x6A + address))
    by reflexivity.
  assert (Hc : 0 <= uint8 (0x6A + address) < 256)
    by (unfold uint8; apply Z.mod_pos_bound; lia).
  destruct (received_of_bytes answer [] 5 (bus_world answer)) as [Hrec _].
  - lia.
  - reflexivity.
  - subst answer. rewrite Hsum. repeat constructor; lia.
  - symmetry. apply app_nil_r.
  - rewrite set_i2c_address_exact. cbv zeta. rewrite Hrec.
    replace (accepts answer 5) with false.
    + cbn [andb]. eexists. split; [reflexivity|].
      exact (proj1 (proj2 (kept_after_exchange _ 5 5 (bus_world answer)))).
    + symmetry. subst answer. unfold accepts. rewrite Hsum.
      change (byte_sum (firstn (Z.to_nat (5 - 2)) [0x5A; 5; 0x0B; address; uint8 (0x6A + address)]))
        with 0x6A.
      change (nth (Z.to_nat (5 - 1)) [0x5A; 5; 0x0B; address; uint8 (0x6A + address)] 0)
        with (uint8 (0x6A + address)).
      apply andb_false_intro2. apply Z.eqb_neq. unfold uint8.
      destruct (Z_lt_ge_dec (0x6A + address) 256).
      * rewrite Z.mod_small by lia. lia.
      * replace (0x6A + address) with ((0x6A + address - 256) + 1 * 256) by lia.
        rewrite Z.mod_add by lia. rewrite Z.mod_small by lia. lia.
Qed.
